(** * UrChats: container codec, message cipher, key rotation

    A shallow embedding of the cryptographic layer of the UrChats chat
    client: [flightcodev2CLI.CryptoService] (the encrypted container),
    [chat.ChatManager] (sealing, opening and the old-key fallback),
    [key_rotate.KeyRotationManager] (rotation and the rotation-due check)
    and the parts of [db_connect.DatabaseManager] they call; and of what is
    built on it: [login.LoginManager] (the profile file),
    [message_storage.MessageStorage] (the local message store), the output
    paths of the file commands and the polling closure of [main.py].

    The third-party primitives (Argon2id, AES-GCM, the NaCl box, Base64,
    UTF-8, JSON) are interfaces; everything the repository itself writes
    (framing, slicing, control flow, exception handling, mutation of the
    user record) is modelled as the code has it. *)

From Stdlib Require Import Strings.Ascii Strings.String Strings.Byte NArith.
From Stdlib Require Import Sorting.Sorted.
From stdpp Require Import base option list strings gmap finite vector.

Open Scope string_scope.
Open Scope list_scope.
Open Scope nat_scope.

(** ** Bytes *)

Abbreviation bytes := (list byte).

#[global] Instance byte_eq_dec : EqDecision byte := Byte.byte_eq_dec.

(** Python's [b[lo:hi]] for indices [0 <= lo <= hi]: out-of-range bounds
    are clamped, never an error. *)
Definition slice {A} (lo hi : nat) (l : list A) : list A :=
  take (hi - lo) (drop lo l).

Definition byte_of_N (n : N) : byte :=
  default x00 (Byte.of_N (n mod 256)%N).

(** ** Exceptions and results *)

Inductive exn :=
| ValueError
| TypeError
| OverflowError
| UnicodeEncodeError
| UnicodeDecodeError
| Base64Error
| InvalidTag
| CryptoError
| OSError.

#[global] Instance exn_eq_dec : EqDecision exn.
Proof. solve_decision. Defined.

Inductive result (A : Type) :=
| Ok (a : A)
| Raise (e : exn).
Arguments Ok {A} a.
Arguments Raise {A} e.

#[global] Instance result_ret : MRet result := @Ok.
#[global] Instance result_bind : MBind result := λ A B f m,
  match m with
  | Ok a => f a
  | Raise e => Raise e
  end.

Definition or_raise {A} (e : exn) (o : option A) : result A :=
  match o with
  | Some a => Ok a
  | None => Raise e
  end.

Definition raises {A} (r : result A) : Prop := ∃ e, r = Raise e.

(** [int.to_bytes(2, byteorder='big')]: OverflowError from 65536 on. *)
Definition to_bytes2_big (n : N) : result bytes :=
  if (n <? 65536)%N then Ok [byte_of_N (n / 256); byte_of_N n]
  else Raise OverflowError.

(** [int.from_bytes(b, byteorder='big')]. *)
Definition from_bytes_big (b : bytes) : N :=
  foldl (λ acc x, acc * 256 + Byte.to_N x)%N 0%N b.

(** Truthiness of a Python [str]: only the empty string is falsy. *)
Definition truthy (s : string) : bool :=
  match s with
  | EmptyString => false
  | String _ _ => true
  end.

(** A text of ASCII characters only, as [isoformat()] and the format
    strings of the repository produce. *)
Definition ascii_only (s : string) : bool :=
  forallb (λ c, (N_of_ascii c <? 128)%N) (list_ascii_of_string s).

(** ** Third-party interfaces *)

(** Text codecs: [str.encode('utf-8')] (which raises on lone surrogates),
    [bytes.decode('utf-8')], [nacl.encoding.Base64Encoder] (its [encode]
    followed by [.decode('utf-8')], and its [decode]). *)
Class Codec := {
  utf8_encode : string → option bytes;
  utf8_decode : bytes → option string;
  b64encode : bytes → string;
  b64decode : string → option bytes;
}.

(** What the proofs use of the codecs: ASCII text encodes to its own bytes,
    decoding undoes encoding, the empty Base64 text decodes to nothing. *)
Class CodecOk `{Codec} : Prop := {
  utf8_encode_ascii s :
    ascii_only s = true → utf8_encode s = Some (list_byte_of_string s);
  utf8_decode_encode s b : utf8_encode s = Some b → utf8_decode b = Some s;
  b64decode_encode b : b64decode (b64encode b) = Some b;
  b64decode_empty : b64decode "" = Some [];
}.

(** [argon2.low_level.hash_secret_raw(secret, salt, time_cost, memory_cost,
    parallelism, hash_len, type=Type.ID)]. *)
Class Argon2 := {
  hash_secret_raw : bytes → bytes → N → N → N → nat → bytes;
}.

(** What the proofs use of Argon2: on a salt of at least 8 bytes the hash
    has the requested length (from 4 bytes on). *)
Class Argon2Ok `{Argon2} : Prop := {
  hash_secret_raw_length secret salt t m p len :
    8 ≤ length salt → 4 ≤ len →
    length (hash_secret_raw secret salt t m p len) = len;
}.

(** AES-GCM of [cryptography.hazmat]: an encryptor fed the associated data
    and the plaintext gives the ciphertext and [encryptor.tag]; a decryptor
    built with the tag gives the plaintext, or raises [InvalidTag] from
    [finalize()] ([None] here). *)
Class AesGcm := {
  gcm_encrypt : bytes → bytes → bytes → bytes → bytes * bytes;
  gcm_decrypt : bytes → bytes → bytes → bytes → bytes → option bytes;
}.

(** What the proofs use of AES-256-GCM with a 12-byte nonce: the tag has 16
    bytes, and decryption under the same key, nonce, tag and associated
    data returns what was encrypted. *)
Class AesGcmOk `{AesGcm} : Prop := {
  gcm_tag_length key nonce aad data :
    length key = 32 → length nonce = 12 →
    length (gcm_encrypt key nonce aad data).2 = 16;
  gcm_decrypt_encrypt key nonce aad data :
    length key = 32 → length nonce = 12 →
    gcm_decrypt key nonce (gcm_encrypt key nonce aad data).2 aad
      (gcm_encrypt key nonce aad data).1 = Some data;
}.

(** [nacl.public]: a [PrivateKey]'s [public_key]
    ([crypto_scalarmult_base] of its 32 bytes); [Box(private_key,
    public_key)], here the shared key the object holds;
    [box.encrypt(plaintext, nonce)] (the nonce followed by the authenticated
    ciphertext) and [box.decrypt(encrypted)]. [None] where the call
    raises. *)
Class NaCl := {
  crypto_scalarmult_base : bytes → bytes;
  Box : bytes → bytes → option bytes;
  Box_encrypt : bytes → bytes → bytes → option bytes;
  Box_decrypt : bytes → bytes → option bytes;
}.

(** What the proofs use of the box: a public key has 32 bytes, and for two
    32-byte private keys the box of one with the other's public key opens
    what the converse box sealed under a 24-byte nonce. *)
Class NaClOk `{NaCl} : Prop := {
  crypto_scalarmult_base_length sk :
    length sk = 32 → length (crypto_scalarmult_base sk) = 32;
  Box_decrypt_encrypt a b :
    length a = 32 → length b = 32 →
    ∃ box_ab box_ba,
      Box a (crypto_scalarmult_base b) = Some box_ab
      ∧ Box b (crypto_scalarmult_base a) = Some box_ba
      ∧ ∀ plaintext nonce,
          length nonce = 24 →
          ∃ encrypted,
            Box_encrypt box_ab plaintext nonce = Some encrypted
            ∧ Box_decrypt box_ba encrypted = Some plaintext;
}.

(** ** The user record ([user_data]) and the relay

    [user_data] is the dict [LoginManager.register_user] builds and every
    manager shares by reference. A key of [db_profiles] is what
    [os.getenv("SUPABASE_URL")] returned, [None] when the variable is unset.
    In a profile, [current_keypair] is [None] where the dict holds [None]
    (both sites that create a profile set the key), and [old_keys] is [None]
    where the dict has no such key (the case [rotate_key] tests for). *)

Record keypair := {
  private_key : string;
  public_key : string;
  created_at : string;
}.

Record db_profile := {
  current_keypair : option keypair;
  old_keys : option (list keypair);
}.

Record user_data := {
  username : string;
  identity_public_key : string;
  identity_private_key : string;
  db_profiles : gmap (option string) db_profile;
}.

#[global] Instance keypair_eq_dec : EqDecision keypair.
Proof. solve_decision. Defined.

(** A row of the [message_log] table. *)
Record message := {
  sender_username : string;
  recipient_username : string;
  ciphertext : string;
  timestamp : string;
}.

(** The Supabase project as the client sees it: [users_public_keys] maps a
    username (the primary key) to its [public_key] and [updated_at];
    [reachable] is false when a request raises (no connection, no table),
    which every [DatabaseManager] method catches. *)
Record database := {
  reachable : bool;
  users_public_keys : gmap string (string * string);
  message_log : list message;
}.

(** [json.dumps(user_data, indent=2)]. *)
Class Json := {
  json_dumps : user_data → string;
}.

(** ** The process state and its monad

    [w_rng] is the entropy behind [os.urandom] and libsodium's
    [randombytes]; [w_now] and [w_now_iso] are the clock as
    [utils.get_timestamp()] and [datetime.now().isoformat()] read it;
    [w_password] is what [getpass.getpass] returns. The clock stands still
    during one call. An exception leaves the state as it is when raised:
    Python rolls nothing back. *)
Record World := {
  w_rng : nat → byte;
  w_now : string;
  w_now_iso : string;
  w_env_url : option string;
  w_password : string;
  w_user_data : user_data;
  w_db : database;
  w_profile_file : option bytes;
}.

Definition M (A : Type) : Type := World → result A * World.

Definition ret {A} (a : A) : M A := λ w, (Ok a, w).

Definition raise {A} (e : exn) : M A := λ w, (Raise e, w).

Definition bind {A B} (m : M A) (f : A → M B) : M B := λ w,
  match m w with
  | (Ok a, w') => f a w'
  | (Raise e, w') => (Raise e, w')
  end.

(** [try: m except Exception: h]. *)
Definition try_except {A} (m : M A) (h : exn → M A) : M A := λ w,
  match m w with
  | (Ok a, w') => (Ok a, w')
  | (Raise e, w') => h e w'
  end.

Definition lift {A} (r : result A) : M A := λ w, (r, w).

Declare Scope M_scope.
Delimit Scope M_scope with M.
Notation "x <- m ;; k" := (bind m (λ x, k))
  (at level 100, m at next level, right associativity) : M_scope.
Notation "m ;;; k" := (bind m (λ _, k))
  (at level 100, right associativity) : M_scope.

Definition gets {A} (f : World → A) : M A := λ w, (Ok (f w), w).

Definition set_rng (r : nat → byte) : M unit := λ w,
  (Ok (), {| w_rng := r; w_now := w_now w; w_now_iso := w_now_iso w;
             w_env_url := w_env_url w; w_password := w_password w;
             w_user_data := w_user_data w; w_db := w_db w;
             w_profile_file := w_profile_file w |}).

Definition set_user_data (ud : user_data) : M unit := λ w,
  (Ok (), {| w_rng := w_rng w; w_now := w_now w; w_now_iso := w_now_iso w;
             w_env_url := w_env_url w; w_password := w_password w;
             w_user_data := ud; w_db := w_db w;
             w_profile_file := w_profile_file w |}).

Definition set_db (d : database) : M unit := λ w,
  (Ok (), {| w_rng := w_rng w; w_now := w_now w; w_now_iso := w_now_iso w;
             w_env_url := w_env_url w; w_password := w_password w;
             w_user_data := w_user_data w; w_db := d;
             w_profile_file := w_profile_file w |}).

(** [open(profile_path, 'wb')] followed by [write]: taken to succeed, so
    that the file holds exactly what was written. A write that fails (the
    file is truncated first) is outside the model, and nothing is stated
    about the file after one. *)
Definition set_profile_file (f : bytes) : M unit := λ w,
  (Ok (), {| w_rng := w_rng w; w_now := w_now w; w_now_iso := w_now_iso w;
             w_env_url := w_env_url w; w_password := w_password w;
             w_user_data := w_user_data w; w_db := w_db w;
             w_profile_file := Some f |}).

(** [os.urandom(n)] and [nacl.utils.random(n)]: the next [n] bytes. *)
Definition random (n : nat) : M bytes :=
  (r <- gets w_rng;;
   set_rng (λ i, r (n + i));;;
   ret (r <$> seq 0 n))%M.

(** [utils.get_timestamp()]. *)
Definition get_timestamp : M string := gets w_now.

Section Model.
Context `{!Codec, !Argon2, !AesGcm, !NaCl, !Json}.

(** ** flightcodev2CLI.py: [CryptoService] *)

Definition APP_VERSION : string := "2.0".

Definition SALT_SIZE : nat := 16.
Definition NONCE_SIZE : nat := 12.
Definition TAG_SIZE : nat := 16.
Definition KEY_SIZE : nat := 32.

Definition TIME_COST : N := 3.
Definition MEMORY_COST : N := 2 ^ 18.
Definition PARALLELISM : N := 4.

Definition derive_key (password : string) (salt : bytes) (key_size : nat)
    : result bytes :=
  if bool_decide (key_size ∈ [16; 24; 32]) then
    secret ← or_raise UnicodeEncodeError (utf8_encode password);
    Ok (hash_secret_raw secret salt TIME_COST MEMORY_COST PARALLELISM key_size)
  else Raise ValueError.

(** The key is always 32 bytes and the nonce 12, so the checks the [AES] and
    [GCM] constructors make on their sizes never fire here. *)
Definition encrypt_data (data : bytes) (password : string) : M bytes :=
  (salt <- random SALT_SIZE;;
   nonce <- random NONCE_SIZE;;
   key <- lift (derive_key password salt KEY_SIZE);;
   now <- gets w_now_iso;;
   metadata <- lift (or_raise UnicodeEncodeError
     (utf8_encode ("FlightCode v" +:+ APP_VERSION +:+ " - " +:+ now)));;
   let ciphertext := (gcm_encrypt key nonce metadata data).1 in
   let tag := (gcm_encrypt key nonce metadata data).2 in
   metadata_length <- lift (to_bytes2_big (N.of_nat (length metadata)));;
   ret (salt ++ nonce ++ tag ++ metadata_length ++ metadata ++ ciphertext))%M.

(** From 46 bytes on the tag slice holds 16 bytes and the nonce slice 12, so
    [GCM(nonce, tag)] accepts them. *)
Definition decrypt_data (encrypted_data : bytes) (password : string)
    : result bytes :=
  if bool_decide (length encrypted_data < SALT_SIZE + NONCE_SIZE + TAG_SIZE + 2)
  then Raise ValueError
  else
    let salt := slice 0 SALT_SIZE encrypted_data in
    let nonce := slice SALT_SIZE (SALT_SIZE + NONCE_SIZE) encrypted_data in
    let tag := slice (SALT_SIZE + NONCE_SIZE)
                     (SALT_SIZE + NONCE_SIZE + TAG_SIZE) encrypted_data in
    let metadata_length_bytes :=
      slice (SALT_SIZE + NONCE_SIZE + TAG_SIZE)
            (SALT_SIZE + NONCE_SIZE + TAG_SIZE + 2) encrypted_data in
    let metadata_length := N.to_nat (from_bytes_big metadata_length_bytes) in
    let metadata :=
      slice (SALT_SIZE + NONCE_SIZE + TAG_SIZE + 2)
            (SALT_SIZE + NONCE_SIZE + TAG_SIZE + 2 + metadata_length)
            encrypted_data in
    let ciphertext :=
      drop (SALT_SIZE + NONCE_SIZE + TAG_SIZE + 2 + metadata_length)
           encrypted_data in
    key ← derive_key password salt KEY_SIZE;
    or_raise InvalidTag (gcm_decrypt key nonce tag metadata ciphertext).

(** What [decrypt_file] does with the bytes it read and the password it was
    given (the [try] of lines 547-572). The inner [try] holds
    [decrypt_data] alone: on [InvalidTag] it prints the authentication
    message and returns before any write. [write] is what follows a returned
    plaintext inside the outer [try]: [FileHandler.write_file],
    [ConfigManager.add_recent_file] and, when asked for,
    [FileHandler.secure_delete]; whatever it raises, like any other
    exception of [decrypt_data], is printed by the outer handler. *)
Inductive decrypt_file_outcome :=
| FileWritten (decrypted_data : bytes)
| AuthenticationFailed
| ErrorDuringDecryption (e : exn).

Definition decrypt_file (encrypted_data : bytes) (password : string)
    (write : bytes → result unit) : decrypt_file_outcome :=
  match decrypt_data encrypted_data password with
  | Ok decrypted_data =>
      match write decrypted_data with
      | Ok _ => FileWritten decrypted_data
      | Raise e => ErrorDuringDecryption e
      end
  | Raise InvalidTag => AuthenticationFailed
  | Raise e => ErrorDuringDecryption e
  end.

(** ** nacl.public as the managers use it

    A key object is its 32 raw bytes; both constructors refuse any other
    length. *)

Definition PrivateKey (raw : bytes) : result bytes :=
  if bool_decide (length raw = 32) then Ok raw else Raise TypeError.

Definition PublicKey (raw : bytes) : result bytes :=
  if bool_decide (length raw = 32) then Ok raw else Raise ValueError.

Definition PrivateKey_generate : M bytes := random 32.

(** [PublicKey(Base64Encoder.decode(s))] and
    [PrivateKey(Base64Encoder.decode(s))]. *)
Definition decode_public_key (s : string) : result bytes :=
  raw ← or_raise Base64Error (b64decode s);
  PublicKey raw.

Definition decode_private_key (s : string) : result bytes :=
  raw ← or_raise Base64Error (b64decode s);
  PrivateKey raw.

Definition Box_NONCE_SIZE : nat := 24.

(** The dict the three key-minting sites build:
    [{"private_key": ..., "public_key": ..., "created_at": get_timestamp()}]. *)
Definition fresh_keypair : M keypair :=
  (private_key <- PrivateKey_generate;;
   let public_key := crypto_scalarmult_base private_key in
   now <- get_timestamp;;
   ret {| private_key := b64encode private_key;
          public_key := b64encode public_key;
          created_at := now |})%M.

Definition set_db_profile (url : option string) (p : db_profile) : M unit :=
  (ud <- gets w_user_data;;
   set_user_data {| username := username ud;
                    identity_public_key := identity_public_key ud;
                    identity_private_key := identity_private_key ud;
                    db_profiles := <[url := p]> (db_profiles ud) |})%M.

(** ** db_connect.py: [DatabaseManager] *)

Definition get_user_public_key (d : database) (username : string)
    : option string :=
  if reachable d then fst <$> users_public_keys d !! username else None.

Definition db_send_message (sender recipient ciphertext : string) : M bool :=
  (d <- gets w_db;;
   if reachable d then
     now <- get_timestamp;;
     set_db {| reachable := reachable d;
               users_public_keys := users_public_keys d;
               message_log := message_log d ++
                 [{| sender_username := sender;
                     recipient_username := recipient;
                     ciphertext := ciphertext;
                     timestamp := now |}] |};;;
     ret true
   else ret false)%M.

Definition get_messages (d : database) (username : string) : list message :=
  if reachable d then
    filter (λ msg, sender_username msg ≠ "system")
      (filter (λ msg, recipient_username msg = username) (message_log d))
  else [].

(** An SQL [UPDATE ... WHERE username = ...]: no row, no change, and still
    [True]. *)
Definition update_public_key (username public_key : string) : M bool :=
  (d <- gets w_db;;
   if reachable d then
     now <- get_timestamp;;
     set_db {| reachable := reachable d;
               users_public_keys :=
                 match users_public_keys d !! username with
                 | Some _ => <[username := (public_key, now)]> (users_public_keys d)
                 | None => users_public_keys d
                 end;
               message_log := message_log d |};;;
     ret true
   else ret false)%M.

(** ** chat.py: [ChatManager]

    The manager keeps a reference to the shared [user_data] (the world's)
    and the key objects it built from it when it was created: a later change
    of [user_data['identity_private_key']] does not reach them. *)

Record ChatManager := {
  cm_username : string;
  cm_identity_private_key : bytes;
  cm_identity_public_key : bytes;
}.

Definition _initialize_chat_keypair : M unit :=
  try_except
    (supabase_url <- gets w_env_url;;
     ud <- gets w_user_data;;
     match db_profiles ud !! supabase_url with
     | Some db_profile =>
         match current_keypair db_profile with
         | None =>
             kp <- fresh_keypair;;
             set_db_profile supabase_url
               {| current_keypair := Some kp; old_keys := old_keys db_profile |}
         | Some _ => ret ()
         end
     | None =>
         kp <- fresh_keypair;;
         set_db_profile supabase_url
           {| current_keypair := Some kp; old_keys := Some [] |}
     end)%M
    (λ _, ret ()).

Definition ChatManager_init : M ChatManager :=
  (ud <- gets w_user_data;;
   sk <- lift (decode_private_key (identity_private_key ud));;
   pk <- lift (decode_public_key (identity_public_key ud));;
   _initialize_chat_keypair;;;
   ret {| cm_username := username ud;
          cm_identity_private_key := sk;
          cm_identity_public_key := pk |})%M.

Definition send_message (self : ChatManager)
    (recipient_username recipient_public_key_str message : string) : M bool :=
  try_except
    (recipient_public_key <- lift (decode_public_key recipient_public_key_str);;
     box <- lift (or_raise CryptoError
       (Box (cm_identity_private_key self) recipient_public_key));;
     nonce <- random Box_NONCE_SIZE;;
     plaintext <- lift (or_raise UnicodeEncodeError (utf8_encode message));;
     encrypted <- lift (or_raise CryptoError (Box_encrypt box plaintext nonce));;
     let ciphertext := b64encode encrypted in
     db_send_message (cm_username self) recipient_username ciphertext)%M
    (λ _, ret false).

(** [box.decrypt(Base64Encoder.decode(ciphertext)).decode('utf-8')] with
    [box = Box(private_key, sender_public_key)]. *)
Definition box_open (private_key sender_public_key : bytes)
    (ciphertext : string) : result string :=
  box ← or_raise CryptoError (Box private_key sender_public_key);
  encrypted ← or_raise Base64Error (b64decode ciphertext);
  plaintext ← or_raise CryptoError (Box_decrypt box encrypted);
  or_raise UnicodeDecodeError (utf8_decode plaintext).

(** The [try] of [receive_messages] once the sender's key string is known:
    the message is opened with the manager's identity key. *)
Definition open_with_current (self : ChatManager)
    (sender_public_key_str ciphertext : string) : result string :=
  sender_public_key ← decode_public_key sender_public_key_str;
  box_open (cm_identity_private_key self) sender_public_key ciphertext.

(** The [try] inside the loop of [_try_decrypt_with_old_keys]. *)
Definition open_with_old_key (key_data : keypair) (sender_public_key : bytes)
    (ciphertext : string) : result string :=
  private_key ← decode_private_key (private_key key_data);
  box_open private_key sender_public_key ciphertext.

(** The loop of [_try_decrypt_with_old_keys]: the first key that opens the
    message returns from the function, a key that raises is passed over. *)
Fixpoint try_each_old_key (keys : list keypair) (sender_public_key : bytes)
    (ciphertext : string) : option string :=
  match keys with
  | [] => None
  | key_data :: rest =>
      match open_with_old_key key_data sender_public_key ciphertext with
      | Ok decrypted => Some decrypted
      | Raise _ => try_each_old_key rest sender_public_key ciphertext
      end
  end.

Definition _try_decrypt_with_old_keys (w : World)
    (ciphertext sender_public_key_str : string) : option string :=
  match db_profiles (w_user_data w) !! w_env_url w with
  | Some db_profile =>
      match decode_public_key sender_public_key_str with
      | Ok sender_public_key =>
          try_each_old_key (default [] (old_keys db_profile))
            sender_public_key ciphertext
      | Raise _ => None
      end
  | None => None
  end.

Record decrypted_message := {
  dm_sender_username : string;
  dm_timestamp : string;
  dm_decrypted_content : string;
}.

(** The dict both branches of [receive_messages] append. *)
Definition decrypted_entry (msg : message) (decrypted : string)
    : decrypted_message :=
  {| dm_sender_username := sender_username msg;
     dm_timestamp := timestamp msg;
     dm_decrypted_content := decrypted |}.

(** The body of the [for msg in encrypted_messages] loop of
    [receive_messages], as what it appends to [decrypted_messages]. The
    handler runs only after [sender_public_key_str] is bound, since the
    directory lookup never raises. *)
Definition receive_one (self : ChatManager) (w : World) (msg : message)
    : list decrypted_message :=
  match get_user_public_key (w_db w) (sender_username msg) with
  | None => []
  | Some sender_public_key_str =>
      if negb (truthy sender_public_key_str) then []
      else
        match open_with_current self sender_public_key_str (ciphertext msg) with
        | Ok decrypted => [decrypted_entry msg decrypted]
        | Raise _ =>
            match
              _try_decrypt_with_old_keys w (ciphertext msg)
                sender_public_key_str
            with
            | Some decrypted =>
                if truthy decrypted then [decrypted_entry msg decrypted]
                else []
            | None => []
            end
        end
  end.

Fixpoint receive_loop (self : ChatManager) (w : World)
    (encrypted_messages : list message)
    (decrypted_messages : list decrypted_message) : list decrypted_message :=
  match encrypted_messages with
  | [] => decrypted_messages
  | msg :: rest =>
      receive_loop self w rest (decrypted_messages ++ receive_one self w msg)
  end.

Definition receive_messages (self : ChatManager) (w : World)
    : list decrypted_message :=
  receive_loop self w (get_messages (w_db w) (cm_username self)) [].

(** ** key_rotate.py: [KeyRotationManager] *)

Record KeyRotationManager := {
  krm_username : string;
}.

Definition KeyRotationManager_init : M KeyRotationManager :=
  (ud <- gets w_user_data;;
   ret {| krm_username := username ud |})%M.

Definition set_identity_keys (private public : string) : M unit :=
  (ud <- gets w_user_data;;
   set_user_data {| username := username ud;
                    identity_public_key := public;
                    identity_private_key := private;
                    db_profiles := db_profiles ud |})%M.

Definition rotate_key (self : KeyRotationManager) : M bool :=
  try_except
    (supabase_url <- gets w_env_url;;
     ud <- gets w_user_data;;
     match db_profiles ud !! supabase_url with
     | None => ret false
     | Some db_profile =>
         let retired :=
           match current_keypair db_profile with
           | Some current => Some (default [] (old_keys db_profile) ++ [current])
           | None => old_keys db_profile
           end in
         set_db_profile supabase_url
           {| current_keypair := current_keypair db_profile;
              old_keys := retired |};;;
         kp <- fresh_keypair;;
         set_db_profile supabase_url
           {| current_keypair := Some kp; old_keys := retired |};;;
         new_private_key <- PrivateKey_generate;;
         let new_public_key := crypto_scalarmult_base new_private_key in
         set_identity_keys (b64encode new_private_key) (b64encode new_public_key);;;
         ud <- gets w_user_data;;
         success <- update_public_key (krm_username self) (identity_public_key ud);;
         if negb success then ret false
         else
           password <- gets w_password;;
           ud <- gets w_user_data;;
           json_data <- lift (or_raise UnicodeEncodeError
                                (utf8_encode (json_dumps ud)));;
           encrypted_data <- encrypt_data json_data password;;
           set_profile_file encrypted_data;;;
           ret true
     end)%M
    (λ _, ret false).

(** [s.split(' ')[0]]: the text before the first space, all of [s] when it
    has none. *)
Fixpoint split_space_0 (s : string) : string :=
  match s with
  | EmptyString => EmptyString
  | String c rest =>
      if Ascii.eqb c " "%char then EmptyString
      else String c (split_space_0 rest)
  end.

Definition check_key_rotation_needed (w : World) : bool :=
  match db_profiles (w_user_data w) !! w_env_url w with
  | None => false
  | Some db_profile =>
      match current_keypair db_profile with
      | None => true
      | Some current =>
          let created_at := created_at current in
          let current_time := w_now w in
          let day_ago := split_space_0 current_time in
          let created_date := split_space_0 created_at in
          negb (String.eqb created_date day_ago)
      end
  end.

End Model.

#[global] Arguments derive_key : simpl never.
#[global] Arguments encrypt_data : simpl never.
#[global] Arguments decrypt_data : simpl never.
#[global] Arguments fresh_keypair : simpl never.
#[global] Arguments db_send_message : simpl never.
#[global] Arguments update_public_key : simpl never.
#[global] Arguments _initialize_chat_keypair : simpl never.
#[global] Arguments send_message : simpl never.
#[global] Arguments receive_one : simpl never.
#[global] Arguments rotate_key : simpl never.

(** ** login.py: [LoginManager]

    [json.loads] gives the user record a text describes, another JSON value
    ([OtherJson]), or raises [JSONDecodeError], a [ValueError] ([None]). *)

Inductive json_value :=
| UserData (ud : user_data)
| OtherJson.

Class JsonLoads := {
  json_loads : string → option json_value;
}.

Section Login.
Context `{!Codec, !Argon2, !AesGcm, !NaCl, !Json, !JsonLoads}.

Definition _save_user_profile (ud : user_data) (password : string) : M unit :=
  (json_data <- lift (or_raise UnicodeEncodeError
                        (utf8_encode (json_dumps ud)));;
   encrypted_data <- encrypt_data json_data password;;
   set_profile_file encrypted_data)%M.

Definition register_user (username password : string)
    : M (option user_data) :=
  try_except
    (identity_private_key <- PrivateKey_generate;;
     let identity_public_key := crypto_scalarmult_base identity_private_key in
     let ud := {| username := username;
                  identity_public_key := b64encode identity_public_key;
                  identity_private_key := b64encode identity_private_key;
                  db_profiles := ∅ |} in
     _save_user_profile ud password;;;
     ret (Some ud))%M
    (λ _, ret None).

(** The inner [try] of [login_user] and of [get_user_data]:
    [json.loads(decrypt_data(encrypted_data, password).decode('utf-8'))]. *)
Definition load_user_profile (encrypted_data : bytes) (password : string)
    : result json_value :=
  decrypted_data ← decrypt_data encrypted_data password;
  text ← or_raise UnicodeDecodeError (utf8_decode decrypted_data);
  or_raise ValueError (json_loads text).

Definition login_user (password : string) (w : World) : option json_value :=
  match w_profile_file w with
  | None => None
  | Some encrypted_data =>
      match load_user_profile encrypted_data password with
      | Ok ud => Some ud
      | Raise _ => None
      end
  end.

Definition get_user_data (w : World) : option json_value :=
  match w_profile_file w with
  | None => None
  | Some encrypted_data =>
      let password := w_password w in
      match load_user_profile encrypted_data password with
      | Ok ud => Some ud
      | Raise _ => None
      end
  end.

Definition update_user_data (ud : user_data) (password : option string)
    : M bool :=
  try_except
    (password <- match password with
                 | None => gets w_password
                 | Some password => ret password
                 end;;
     _save_user_profile ud password;;;
     ret true)%M
    (λ _, ret false).

End Login.

#[global] Arguments _save_user_profile : simpl never.
#[global] Arguments register_user : simpl never.
#[global] Arguments update_user_data : simpl never.

(** ** db_connect.py: [_register_user_key] *)

Record DatabaseManager := {
  dbm_username : string;
}.

(** The row of [self.username] is updated when the [select] finds one and
    inserted otherwise; a request that raises is caught and printed. *)
Definition _register_user_key (self : DatabaseManager) : M unit :=
  (d <- gets w_db;;
   if reachable d then
     ud <- gets w_user_data;;
     let public_key := identity_public_key ud in
     now <- get_timestamp;;
     match users_public_keys d !! dbm_username self with
     | Some _ =>
         set_db {| reachable := reachable d;
                   users_public_keys :=
                     <[dbm_username self := (public_key, now)]>
                       (users_public_keys d);
                   message_log := message_log d |}
     | None =>
         set_db {| reachable := reachable d;
                   users_public_keys :=
                     <[dbm_username self := (public_key, now)]>
                       (users_public_keys d);
                   message_log := message_log d |}
     end
   else ret ())%M.

(** ** Sorting and slicing as [get_chat_history] and [get_chat_messages]
    do *)

(** [l.sort(key=...)] on string keys: Python's sort is stable and compares
    with [<] only, which on the ASCII timestamps of the repository is
    [String.ltb]. An element is put before the first one of the sorted
    rest whose key is not smaller than its own. *)
Fixpoint insert_by_key {A} (key : A → string) (x : A) (l : list A) : list A :=
  match l with
  | [] => [x]
  | y :: l' =>
      if String.ltb (key y) (key x) then y :: insert_by_key key x l'
      else x :: y :: l'
  end.

Definition sort_by_key {A} (key : A → string) (l : list A) : list A :=
  foldr (insert_by_key key) [] l.

(** [l[start:]] for any integer [start]: a negative one counts from the
    end, and both ends are clamped. *)
Definition slice_from {A} (start : Z) (l : list A) : list A :=
  if (start <? 0)%Z then drop (Z.to_nat (Z.of_nat (length l) + start)) l
  else drop (Z.to_nat start) l.

(** [l[-limit:] if len(l) > limit else l]. *)
Definition last_limit {A} (limit : Z) (l : list A) : list A :=
  if (limit <? Z.of_nat (length l))%Z then slice_from (- limit) l else l.

(** ** chat.py: [get_chat_history] *)

Record history_entry := {
  he_sender_username : string;
  he_recipient_username : string;
  he_content : string;
  he_timestamp : string;
  he_message_type : string;
}.

Section History.
Context `{!Codec, !NaCl}.

(** The body of the loop over [received_messages]: what it appends to
    [decrypted_received]. Any exception is printed and the message
    dropped; the old keys are not tried. *)
Definition history_one (self : ChatManager) (d : database) (msg : message)
    : list history_entry :=
  match get_user_public_key d (sender_username msg) with
  | None => []
  | Some sender_public_key_str =>
      if truthy sender_public_key_str then
        match open_with_current self sender_public_key_str (ciphertext msg) with
        | Ok decrypted =>
            [{| he_sender_username := sender_username msg;
                he_recipient_username := recipient_username msg;
                he_content := decrypted;
                he_timestamp := timestamp msg;
                he_message_type := "received" |}]
        | Raise _ => []
        end
      else []
  end.

Fixpoint history_loop (self : ChatManager) (d : database)
    (received_messages : list message) (decrypted_received : list history_entry)
    : list history_entry :=
  match received_messages with
  | [] => decrypted_received
  | msg :: rest =>
      history_loop self d rest (decrypted_received ++ history_one self d msg)
  end.

(** [get_chat_history] from the two answers of
    [get_messages_between_users] on: [sent_messages] is fetched and not
    used. *)
Definition get_chat_history (self : ChatManager) (d : database)
    (sent_messages received_messages : list message) (limit : Z)
    : list history_entry :=
  let decrypted_received := history_loop self d received_messages [] in
  let all_messages := foldl (λ acc msg, acc ++ [msg]) [] decrypted_received in
  let all_messages := sort_by_key he_timestamp all_messages in
  last_limit limit all_messages.

End History.

(** ** message_storage.py: [MessageStorage] *)

Record stored_message := {
  sm_sender : string;
  sm_recipient : string;
  sm_content : string;
  sm_type : string;
  sm_timestamp : string;
  sm_id : Z;
  sm_encrypted_with : string;
}.

(** What [json.loads] makes of a stored text: the list of message dicts
    this class writes, or some other JSON value. *)
Inductive loaded_messages :=
| MessageList (messages : list stored_message)
| OtherJsonValue.

(** [json.dumps(messages, indent=2, ensure_ascii=False)] and [json.loads]
    ([None] where it raises). *)
Class JsonMessages := {
  json_dumps_messages : list stored_message → string;
  json_loads_messages : string → option loaded_messages;
}.

(** A store whose [self.messages] is a list of message dicts. [ms_stored]
    is the content of the file [self.storage_file] names, [None] when there
    is no such file. *)
Record MessageStorage := {
  ms_username : string;
  ms_password : string;
  ms_messages : list stored_message;
  ms_stored : option bytes;
}.

Section Storage.
Context `{!Codec, !Argon2, !AesGcm, !JsonMessages}.

(** Whatever [json.loads] returns is returned, list or not. *)
Definition _load_messages (password : string) (stored : option bytes)
    : loaded_messages :=
  match stored with
  | None => MessageList []
  | Some encrypted_data =>
      match
        decrypted_data ← decrypt_data encrypted_data password;
        text ← or_raise UnicodeDecodeError (utf8_decode decrypted_data);
        or_raise ValueError (json_loads_messages text)
      with
      | Ok messages => messages
      | Raise _ => MessageList []
      end
  end.

(** [MessageStorage(username, password)]. The methods are modelled on a
    list of message dicts: where the file held another JSON value, which
    [__init__] keeps as [self.messages], there is no store here. *)
Definition MessageStorage_init (username password : string)
    (stored : option bytes) : option MessageStorage :=
  match _load_messages password stored with
  | MessageList messages =>
      Some {| ms_username := username;
              ms_password := password;
              ms_messages := messages;
              ms_stored := stored |}
  | OtherJsonValue => None
  end.

(** [open(self.storage_file, 'wb')] followed by [write] is taken to
    succeed, as for the profile file: nothing is stated about the file
    after a write that fails. *)
Definition _save_messages (self : MessageStorage) : M (bool * MessageStorage) :=
  try_except
    (json_data <- lift (or_raise UnicodeEncodeError
                          (utf8_encode (json_dumps_messages (ms_messages self))));;
     encrypted_data <- encrypt_data json_data (ms_password self);;
     ret (true, {| ms_username := ms_username self;
                   ms_password := ms_password self;
                   ms_messages := ms_messages self;
                   ms_stored := Some encrypted_data |}))%M
    (λ _, ret (false, self)).

(** [id] is [int(time.time() * 1000000)], the clock in microseconds. *)
Definition add_message (self : MessageStorage)
    (sender recipient content message_type : string) (id : Z)
    : M (bool * MessageStorage) :=
  (now <- get_timestamp;;
   let message := {| sm_sender := sender;
                     sm_recipient := recipient;
                     sm_content := content;
                     sm_type := message_type;
                     sm_timestamp := now;
                     sm_id := id;
                     sm_encrypted_with := "FlightCode_V2" |} in
   _save_messages {| ms_username := ms_username self;
                     ms_password := ms_password self;
                     ms_messages := ms_messages self ++ [message];
                     ms_stored := ms_stored self |})%M.

Definition get_chat_messages (self : MessageStorage)
    (partner_username : string) (limit : Z) : list stored_message :=
  let chat_messages :=
    filter (λ msg,
      (sm_sender msg = ms_username self ∧ sm_recipient msg = partner_username)
      ∨ (sm_sender msg = partner_username ∧ sm_recipient msg = ms_username self))
      (ms_messages self) in
  let chat_messages := sort_by_key sm_timestamp chat_messages in
  last_limit limit chat_messages.

End Storage.

#[global] Arguments _save_messages : simpl never.
#[global] Arguments add_message : simpl never.

(** ** flightcodev2CLI.py: the output paths of [encrypt_file],
    [decrypt_file] and [main] *)

Definition FILE_EXTENSION : string := ".hee".

(** [s.endswith(suffix)]. *)
Definition endswith (s suffix : string) : bool :=
  bool_decide (String.length suffix ≤ String.length s
               ∧ substring (String.length s - String.length suffix)
                   (String.length suffix) s = suffix).

(** [str.isspace] on one character. A [string] holds the code points of the
    text, each below 256, and the whitespace among these is U+0009 to
    U+000D, U+001C to U+0020, U+0085 and U+00A0. *)
Definition isspace (c : ascii) : bool :=
  let n := N_of_ascii c in
  ((9 <=? n) && (n <=? 13) || (28 <=? n) && (n <=? 32)
   || (n =? 133) || (n =? 160))%N.

Fixpoint lstrip (s : string) : string :=
  match s with
  | EmptyString => EmptyString
  | String c rest => if isspace c then lstrip rest else s
  end.

Fixpoint rstrip (s : string) : string :=
  match s with
  | EmptyString => EmptyString
  | String c rest =>
      match rstrip rest with
      | EmptyString => if isspace c then EmptyString else String c EmptyString
      | kept => String c kept
      end
  end.

(** [s.strip()]. *)
Definition strip (s : string) : string := rstrip (lstrip s).

(** The path the [encrypt] command of [main] writes to: [args.output], or
    [f"{args.file}{FILE_EXTENSION}"] when that is [None] or empty (both are
    falsy, and [output_path] is empty here for both). *)
Definition encrypt_output_path (file_path output_path : string) : string :=
  let default_output := file_path +:+ FILE_EXTENSION in
  if truthy output_path then output_path else default_output.

(** The path the [decrypt] command of [main] writes to;
    [file_path[:-len(FILE_EXTENSION)]] is the text without its last four
    characters. *)
Definition decrypt_output_path (file_path output_path : string) : string :=
  let default_output :=
    if endswith file_path FILE_EXTENSION then
      substring 0 (String.length file_path - String.length FILE_EXTENSION)
        file_path
    else file_path +:+ ".decrypted" in
  if truthy output_path then output_path else default_output.

(** The paths [encrypt_file] and [decrypt_file] write to: the same choice,
    made on [input(...).strip()] of the line entered at the prompt. *)
Definition encrypt_file_output_path (file_path entered : string) : string :=
  encrypt_output_path file_path (strip entered).

Definition decrypt_file_output_path (file_path entered : string) : string :=
  decrypt_output_path file_path (strip entered).

(** ** main.py: [get_new_messages] of [chat_interface]

    [displayed_message_ids] is the set [chat_interface] creates empty when
    the chat is opened; [message_storage] is the attribute of the
    application, [None] when there is no password; [time_time] holds the
    readings of [int(time.time() * 1000000)] to come, one for every
    [add_message]. *)

Record shown_message := {
  shown_sender : string;
  shown_content : string;
  shown_timestamp : string;
  shown_type : string;
  shown_id : string;
}.

Record chat_state := {
  displayed_message_ids : gset string;
  message_storage : option MessageStorage;
  time_time : nat → Z;
}.

(** [f"db_{msg['sender_username']}_{msg['timestamp']}"]. *)
Definition message_id (msg : decrypted_message) : string :=
  "db_" +:+ dm_sender_username msg +:+ "_" +:+ dm_timestamp msg.

Definition shown (msg : decrypted_message) : shown_message :=
  {| shown_sender := dm_sender_username msg;
     shown_content := dm_decrypted_content msg;
     shown_timestamp := dm_timestamp msg;
     shown_type := "received";
     shown_id := message_id msg |}.

Section ChatInterface.
Context `{!Codec, !Argon2, !AesGcm, !NaCl, !JsonMessages}.

(** The loop over [partner_messages]. The value [add_message] returns is
    not looked at. *)
Fixpoint new_messages_loop (partner_messages : list decrypted_message)
    (st : chat_state) (new_messages : list shown_message)
    : M (chat_state * list shown_message) :=
  match partner_messages with
  | [] => ret (st, new_messages)
  | msg :: rest =>
      let msg_id := message_id msg in
      if bool_decide (msg_id ∈ displayed_message_ids st) then
        new_messages_loop rest st new_messages
      else
        (st <- match message_storage st with
               | Some storage =>
                   ud <- gets w_user_data;;
                   saved <- add_message storage (dm_sender_username msg)
                              (username ud) (dm_decrypted_content msg)
                              "received" (time_time st 0);;
                   ret {| displayed_message_ids := displayed_message_ids st;
                          message_storage := Some saved.2;
                          time_time := λ i, time_time st (S i) |}
               | None => ret st
               end;;
         new_messages_loop rest
           {| displayed_message_ids := {[msg_id]} ∪ displayed_message_ids st;
              message_storage := message_storage st;
              time_time := time_time st |}
           (new_messages ++ [shown msg]))%M
  end.

(** One call of the closure, run from its first line to its [return]
    without another call of it in between. ([chat_interface] calls it from
    the polling thread and from the input loop, on one set and with no
    lock; what two calls do when they overlap is not modelled.) Nothing in
    the body raises: [receive_messages] and [add_message] handle their own
    exceptions. *)
Definition get_new_messages (self : ChatManager) (partner_username : string)
    (st : chat_state) : M (chat_state * list shown_message) :=
  (w <- gets (λ w, w);;
   let db_messages := receive_messages self w in
   let partner_messages :=
     filter (λ msg, dm_sender_username msg = partner_username) db_messages in
   new_messages_loop partner_messages st [])%M.

End ChatInterface.

(** What [rotate_key] leaves as [old_keys]: the current keypair, when there
    is one, appended to the old keys. *)
Definition retire (profile : db_profile) : option (list keypair) :=
  match current_keypair profile with
  | Some current => Some (default [] (old_keys profile) ++ [current])
  | None => old_keys profile
  end.

(** ** Auxiliary notions of the properties *)

(** The world after [n] bytes of entropy were drawn. *)
Definition drawn (n : nat) (w : World) : World :=
  {| w_rng := λ i, w_rng w (n + i); w_now := w_now w;
     w_now_iso := w_now_iso w; w_env_url := w_env_url w;
     w_password := w_password w; w_user_data := w_user_data w;
     w_db := w_db w; w_profile_file := w_profile_file w |}.

(** The record [rotate_key] leaves in memory: the keypair of the profile
    from the next 32 bytes of entropy, the identity key from the 32 bytes
    after them. *)
Definition rotated `{!Codec, !NaCl} (w : World) (profile : db_profile)
    : user_data :=
  let sk := w_rng w <$> seq 0 32 in
  let identity_sk := (λ i, w_rng w (32 + i)) <$> seq 0 32 in
  {| username := username (w_user_data w);
     identity_public_key := b64encode (crypto_scalarmult_base identity_sk);
     identity_private_key := b64encode identity_sk;
     db_profiles :=
       <[w_env_url w :=
           {| current_keypair :=
                Some {| private_key := b64encode sk;
                        public_key := b64encode (crypto_scalarmult_base sk);
                        created_at := w_now w |};
              old_keys := retire profile |}]> (db_profiles (w_user_data w)) |}.

(** The order a sort by [key] leaves between neighbours. *)
Definition key_le {A} (key : A → string) (a b : A) : Prop :=
  String.leb (key a) (key b) = true.

(** The entries [get_new_messages] takes from a batch: the first of each
    identifier that was not displayed yet. *)
Fixpoint unseen (displayed : gset string) (batch : list decrypted_message)
    : list decrypted_message :=
  match batch with
  | [] => []
  | msg :: rest =>
      if bool_decide (message_id msg ∈ displayed) then unseen displayed rest
      else msg :: unseen ({[message_id msg]} ∪ displayed) rest
  end.

(** A stored message without its [id]. *)
Definition stored_fields (m : stored_message)
    : string * string * string * string * string * string :=
  (sm_sender m, sm_recipient m, sm_content m, sm_type m, sm_timestamp m,
   sm_encrypted_with m).

(** ** The container format as the specification words it

    Section 6 of the specification gives the byte format as
    [salt:16B || nonce:12B || tag:16B || assoc_len:2B(BE) ||
    associated_data:assoc_len B || ciphertext:remaining], and section 3
    lists the same five attributes. [container_bytes] writes that sentence
    down; the theorems compare it with what [encrypt_data] (from the
    source) returns and with what [decrypt_data] (from the source) reads. *)

Record Container := {
  c_salt : bytes;
  c_nonce : bytes;
  c_authentication_tag : bytes;
  c_associated_data : bytes;
  c_ciphertext : bytes;
}.

Definition be16 (n : N) : bytes :=
  [byte_of_N (n / 256); byte_of_N (n mod 256)].

Definition container_bytes (c : Container) : bytes :=
  c_salt c ++ c_nonce c ++ c_authentication_tag c
  ++ be16 (N.of_nat (length (c_associated_data c)))
  ++ c_associated_data c ++ c_ciphertext c.

Definition well_formed (c : Container) : Prop :=
  length (c_salt c) = 16 ∧ length (c_nonce c) = 12
  ∧ length (c_authentication_tag c) = 16
  ∧ (N.of_nat (length (c_associated_data c)) < 65536)%N.

(** The associated data of a container written at clock reading [now_iso],
    for a codec that leaves ASCII text as it is. *)
Definition metadata_of (now_iso : string) : bytes :=
  list_byte_of_string ("FlightCode v" +:+ APP_VERSION +:+ " - " +:+ now_iso).

(** The container [encrypt_data] is expected to assemble from the
    plaintext, the encoded password and metadata, and the next 28 bytes of
    entropy (16 of salt, then 12 of nonce). *)
Definition sealed_container `{!Argon2, !AesGcm}
    (data secret metadata : bytes) (rng : nat → byte) : Container :=
  let salt := rng <$> seq 0 16 in
  let nonce := (λ i, rng (16 + i)) <$> seq 0 12 in
  let key :=
    hash_secret_raw secret salt TIME_COST MEMORY_COST PARALLELISM KEY_SIZE in
  {| c_salt := salt;
     c_nonce := nonce;
     c_authentication_tag := (gcm_encrypt key nonce metadata data).2;
     c_associated_data := metadata;
     c_ciphertext := (gcm_encrypt key nonce metadata data).1 |}.

(** ** Rejection of every wrong password and every alteration

    Claim C5 takes two cases to be cases of a tag that does not verify: every
    decryption of a container of [encrypt_data] under another password, and
    every alteration of the ciphertext, the tag or the associated data. The
    two definitions write these sentences down, to be compared with what
    [decrypt_data] does. *)

Section Rejection.
Context `{!Codec, !Argon2, !AesGcm}.

Definition wrong_password_rejected : Prop :=
  ∀ data w1 w2 (st : World) encrypted_data,
    (encrypt_data data w1 st).1 = Ok encrypted_data →
    w2 ≠ w1 →
    decrypt_data encrypted_data w2 = Raise InvalidTag.

(** An altered container keeps the salt and the nonce and is still in the
    spec's layout; the tag, the associated data or the ciphertext differ. *)
Definition alteration_rejected : Prop :=
  ∀ data password (st : World) c c',
    (encrypt_data data password st).1 = Ok (container_bytes c) →
    well_formed c → well_formed c' →
    c_salt c' = c_salt c → c_nonce c' = c_nonce c →
    container_bytes c' ≠ container_bytes c →
    decrypt_data (container_bytes c') password = Raise InvalidTag.

End Rejection.

(** The bytes as a finite type (there are 256), and passwords of binary
    digits, one per bit: what counting passwords against keys needs. *)
#[global] Instance byte_finite : Finite byte.
Proof.
  refine {| enum := (λ n, byte_of_N (N.of_nat n)) <$> seq 0 256 |}.
  - abstract (apply (bool_decide_unpack _); by vm_compute).
  - abstract (intros b; apply (bool_decide_unpack _); destruct b; by vm_compute).
Defined.

Definition bit_digit (b : bool) : ascii := if b then "1"%char else "0"%char.

Definition bits_password (bits : list bool) : string :=
  string_of_list_ascii (bit_digit <$> bits).

(** ** Reference instances of the interfaces

    Small executable stand-ins: enough structure to satisfy the laws above
    and to run the model on concrete inputs. A box key is shared by
    byte-wise addition, a tag or MAC is a 16-byte digest of what it
    covers. *)

Module Toy.

Definition byte_add (a b : byte) : byte :=
  byte_of_N (Byte.to_N a + Byte.to_N b).

(** A 16-byte rolling checksum over the parts and their lengths. *)
Fixpoint mix (acc : bytes) (l : bytes) : bytes :=
  match l with
  | [] => acc
  | b :: l' =>
      match acc with
      | [] => mix acc l'
      | a :: rest => mix (rest ++ [byte_add a b]) l'
      end
  end.

Definition digest (parts : list bytes) : bytes :=
  mix (replicate 16 x00)
    (concat ((λ p, byte_of_N (N.of_nat (length p)) :: p) <$> parts)).

Definition codec : Codec := {|
  utf8_encode s := Some (list_byte_of_string s);
  utf8_decode b := Some (string_of_list_byte b);
  b64encode b := string_of_list_byte b;
  b64decode s := Some (list_byte_of_string s);
|}.

Definition argon2 : Argon2 := {|
  hash_secret_raw secret salt _ _ _ len :=
    take len (secret ++ salt ++ replicate len x00);
|}.

Definition aes_gcm : AesGcm := {|
  gcm_encrypt key nonce aad data :=
    (reverse data, digest [key; nonce; aad; reverse data]);
  gcm_decrypt key nonce tag aad ciphertext :=
    if bool_decide (tag = digest [key; nonce; aad; ciphertext])
    then Some (reverse ciphertext) else None;
|}.

Definition shared_key (private_key public_key : bytes) : bytes :=
  zip_with byte_add private_key (reverse public_key).

Definition nacl : NaCl := {|
  crypto_scalarmult_base sk := reverse sk;
  Box sk pk := Some (shared_key sk pk);
  Box_encrypt box plaintext nonce :=
    if bool_decide (length nonce = 24)
    then Some (nonce ++ digest [box; nonce; plaintext] ++ plaintext)
    else None;
  Box_decrypt box encrypted :=
    let nonce := take 24 encrypted in
    let mac := take 16 (drop 24 encrypted) in
    let body := drop 40 encrypted in
    if bool_decide (length nonce = 24 ∧ mac = digest [box; nonce; body])
    then Some body else None;
|}.

Definition json : Json := {|
  json_dumps ud :=
    username ud +:+ identity_public_key ud +:+ identity_private_key ud;
|}.

Lemma mix_length acc l : length (mix acc l) = length acc.
Proof.
  revert acc. induction l as [|b l IH]; intros acc; [done|].
  destruct acc as [|a rest]; simpl; [by rewrite IH|].
  rewrite IH, length_app. simpl. lia.
Qed.

Lemma digest_length parts : length (digest parts) = 16.
Proof. unfold digest. by rewrite mix_length, length_replicate. Qed.

Lemma byte_add_comm a b : byte_add a b = byte_add b a.
Proof. unfold byte_add. by rewrite N.add_comm. Qed.

Lemma shared_key_comm a b :
  shared_key a (reverse b) = shared_key b (reverse a).
Proof.
  unfold shared_key. rewrite !reverse_involutive.
  revert b. induction a as [|x a IH]; intros [|y b]; simpl; try done.
  by rewrite byte_add_comm, IH.
Qed.

Lemma codec_ok : @CodecOk codec.
Proof.
  split; simpl.
  - done.
  - intros s b [= <-]. by rewrite string_of_list_byte_of_string.
  - intros b. by rewrite list_byte_of_string_of_list_byte.
  - done.
Qed.

Lemma argon2_ok : @Argon2Ok argon2.
Proof.
  split; simpl. intros secret salt _ _ _ len _ _.
  rewrite length_take, !length_app, length_replicate. lia.
Qed.

Lemma aes_gcm_ok : @AesGcmOk aes_gcm.
Proof.
  split; simpl; intros key nonce aad data _ _.
  - apply digest_length.
  - rewrite bool_decide_eq_true_2 by done. by rewrite reverse_involutive.
Qed.

Lemma nacl_ok : @NaClOk nacl.
Proof.
  split; simpl.
  - intros sk Hsk. by rewrite length_reverse.
  - intros a b _ _. eexists _, _. split; [done|]. split; [done|].
    intros plaintext nonce Hn.
    rewrite bool_decide_eq_true_2 by done. eexists. split; [done|].
    rewrite take_app_length' by done.
    replace 40 with (24 + 16) by done. rewrite <- drop_drop.
    rewrite drop_app_length' by done.
    rewrite take_app_length' by (by rewrite digest_length).
    rewrite drop_app_length' by (by rewrite digest_length).
    rewrite bool_decide_eq_true_2; [done|].
    split; [done|]. by rewrite shared_key_comm.
Qed.

End Toy.

(** ** A concrete run

    Two principals on one relay, with the reference instances: alice's
    record as registration and the first connection leave it (identity
    keys, a profile for the database with no keypair yet), bob sealing
    "hello" for alice, alice rotating, and alice's next session. *)

Module Scenario.
Import Toy.
#[local] Existing Instances codec argon2 aes_gcm nacl json.

Definition tape (seed : nat) : nat → byte :=
  λ i, byte_of_N (N.of_nat (seed + i)).

Definition url : option string := Some "https://urchats.supabase.co".

Definition registered (name : string) (sk : bytes) : user_data :=
  {| username := name;
     identity_public_key := b64encode (crypto_scalarmult_base sk);
     identity_private_key := b64encode sk;
     db_profiles :=
       {[ url := {| current_keypair := None; old_keys := Some [] |} ]} |}.

Definition alice_sk : bytes := tape 40 <$> seq 0 32.
Definition bob_sk : bytes := tape 90 <$> seq 0 32.
Definition alice_pub : bytes := crypto_scalarmult_base alice_sk.
Definition bob_pub : bytes := crypto_scalarmult_base bob_sk.

Definition relay0 : database :=
  {| reachable := true;
     users_public_keys :=
       {[ "alice" := (b64encode alice_pub, "2026-11-01 08:00:00");
          "bob" := (b64encode bob_pub, "2026-11-01 08:05:00") ]};
     message_log := [] |}.

Definition session (ud : user_data) (seed : nat) (now : string)
    (d : database) : World :=
  {| w_rng := tape seed;
     w_now := now;
     w_now_iso := "2026-11-02T10:00:00.000001";
     w_env_url := url;
     w_password := "hunter2";
     w_user_data := ud;
     w_db := d;
     w_profile_file := None |}.

Definition no_manager : ChatManager :=
  {| cm_username := ""; cm_identity_private_key := [];
     cm_identity_public_key := [] |}.

Definition manager_of (w : World) : ChatManager :=
  match (ChatManager_init w).1 with
  | Ok self => self
  | Raise _ => no_manager
  end.

(** Alice's first session: her manager mints the keypair of the profile. *)
Definition alice0 : World :=
  session (registered "alice" alice_sk) 7 "2026-11-02 10:00:00" relay0.
Definition alice_cm : ChatManager := manager_of alice0.
Definition alice1 : World := (ChatManager_init alice0).2.

(** Bob seals "hello" for alice's published identity key. *)
Definition bob0 : World :=
  session (registered "bob" bob_sk) 150 "2026-11-02 10:05:00" relay0.
Definition bob_cm : ChatManager := manager_of bob0.
Definition bob1 : World := (ChatManager_init bob0).2.
Definition bob2 : World :=
  (send_message bob_cm "alice" (b64encode alice_pub) "hello" bob1).2.

(** Alice, later the same day, with bob's row on the relay; then she
    rotates. *)
Definition alice2 : World :=
  session (w_user_data alice1) 60 "2026-11-02 10:06:00" (w_db bob2).
Definition alice_krm : KeyRotationManager := {| krm_username := "alice" |}.
Definition alice3 : World := (rotate_key alice_krm alice2).2.

(** Alice's next session, from the record the rotation left. *)
Definition alice4 : World :=
  session (w_user_data alice3) 200 "2026-11-03 10:00:00" (w_db alice3).
Definition alice_cm' : ChatManager := manager_of alice4.
Definition alice5 : World := (ChatManager_init alice4).2.

(** An entropy source that repeats itself: alice logs in and rotates within
    one second, and the rotation mints the keypair it has just retired. *)
Definition stuck_session (ud : user_data) : World :=
  {| w_rng := λ _, "*"%byte;
     w_now := "2026-11-02 10:00:00";
     w_now_iso := "2026-11-02T10:00:00.000001";
     w_env_url := url;
     w_password := "hunter2";
     w_user_data := ud;
     w_db := relay0;
     w_profile_file := None |}.

Definition repeated : keypair :=
  {| private_key := "********************************";
     public_key := "********************************";
     created_at := "2026-11-02 10:00:00" |}.

Definition alice_repeated0 : World :=
  (ChatManager_init (stuck_session (registered "alice" alice_sk))).2.
Definition alice_repeated : World :=
  stuck_session (w_user_data (rotate_key alice_krm alice_repeated0).2).

(** A record with no profile for the current database. *)
Definition alice_no_profile : World :=
  session
    {| username := "alice";
       identity_public_key := b64encode alice_pub;
       identity_private_key := b64encode alice_sk;
       db_profiles := ∅ |}
    7 "2026-11-02 10:00:00" relay0.

(** The keypair alice's first session minted, and her profile before the
    rotation. *)
Definition alice_k1 : keypair :=
  {| private_key := b64encode (tape 7 <$> seq 0 32);
     public_key := b64encode (crypto_scalarmult_base (tape 7 <$> seq 0 32));
     created_at := "2026-11-02 10:00:00" |}.

Definition alice_profile : db_profile :=
  {| current_keypair := Some alice_k1; old_keys := Some [] |}.

(** Bob's row as the relay stores it; his manager had drawn 32 bytes for
    the keypair of his profile before the nonce. *)
Definition hello_row : message :=
  {| sender_username := "bob";
     recipient_username := "alice";
     ciphertext :=
       b64encode (default []
         (Box bob_sk alice_pub ≫= λ box,
          Box_encrypt box (list_byte_of_string "hello")
            (tape 182 <$> seq 0 24)));
     timestamp := "2026-11-02 10:05:00" |}.

(** Bob, the next morning, on the relay as alice's rotation left it. He
    seals the empty message, and then "again", for the public key of the
    keypair alice retired, and the empty message once more for the identity
    key she published. *)
Definition bob3 : World :=
  session (w_user_data bob1) 300 "2026-11-03 09:00:00" (w_db alice3).
Definition bob4 : World :=
  (send_message bob_cm "alice" (public_key alice_k1) "" bob3).2.
Definition bob5 : World :=
  (send_message bob_cm "alice" (public_key alice_k1) "again" bob4).2.
Definition bob6 : World :=
  (send_message bob_cm "alice" (identity_public_key (w_user_data alice3)) ""
     bob5).2.

(** Alice's next session with these rows on the relay; [row i] is the row
    at index [i] of the message log. *)
Definition alice6 : World :=
  session (w_user_data alice3) 200 "2026-11-03 10:00:00" (w_db bob6).
Definition alice_cm2 : ChatManager := manager_of alice6.
Definition alice7 : World := (ChatManager_init alice6).2.
Definition row (i : nat) : message :=
  default hello_row (message_log (w_db alice7) !! i).

(** Two containers written in alice's first session: one of "secret", one
    of the empty plaintext. *)
Definition container0 : bytes :=
  match (encrypt_data (list_byte_of_string "secret") "hunter2" alice0).1 with
  | Ok c => c
  | Raise _ => []
  end.

Definition empty_container : bytes :=
  match (encrypt_data [] "hunter2" alice0).1 with
  | Ok c => c
  | Raise _ => []
  end.

End Scenario.

(** ** A reference serializer

    A length-prefixed text format standing in for JSON: lengths and counts
    in unary, an option as a one-letter tag, a map as the list of its
    entries. [loads] accepts exactly the texts it can read to their end. *)

Module Serial.

Fixpoint put_nat (n : nat) : string :=
  match n with
  | 0 => "0"
  | S n => String "1" (put_nat n)
  end.

Definition put_string (s : string) : string :=
  put_nat (String.length s) +:+ s.

Definition put_option {A} (put : A → string) (o : option A) : string :=
  match o with
  | None => "N"
  | Some a => String "S" (put a)
  end.

Definition put_list {A} (put : A → string) (l : list A) : string :=
  put_nat (length l) +:+ foldr (λ a s, put a +:+ s) "" l.

Definition put_keypair (k : keypair) : string :=
  put_string (private_key k) +:+ put_string (public_key k)
  +:+ put_string (created_at k).

Definition put_profile (p : db_profile) : string :=
  put_option put_keypair (current_keypair p)
  +:+ put_option (put_list put_keypair) (old_keys p).

Definition put_entry (e : option string * db_profile) : string :=
  put_option put_string e.1 +:+ put_profile e.2.

Definition dumps (ud : user_data) : string :=
  put_string (username ud) +:+ put_string (identity_public_key ud)
  +:+ put_string (identity_private_key ud)
  +:+ put_list put_entry (map_to_list (db_profiles ud)).

Definition parser (A : Type) : Type := string → option (A * string).

Fixpoint get_nat (s : string) : option (nat * string) :=
  match s with
  | EmptyString => None
  | String c rest =>
      if Ascii.eqb c "1" then
        '(n, rest') ← get_nat rest; Some (S n, rest')
      else if Ascii.eqb c "0" then Some (0, rest)
      else None
  end.

Fixpoint split_at (n : nat) (s : string) : option (string * string) :=
  match n with
  | 0 => Some ("", s)
  | S n =>
      match s with
      | EmptyString => None
      | String c rest => '(a, b) ← split_at n rest; Some (String c a, b)
      end
  end.

Definition get_string : parser string := λ s,
  '(n, rest) ← get_nat s; split_at n rest.

Definition get_option {A} (get : parser A) : parser (option A) := λ s,
  match s with
  | EmptyString => None
  | String c rest =>
      if Ascii.eqb c "N" then Some (None, rest)
      else if Ascii.eqb c "S" then '(a, rest') ← get rest; Some (Some a, rest')
      else None
  end.

Fixpoint get_many {A} (get : parser A) (n : nat) (s : string)
    : option (list A * string) :=
  match n with
  | 0 => Some ([], s)
  | S n =>
      '(a, rest) ← get s; '(l, rest') ← get_many get n rest;
      Some (a :: l, rest')
  end.

Definition get_list {A} (get : parser A) : parser (list A) := λ s,
  '(n, rest) ← get_nat s; get_many get n rest.

Definition get_keypair : parser keypair := λ s,
  '(private, s) ← get_string s;
  '(public, s) ← get_string s;
  '(created, s) ← get_string s;
  Some ({| private_key := private; public_key := public;
           created_at := created |}, s).

Definition get_profile : parser db_profile := λ s,
  '(current, s) ← get_option get_keypair s;
  '(old, s) ← get_option (get_list get_keypair) s;
  Some ({| current_keypair := current; old_keys := old |}, s).

Definition get_entry : parser (option string * db_profile) := λ s,
  '(url, s) ← get_option get_string s;
  '(profile, s) ← get_profile s;
  Some ((url, profile), s).

Definition get_record : parser user_data := λ s,
  '(name, s) ← get_string s;
  '(public, s) ← get_string s;
  '(private, s) ← get_string s;
  '(entries, s) ← get_list get_entry s;
  Some ({| username := name; identity_public_key := public;
           identity_private_key := private;
           db_profiles := list_to_map entries |}, s).

Definition loads (s : string) : option json_value :=
  match get_record s with
  | Some (ud, EmptyString) => Some (UserData ud)
  | _ => None
  end.

Definition json : Json := {| json_dumps := dumps |}.
Definition loader : JsonLoads := {| json_loads := loads |}.

Definition put_Z (z : Z) : string :=
  (if (z <? 0)%Z then "-" else "+") +:+ put_nat (Z.abs_nat z).

Definition get_Z : parser Z := λ s,
  match s with
  | EmptyString => None
  | String c rest =>
      '(n, rest') ← get_nat rest;
      if Ascii.eqb c "-" then Some ((- Z.of_nat n)%Z, rest')
      else Some (Z.of_nat n, rest')
  end.

Definition put_message (m : stored_message) : string :=
  put_string (sm_sender m) +:+ put_string (sm_recipient m)
  +:+ put_string (sm_content m) +:+ put_string (sm_type m)
  +:+ put_string (sm_timestamp m) +:+ put_Z (sm_id m)
  +:+ put_string (sm_encrypted_with m).

Definition get_message : parser stored_message := λ s,
  '(sender, s) ← get_string s;
  '(recipient, s) ← get_string s;
  '(content, s) ← get_string s;
  '(type, s) ← get_string s;
  '(timestamp, s) ← get_string s;
  '(id, s) ← get_Z s;
  '(encrypted_with, s) ← get_string s;
  Some ({| sm_sender := sender; sm_recipient := recipient;
           sm_content := content; sm_type := type;
           sm_timestamp := timestamp; sm_id := id;
           sm_encrypted_with := encrypted_with |}, s).

Definition json_messages : JsonMessages := {|
  json_dumps_messages := put_list put_message;
  json_loads_messages s :=
    match get_list get_message s with
    | Some (l, EmptyString) => Some (MessageList l)
    | _ => None
    end;
|}.

(** A codec that refuses the byte 255, which no UTF-8 text holds: the
    stand-in for a [str] that [encode] cannot encode. *)
Definition strict_codec : Codec := {|
  utf8_encode s :=
    if bool_decide ("255"%char ∈ list_ascii_of_string s) then None
    else Some (list_byte_of_string s);
  utf8_decode b := Some (string_of_list_byte b);
  b64encode b := string_of_list_byte b;
  b64decode s := Some (list_byte_of_string s);
|}.

End Serial.


(** ** More concrete cases

    Alice with the relay out of reach, alice answering the password prompt
    with a text that cannot be encoded, a user named [system], and alice's
    empty message store. *)

Module Cases.
Import Toy Scenario.
#[local] Existing Instances codec argon2 aes_gcm nacl.

Definition relay_down : database :=
  {| reachable := false;
     users_public_keys := users_public_keys relay0;
     message_log := [] |}.

Definition alice_offline : World :=
  session (w_user_data alice1) 60 "2026-11-02 10:06:00" relay_down.

Definition alice_bad_password : World :=
  {| w_rng := tape 60;
     w_now := "2026-11-02 10:06:00";
     w_now_iso := "2026-11-02T10:06:00.000001";
     w_env_url := url;
     w_password := String "255" "";
     w_user_data := w_user_data alice1;
     w_db := w_db bob2;
     w_profile_file := None |}.

Definition alice_dbm : DatabaseManager := {| dbm_username := "alice" |}.

Definition system_cm : ChatManager :=
  {| cm_username := "system";
     cm_identity_private_key := bob_sk;
     cm_identity_public_key := bob_pub |}.

Definition alice_store : MessageStorage :=
  {| ms_username := "alice"; ms_password := "hunter2";
     ms_messages := []; ms_stored := None |}.

Definition carol : user_data :=
  {| username := "carol";
     identity_public_key :=
       b64encode (crypto_scalarmult_base (tape 7 <$> seq 0 32));
     identity_private_key := b64encode (tape 7 <$> seq 0 32);
     db_profiles := ∅ |}.

End Cases.

(** * Properties *)

(** Unfolding the state monad: [M_simpl] runs a computation symbolically. *)
Create HintDb monad.
#[global] Hint Unfold bind ret raise lift gets try_except set_rng set_db
  set_user_data set_profile_file random get_timestamp : monad.

Ltac M_simpl := repeat (autounfold with monad; simpl).

(** ** Bytes and slices *)

Lemma to_N_byte_of_N n : Byte.to_N (byte_of_N n) = (n mod 256)%N.
Proof.
  unfold byte_of_N.
  destruct (Byte.of_N (n mod 256)) as [b|] eqn:E; simpl.
  - by apply Byte.to_of_N.
  - apply Byte.of_N_None_iff in E.
    pose proof (N.mod_upper_bound n 256). lia.
Qed.

Lemma byte_of_N_mod n : byte_of_N (n mod 256) = byte_of_N n.
Proof. unfold byte_of_N. by rewrite N.Div0.mod_mod. Qed.

Lemma from_bytes_big_be16 n : (n < 65536)%N → from_bytes_big (be16 n) = n.
Proof.
  intros Hn. unfold from_bytes_big, be16. simpl.
  rewrite !to_N_byte_of_N, N.Div0.mod_mod.
  assert (n / 256 < 256)%N by (apply N.Div0.div_lt_upper_bound; lia).
  rewrite (N.mod_small (n / 256)) by done.
  pose proof (N.div_mod n 256). lia.
Qed.

Lemma to_bytes2_big_be16 n : (n < 65536)%N → to_bytes2_big n = Ok (be16 n).
Proof.
  intros Hn. unfold to_bytes2_big, be16.
  rewrite (proj2 (N.ltb_lt _ _) Hn). by rewrite byte_of_N_mod.
Qed.

Lemma or_raise_Ok {A} e (o : option A) a : or_raise e o = Ok a ↔ o = Some a.
Proof. destruct o; simpl; naive_solver. Qed.

Lemma bind_or_raise_Some {A B} e (a : A) (f : A → result B) :
  or_raise e (Some a) ≫= f = f a.
Proof. done. Qed.

Lemma bind_Ok {A B} (a : A) (f : A → result B) : Ok a ≫= f = f a.
Proof. done. Qed.

Lemma list_ascii_of_string_app a b :
  list_ascii_of_string (a +:+ b)
  = list_ascii_of_string a ++ list_ascii_of_string b.
Proof. induction a as [|c a IH]; simpl; [done|]. by rewrite IH. Qed.

Lemma ascii_only_app a b : ascii_only (a +:+ b) = ascii_only a && ascii_only b.
Proof. unfold ascii_only. by rewrite list_ascii_of_string_app, forallb_app. Qed.

Lemma length_list_byte_of_string s :
  length (list_byte_of_string s) = String.length s.
Proof.
  unfold list_byte_of_string. rewrite length_map.
  induction s as [|c s IH]; simpl; [done|]. by rewrite IH.
Qed.

Lemma String_length_app a b :
  String.length (a +:+ b) = String.length a + String.length b.
Proof. induction a as [|c a IH]; simpl; [done|]. by rewrite IH. Qed.

Lemma metadata_of_length now_iso :
  length (metadata_of now_iso) = 18 + String.length now_iso.
Proof.
  unfold metadata_of.
  by rewrite length_list_byte_of_string, !String_length_app.
Qed.

Lemma slice_app_l {A} (l k : list A) (n : nat) :
  n = length l → slice 0 n (l ++ k) = l.
Proof. intros ->. unfold slice. rewrite drop_0, Nat.sub_0_r. apply take_app_length. Qed.

Lemma slice_app_r {A} (l k : list A) (lo hi : nat) :
  lo = length l → slice lo hi (l ++ k) = slice 0 (hi - lo) k.
Proof.
  intros ->. unfold slice. by rewrite drop_app_length, drop_0, Nat.sub_0_r.
Qed.

Lemma drop_app_r {A} (l k : list A) (n : nat) :
  length l ≤ n → drop n (l ++ k) = drop (n - length l) k.
Proof. intros Hn. rewrite drop_app, drop_ge by done. done. Qed.

(** ** The container codec *)

Section ContainerCodec.
Context `{!Codec, !Argon2, !AesGcm}.

Lemma container_bytes_length c :
  well_formed c →
  length (container_bytes c)
  = 46 + length (c_associated_data c) + length (c_ciphertext c).
Proof.
  intros (Hs & Hn & Ht & _). unfold container_bytes, be16.
  rewrite !length_app, Hs, Hn, Ht. simpl. lia.
Qed.

(** The six fields sit at the offsets [decrypt_data] slices at. *)
Lemma container_bytes_offsets c :
  well_formed c →
  let b := container_bytes c in
  let n := length (c_associated_data c) in
  slice 0 16 b = c_salt c
  ∧ slice 16 28 b = c_nonce c
  ∧ slice 28 44 b = c_authentication_tag c
  ∧ from_bytes_big (slice 44 46 b) = N.of_nat n
  ∧ slice 46 (46 + n) b = c_associated_data c
  ∧ drop (46 + n) b = c_ciphertext c.
Proof.
  intros (Hs & Hn & Ht & Hlen). simpl. unfold container_bytes.
  set (rest3 := be16 _ ++ _).
  set (rest2 := c_authentication_tag c ++ rest3).
  set (rest1 := c_nonce c ++ rest2).
  assert (H16 : slice 0 16 (c_salt c ++ rest1) = c_salt c)
    by by apply slice_app_l.
  assert (H28 : slice 16 28 (c_salt c ++ rest1) = c_nonce c).
  { rewrite slice_app_r by done. simpl. by apply slice_app_l. }
  assert (H44 : slice 28 44 (c_salt c ++ rest1) = c_authentication_tag c).
  { unfold slice. simpl. rewrite drop_app_r by lia. rewrite Hs. simpl.
    unfold rest1. rewrite drop_app_length' by done. by apply take_app_length'. }
  assert (Hrest3 : ∀ k, 44 ≤ k →
            drop k (c_salt c ++ rest1) = drop (k - 44) rest3).
  { intros k Hk. rewrite drop_app_r by lia. rewrite Hs.
    unfold rest1. rewrite drop_app_r by lia. rewrite Hn.
    unfold rest2. rewrite drop_app_r by lia. rewrite Ht.
    f_equal. lia. }
  repeat split; try done.
  - unfold slice. rewrite Hrest3 by lia. simpl.
    by apply from_bytes_big_be16.
  - unfold slice. rewrite Hrest3 by lia. unfold rest3, be16. simpl.
    rewrite Nat.sub_0_r. apply take_app_length.
  - rewrite Hrest3 by lia.
    replace (46 + length (c_associated_data c) - 44)
      with (S (S (length (c_associated_data c)))) by lia.
    unfold rest3, be16. simpl. apply drop_app_length.
Qed.

(** On the spec's layout [decrypt_data] derives the key from the salt field
    and runs GCM on exactly the nonce, tag, associated data and ciphertext
    fields. *)
Lemma decrypt_data_container c password :
  well_formed c →
  decrypt_data (container_bytes c) password
  = (key ← derive_key password (c_salt c) KEY_SIZE;
     or_raise InvalidTag
       (gcm_decrypt key (c_nonce c) (c_authentication_tag c)
          (c_associated_data c) (c_ciphertext c))).
Proof.
  intros Hwf.
  destruct (container_bytes_offsets c Hwf) as (E1 & E2 & E3 & E4 & E5 & E6).
  unfold decrypt_data.
  rewrite bool_decide_eq_false_2
    by (rewrite container_bytes_length by done;
        unfold SALT_SIZE, NONCE_SIZE, TAG_SIZE; lia).
  change (SALT_SIZE + NONCE_SIZE + TAG_SIZE + 2) with 46.
  change (SALT_SIZE + NONCE_SIZE + TAG_SIZE) with 44.
  change (SALT_SIZE + NONCE_SIZE) with 28.
  change SALT_SIZE with 16.
  rewrite E1, E2, E3, E4, Nat2N.id, E5, E6. done.
Qed.

(** Below 46 bytes nothing is sliced, derived or decrypted. *)
Lemma decrypt_data_short encrypted_data password :
  length encrypted_data < 46 →
  decrypt_data encrypted_data password = Raise ValueError.
Proof.
  intros Hlen. unfold decrypt_data.
  by rewrite bool_decide_eq_true_2.
Qed.

(** From 46 bytes on the outcome is that of key derivation and of GCM on the
    (clamped) slices: [ValueError] is no longer possible. *)
Lemma decrypt_data_long encrypted_data password :
  46 ≤ length encrypted_data →
  let n := N.to_nat (from_bytes_big (slice 44 46 encrypted_data)) in
  decrypt_data encrypted_data password
  = (secret ← or_raise UnicodeEncodeError (utf8_encode password);
     or_raise InvalidTag
       (gcm_decrypt
          (hash_secret_raw secret (slice 0 16 encrypted_data)
             TIME_COST MEMORY_COST PARALLELISM KEY_SIZE)
          (slice 16 28 encrypted_data) (slice 28 44 encrypted_data)
          (slice 46 (46 + n) encrypted_data) (drop (46 + n) encrypted_data))).
Proof.
  intros Hlen. unfold decrypt_data.
  rewrite bool_decide_eq_false_2
    by (unfold SALT_SIZE, NONCE_SIZE, TAG_SIZE; lia).
  unfold derive_key. rewrite bool_decide_eq_true_2 by set_solver.
  simpl. by destruct (utf8_encode password).
Qed.

Lemma encrypt_data_sealed data password st secret metadata :
  utf8_encode password = Some secret →
  utf8_encode ("FlightCode v" +:+ APP_VERSION +:+ " - " +:+ w_now_iso st)
  = Some metadata →
  (N.of_nat (length metadata) < 65536)%N →
  (encrypt_data data password st).1
  = Ok (container_bytes (sealed_container data secret metadata (w_rng st))).
Proof.
  intros Hpw Hmd Hlen.
  unfold encrypt_data, bind, random, gets, set_rng, lift, ret, derive_key.
  simpl.
  rewrite Hpw. simpl. rewrite Hmd. simpl.
  rewrite to_bytes2_big_be16 by done. done.
Qed.

(** An exception of [encrypt_data] has one of three causes. *)
Lemma encrypt_data_raises data password st e :
  (encrypt_data data password st).1 = Raise e →
  utf8_encode password = None
  ∨ utf8_encode ("FlightCode v" +:+ APP_VERSION +:+ " - " +:+ w_now_iso st)
    = None
  ∨ ∃ metadata,
      utf8_encode ("FlightCode v" +:+ APP_VERSION +:+ " - " +:+ w_now_iso st)
      = Some metadata ∧ (65536 ≤ N.of_nat (length metadata))%N.
Proof.
  unfold encrypt_data, bind, random, gets, set_rng, lift, ret, derive_key.
  simpl.
  destruct (utf8_encode password) as [secret|]; simpl; [|by left].
  destruct (utf8_encode _) as [metadata|]; simpl; [|by right; left].
  unfold to_bytes2_big.
  destruct (N.ltb_spec (N.of_nat (length metadata)) 65536); simpl; [done|].
  intros _. right; right. by exists metadata.
Qed.

Section ContainerLaws.
Context `{!Argon2Ok, !AesGcmOk}.

Lemma sealed_container_well_formed data secret metadata rng :
  (N.of_nat (length metadata) < 65536)%N →
  well_formed (sealed_container data secret metadata rng).
Proof.
  intros Hlen. unfold well_formed, sealed_container.
  cbn [c_salt c_nonce c_authentication_tag c_associated_data].
  rewrite !length_fmap, !length_seq. repeat split; try done.
  apply gcm_tag_length.
  - apply hash_secret_raw_length; [|unfold KEY_SIZE; lia].
    rewrite length_fmap, length_seq. lia.
  - by rewrite length_fmap, length_seq.
Qed.

Context `{!CodecOk}.

Lemma metadata_of_encode now_iso :
  ascii_only now_iso = true →
  utf8_encode ("FlightCode v" +:+ APP_VERSION +:+ " - " +:+ now_iso)
  = Some (metadata_of now_iso).
Proof.
  intros Hnow. apply utf8_encode_ascii.
  rewrite !ascii_only_app, Hnow. done.
Qed.

(** C1. Round trip of the container. For every plaintext and every password
    that [str.encode] accepts, at a clock whose [isoformat()] reading is
    ASCII text of at most 32 characters (it has 19 or 26), [encrypt_data]
    returns a container, and [decrypt_data] with the same password returns
    exactly the plaintext. *)
Theorem decrypt_encrypt_round_trip data password st secret :
  utf8_encode password = Some secret →
  ascii_only (w_now_iso st) = true →
  String.length (w_now_iso st) ≤ 32 →
  ∃ encrypted_data,
    (encrypt_data data password st).1 = Ok encrypted_data
    ∧ decrypt_data encrypted_data password = Ok data.
Proof.
  intros Hpw Hascii Hnow.
  set (metadata := metadata_of (w_now_iso st)).
  assert (Hlen : (N.of_nat (length metadata) < 65536)%N).
  { unfold metadata. rewrite metadata_of_length. lia. }
  exists (container_bytes (sealed_container data secret metadata (w_rng st))).
  split.
  { apply encrypt_data_sealed; [done| |done]. by apply metadata_of_encode. }
  rewrite decrypt_data_container by by apply sealed_container_well_formed.
  unfold derive_key. rewrite bool_decide_eq_true_2 by set_solver.
  rewrite Hpw, bind_or_raise_Some, bind_Ok.
  unfold sealed_container.
  cbn [c_nonce c_authentication_tag c_associated_data c_ciphertext c_salt].
  rewrite gcm_decrypt_encrypt; [done| |].
  - apply hash_secret_raw_length; [|unfold KEY_SIZE; lia].
    rewrite length_fmap, length_seq. lia.
  - by rewrite length_fmap, length_seq.
Qed.

(** C4. Layout of the container: what [encrypt_data] returns is
    salt (16 bytes), nonce (12), tag (16), the length of the associated data
    as two big-endian bytes, the associated data, the ciphertext, in this
    order; the fields sit at offsets 0, 16, 28, 44, 46 and 46 + assoc_len;
    and on any byte string of this layout [decrypt_data] feeds exactly these
    fields to the key derivation and to GCM. *)
Theorem encrypt_data_layout data password st secret :
  utf8_encode password = Some secret →
  ascii_only (w_now_iso st) = true →
  String.length (w_now_iso st) ≤ 32 →
  let metadata := metadata_of (w_now_iso st) in
  let c := sealed_container data secret metadata (w_rng st) in
  let b := container_bytes c in
  (encrypt_data data password st).1 = Ok b
  ∧ b = c_salt c ++ c_nonce c ++ c_authentication_tag c
        ++ be16 (N.of_nat (length metadata)) ++ metadata ++ c_ciphertext c
  ∧ length (c_salt c) = 16 ∧ length (c_nonce c) = 12
  ∧ length (c_authentication_tag c) = 16
  ∧ length (be16 (N.of_nat (length metadata))) = 2
  ∧ from_bytes_big (be16 (N.of_nat (length metadata)))
    = N.of_nat (length metadata)
  ∧ slice 0 16 b = c_salt c
  ∧ slice 16 28 b = c_nonce c
  ∧ slice 28 44 b = c_authentication_tag c
  ∧ slice 44 46 b = be16 (N.of_nat (length metadata))
  ∧ slice 46 (46 + length metadata) b = metadata
  ∧ drop (46 + length metadata) b = c_ciphertext c
  ∧ ∀ c' password',
      well_formed c' →
      decrypt_data (container_bytes c') password'
      = (key ← derive_key password' (c_salt c') KEY_SIZE;
         or_raise InvalidTag
           (gcm_decrypt key (c_nonce c') (c_authentication_tag c')
              (c_associated_data c') (c_ciphertext c'))).
Proof.
  intros Hpw Hascii Hnow metadata c b.
  assert (Hlen : (N.of_nat (length metadata) < 65536)%N).
  { unfold metadata. rewrite metadata_of_length. lia. }
  assert (Hwf : well_formed c) by by apply sealed_container_well_formed.
  destruct (container_bytes_offsets c Hwf) as (E1 & E2 & E3 & _ & E5 & E6).
  destruct Hwf as (Hs & Hn & Ht & _).
  split.
  { apply encrypt_data_sealed; [done| |done]. by apply metadata_of_encode. }
  split; [done|].
  do 3 (split; [done|]).
  split; [done|].
  split; [by apply from_bytes_big_be16|].
  do 3 (split; [done|]).
  split.
  { unfold b, container_bytes, slice.
    rewrite drop_app_r by lia. rewrite Hs.
    rewrite drop_app_r by lia. rewrite Hn.
    rewrite drop_app_r by lia. rewrite Ht. done. }
  do 2 (split; [done|]).
  intros c' password' Hwf'. by apply decrypt_data_container.
Qed.

End ContainerLaws.

(** C3, the first half: below 46 bytes the outcome is [ValueError] whatever
    the password, and nothing was derived or decrypted. The second half
    fails: a 46-byte input whose length field announces one byte of
    associated data passes the length test, has its metadata and ciphertext
    slices clamped to empty, and goes through key derivation and GCM; from
    46 bytes on the outcome is never [ValueError]. *)
Theorem decrypt_data_assoc_len_overrun password :
  let encrypted_data := replicate 44 x00 ++ [x00; x01] in
  length encrypted_data = 46
  ∧ from_bytes_big (slice 44 46 encrypted_data) = 1%N
  ∧ decrypt_data encrypted_data password
    = (secret ← or_raise UnicodeEncodeError (utf8_encode password);
       or_raise InvalidTag
         (gcm_decrypt
            (hash_secret_raw secret (replicate 16 x00)
               TIME_COST MEMORY_COST PARALLELISM KEY_SIZE)
            (replicate 12 x00) (replicate 16 x00) [] []))
  ∧ decrypt_data encrypted_data password ≠ Raise ValueError
  ∧ (∀ long, 46 ≤ length long → decrypt_data long password ≠ Raise ValueError)
  ∧ ∀ short, length short < 46 → decrypt_data short password = Raise ValueError.
Proof.
  simpl. split; [done|]. split; [done|].
  assert (decrypt_data (replicate 44 x00 ++ [x00; x01]) password
          = (secret ← or_raise UnicodeEncodeError (utf8_encode password);
             or_raise InvalidTag
               (gcm_decrypt
                  (hash_secret_raw secret (replicate 16 x00)
                     TIME_COST MEMORY_COST PARALLELISM KEY_SIZE)
                  (replicate 12 x00) (replicate 16 x00) [] []))) as E.
  { by rewrite decrypt_data_long by (simpl; lia). }
  assert (Hlong : ∀ long, 46 ≤ length long →
            decrypt_data long password ≠ Raise ValueError).
  { intros long Hlen. rewrite decrypt_data_long by done.
    destruct (utf8_encode password); simpl; [|done].
    by destruct (gcm_decrypt _ _ _ _ _). }
  split; [done|]. split; [by apply Hlong|]. split; [done|].
  intros short Hshort. by apply decrypt_data_short.
Qed.

End ContainerCodec.

(** ** Authenticated decryption *)

Lemma byte_card : card byte = 2 ^ 8.
Proof. reflexivity. Qed.

Lemma bits_password_ascii bits : ascii_only (bits_password bits) = true.
Proof.
  unfold ascii_only, bits_password. rewrite list_ascii_of_string_of_list_ascii.
  induction bits as [|[] bits IH]; simpl; done.
Qed.

Lemma bits_password_inj l1 l2 : bits_password l1 = bits_password l2 → l1 = l2.
Proof.
  unfold bits_password. intros Heq.
  apply (f_equal list_ascii_of_string) in Heq.
  rewrite !list_ascii_of_string_of_list_ascii in Heq.
  revert l2 Heq. induction l1 as [|b1 l1 IH]; intros [|b2 l2]; simpl; try done.
  intros [= Hb Hl]. f_equal; [by destruct b1, b2|by apply IH].
Qed.

Section Authentication.
Context `{!Codec, !Argon2, !AesGcm, !CodecOk, !Argon2Ok, !AesGcmOk}.

(** There are more passwords than keys: among the passwords of 257 binary
    digits two different ones derive the same 32-byte key from a given
    salt. *)
Lemma derive_key_collision salt :
  8 ≤ length salt →
  ∃ w1 w2 s1 s2,
    w1 ≠ w2
    ∧ utf8_encode w1 = Some s1 ∧ utf8_encode w2 = Some s2
    ∧ hash_secret_raw s1 salt TIME_COST MEMORY_COST PARALLELISM KEY_SIZE
      = hash_secret_raw s2 salt TIME_COST MEMORY_COST PARALLELISM KEY_SIZE.
Proof.
  intros Hsalt.
  set (key (v : vec bool 257) :=
         hash_secret_raw
           (list_byte_of_string (bits_password (vec_to_list v))) salt
           TIME_COST MEMORY_COST PARALLELISM KEY_SIZE).
  assert (Hlen : ∀ v, length (key v) = 32).
  { intros v. apply hash_secret_raw_length; [done|unfold KEY_SIZE; lia]. }
  destruct (finite_pigeonhole
              (λ v, key v ↾ Hlen v : { l : bytes | length l = 32 }))
    as (v1 & v2 & Hne & Heq).
  { rewrite list_card, vec_card, bool_card, byte_card, <- Nat.pow_mul_r.
    apply Nat.pow_lt_mono_r; lia. }
  exists (bits_password (vec_to_list v1)), (bits_password (vec_to_list v2)),
    (list_byte_of_string (bits_password (vec_to_list v1))),
    (list_byte_of_string (bits_password (vec_to_list v2))).
  split.
  { intros Hpw. apply Hne. by apply vec_to_list_inj2, bits_password_inj. }
  split; [apply utf8_encode_ascii, bits_password_ascii|].
  split; [apply utf8_encode_ascii, bits_password_ascii|].
  by apply (f_equal proj1_sig) in Heq.
Qed.

(** On a container of [encrypt_data], [decrypt_data] under any password
    that encodes runs GCM on the container's own fields, under the key that
    password derives from the container's salt. *)
Lemma decrypt_data_sealed_under data s1 metadata rng password secret :
  (N.of_nat (length metadata) < 65536)%N →
  utf8_encode password = Some secret →
  let c := sealed_container data s1 metadata rng in
  decrypt_data (container_bytes c) password
  = or_raise InvalidTag
      (gcm_decrypt
         (hash_secret_raw secret (c_salt c)
            TIME_COST MEMORY_COST PARALLELISM KEY_SIZE)
         (c_nonce c) (c_authentication_tag c)
         (c_associated_data c) (c_ciphertext c)).
Proof.
  intros Hlen Hpw c.
  rewrite decrypt_data_container by by apply sealed_container_well_formed.
  unfold derive_key. rewrite bool_decide_eq_true_2 by set_solver.
  by rewrite Hpw, bind_or_raise_Some, bind_Ok.
Qed.

(** A password that derives the key the container was sealed under opens
    it, whether or not it is the password it was sealed with. *)
Lemma decrypt_data_same_key data s1 metadata rng password secret :
  (N.of_nat (length metadata) < 65536)%N →
  utf8_encode password = Some secret →
  let c := sealed_container data s1 metadata rng in
  hash_secret_raw secret (c_salt c) TIME_COST MEMORY_COST PARALLELISM KEY_SIZE
  = hash_secret_raw s1 (c_salt c) TIME_COST MEMORY_COST PARALLELISM KEY_SIZE →
  decrypt_data (container_bytes c) password = Ok data.
Proof.
  intros Hlen Hpw c Hkey.
  pose proof (decrypt_data_sealed_under data s1 metadata rng password secret
                Hlen Hpw) as Hrun.
  cbv zeta in Hrun. fold c in Hrun. rewrite Hrun, Hkey.
  unfold c, sealed_container.
  cbn [c_nonce c_authentication_tag c_associated_data c_ciphertext c_salt].
  rewrite gcm_decrypt_encrypt; [done| |].
  - apply hash_secret_raw_length; [|unfold KEY_SIZE; lia].
    rewrite length_fmap, length_seq. lia.
  - by rewrite length_fmap, length_seq.
Qed.

(** Some decryption under another password returns the plaintext. *)
Lemma wrong_password_accepted data st :
  ascii_only (w_now_iso st) = true →
  String.length (w_now_iso st) ≤ 32 →
  ∃ w1 w2 encrypted_data,
    w2 ≠ w1
    ∧ (encrypt_data data w1 st).1 = Ok encrypted_data
    ∧ decrypt_data encrypted_data w2 = Ok data.
Proof.
  intros Hascii Hnow.
  set (metadata := metadata_of (w_now_iso st)).
  assert (Hlen : (N.of_nat (length metadata) < 65536)%N).
  { unfold metadata. rewrite metadata_of_length. lia. }
  destruct (derive_key_collision (w_rng st <$> seq 0 16))
    as (w1 & w2 & s1 & s2 & Hne & Hw1 & Hw2 & Hkey).
  { rewrite length_fmap, length_seq. lia. }
  exists w1, w2,
    (container_bytes (sealed_container data s1 metadata (w_rng st))).
  split; [done|]. split.
  { apply encrypt_data_sealed; [done| |done]. by apply metadata_of_encode. }
  by apply (decrypt_data_same_key data s1 metadata (w_rng st) w2 s2).
Qed.

(** Some container with another tag and ciphertext is accepted: the one of
    another plaintext under the same password, salt and nonce. *)
Lemma altered_container_accepted password secret st :
  utf8_encode password = Some secret →
  ascii_only (w_now_iso st) = true →
  String.length (w_now_iso st) ≤ 32 →
  ∃ c c',
    (encrypt_data [x00] password st).1 = Ok (container_bytes c)
    ∧ well_formed c ∧ well_formed c'
    ∧ c_salt c' = c_salt c ∧ c_nonce c' = c_nonce c
    ∧ container_bytes c' ≠ container_bytes c
    ∧ decrypt_data (container_bytes c') password = Ok [x01].
Proof.
  intros Hpw Hascii Hnow.
  set (metadata := metadata_of (w_now_iso st)).
  assert (Hlen : (N.of_nat (length metadata) < 65536)%N).
  { unfold metadata. rewrite metadata_of_length. lia. }
  assert (Hopen : ∀ data,
            decrypt_data
              (container_bytes (sealed_container data secret metadata (w_rng st)))
              password = Ok data).
  { intros data.
    by apply (decrypt_data_same_key data secret metadata (w_rng st)
                password secret). }
  exists (sealed_container [x00] secret metadata (w_rng st)),
    (sealed_container [x01] secret metadata (w_rng st)).
  split.
  { apply encrypt_data_sealed; [done| |done]. by apply metadata_of_encode. }
  split; [by apply sealed_container_well_formed|].
  split; [by apply sealed_container_well_formed|].
  split; [done|]. split; [done|]. split; [|apply Hopen].
  intros Heq. pose proof (Hopen [x01]) as Hone.
  rewrite Heq, (Hopen [x00]) in Hone. done.
Qed.


End Authentication.


(** ** Receiving: the current key, then the old keys *)

Section Receive.
Context `{!Codec, !NaCl}.

Lemma receive_loop_concat self w batch acc :
  receive_loop self w batch acc
  = acc ++ concat (receive_one self w <$> batch).
Proof.
  revert acc. induction batch as [|msg rest IH]; intros acc; simpl.
  - by rewrite app_nil_r.
  - by rewrite IH, app_assoc.
Qed.

(** The loop returns what the first key that opens the message gives. *)
Lemma try_each_old_key_first older k newer pk ct s :
  Forall (λ k', raises (open_with_old_key k' pk ct)) older →
  open_with_old_key k pk ct = Ok s →
  try_each_old_key (older ++ k :: newer) pk ct = Some s.
Proof.
  intros Holder Hk. induction Holder as [|k' older [e He] _ IH]; simpl.
  - by rewrite Hk.
  - by rewrite He.
Qed.

Lemma try_each_old_key_none keys pk ct :
  Forall (λ k, raises (open_with_old_key k pk ct)) keys →
  try_each_old_key keys pk ct = None.
Proof.
  induction 1 as [|k keys [e He] _ IH]; simpl; [done|]. by rewrite He.
Qed.

(** Conversely a result of the loop always comes from the first key, in
    list order, that opens the message. *)
Lemma try_each_old_key_Some keys pk ct s :
  try_each_old_key keys pk ct = Some s →
  ∃ older k newer,
    keys = older ++ k :: newer
    ∧ Forall (λ k', raises (open_with_old_key k' pk ct)) older
    ∧ open_with_old_key k pk ct = Ok s.
Proof.
  induction keys as [|k keys IH]; simpl; [done|].
  destruct (open_with_old_key k pk ct) as [s'|e] eqn:Hk.
  - intros [= ->]. exists [], k, keys. by repeat split.
  - intros (older & k0 & newer & -> & Holder & Hk0)%IH.
    exists (k :: older), k0, newer. repeat split; [|done].
    constructor; [by exists e|done].
Qed.

(** An old key raises when its private key does not decode or its box does
    not open the message. *)
Lemma open_with_old_key_raises k pk ct :
  (∀ sk, decode_private_key (private_key k) = Ok sk →
         raises (box_open sk pk ct)) →
  raises (open_with_old_key k pk ct).
Proof.
  intros Hk. unfold open_with_old_key.
  destruct (decode_private_key (private_key k)) as [sk|e]; simpl.
  - by apply Hk.
  - by exists e.
Qed.

(** The resolution order of [receive_messages]. For every batch the result
    is the concatenation, in order, of what each message contributes on its
    own (nothing or one entry), so a message that contributes nothing is
    skipped and the rest of the batch is processed. A message whose sender
    has a key in the directory is first opened with the manager's identity
    key, and that result is kept. When this raises, the old keys of the
    profile of the current database are tried in list order (oldest first,
    as rotation appends), and the first one that opens the message decides;
    its plaintext is kept when it is not the empty string. When no key
    opens the message it contributes nothing. *)
Lemma receive_messages_resolution self w :
  (∀ batch,
     receive_loop self w batch [] = concat (receive_one self w <$> batch))
  ∧ receive_messages self w
    = concat (receive_one self w <$> get_messages (w_db w) (cm_username self))
  ∧ (∀ msg, receive_one self w msg = []
            ∨ ∃ s, receive_one self w msg = [decrypted_entry msg s])
  ∧ (∀ pre msg post,
       receive_one self w msg = [] →
       receive_loop self w (pre ++ msg :: post) []
       = receive_loop self w pre [] ++ receive_loop self w post [])
  ∧ (∀ msg,
       get_user_public_key (w_db w) (sender_username msg) = None
       ∨ get_user_public_key (w_db w) (sender_username msg) = Some "" →
       receive_one self w msg = [])
  ∧ (∀ msg pk_str s,
       get_user_public_key (w_db w) (sender_username msg) = Some pk_str →
       truthy pk_str = true →
       open_with_current self pk_str (ciphertext msg) = Ok s →
       receive_one self w msg = [decrypted_entry msg s])
  ∧ (∀ msg pk_str pk profile older k newer sk s,
       get_user_public_key (w_db w) (sender_username msg) = Some pk_str →
       truthy pk_str = true →
       raises (open_with_current self pk_str (ciphertext msg)) →
       db_profiles (w_user_data w) !! w_env_url w = Some profile →
       decode_public_key pk_str = Ok pk →
       default [] (old_keys profile) = older ++ k :: newer →
       Forall (λ k', ∀ sk', decode_private_key (private_key k') = Ok sk' →
                            raises (box_open sk' pk (ciphertext msg))) older →
       decode_private_key (private_key k) = Ok sk →
       box_open sk pk (ciphertext msg) = Ok s →
       receive_one self w msg
       = if truthy s then [decrypted_entry msg s] else [])
  ∧ (∀ msg pk_str,
       get_user_public_key (w_db w) (sender_username msg) = Some pk_str →
       raises (open_with_current self pk_str (ciphertext msg)) →
       (∀ profile pk,
          db_profiles (w_user_data w) !! w_env_url w = Some profile →
          decode_public_key pk_str = Ok pk →
          Forall (λ k, ∀ sk, decode_private_key (private_key k) = Ok sk →
                             raises (box_open sk pk (ciphertext msg)))
            (default [] (old_keys profile))) →
       receive_one self w msg = []).
Proof.
  assert (Hloop : ∀ batch,
    receive_loop self w batch [] = concat (receive_one self w <$> batch)).
  { intros batch. by rewrite receive_loop_concat. }
  split; [done|]. split; [apply Hloop|].
  split; [|split; [|split; [|split; [|split]]]].
  - intros msg. unfold receive_one.
    destruct (get_user_public_key _ _) as [pk_str|]; [|by left].
    destruct (negb (truthy pk_str)); [by left|].
    destruct (open_with_current _ _ _) as [s|e]; [right; by exists s|].
    destruct (_try_decrypt_with_old_keys _ _ _) as [s|]; [|by left].
    destruct (truthy s); [right; by exists s|by left].
  - intros pre msg post Hskip.
    rewrite !Hloop, fmap_app, concat_app. simpl. by rewrite Hskip.
  - intros msg [Hdir|Hdir]; unfold receive_one; by rewrite Hdir.
  - intros msg pk_str s Hdir Htruthy Hopen. unfold receive_one.
    by rewrite Hdir, Htruthy, Hopen.
  - intros msg pk_str pk profile older k newer sk s
      Hdir Htruthy [e He] Hprofile Hpk Hkeys Holder Hsk Hk.
    unfold receive_one, _try_decrypt_with_old_keys.
    rewrite Hdir, Htruthy, He, Hprofile, Hpk, Hkeys. simpl.
    rewrite (try_each_old_key_first older k newer pk _ s); [done| |].
    + eapply Forall_impl; [exact Holder|].
      intros k'. apply open_with_old_key_raises.
    + unfold open_with_old_key. by rewrite Hsk.
  - intros msg pk_str Hdir [e He] Hnone.
    unfold receive_one, _try_decrypt_with_old_keys.
    rewrite Hdir, He. destruct (negb (truthy pk_str)); [done|].
    destruct (db_profiles _ !! _) as [profile|] eqn:Hprofile; [|done].
    destruct (decode_public_key pk_str) as [pk|] eqn:Hpk; [|done].
    rewrite try_each_old_key_none; [done|].
    eapply Forall_impl; [by apply Hnone|].
    intros k. apply open_with_old_key_raises.
Qed.

End Receive.

(** ** Sealing and opening a message *)

Section Seal.
Context `{!Codec, !NaCl}.

Lemma PrivateKey_generate_length w :
  ∃ sk, (PrivateKey_generate w).1 = Ok sk ∧ length sk = 32.
Proof.
  exists (w_rng w <$> seq 0 32). split; [done|].
  by rewrite length_fmap, length_seq.
Qed.

(** What [send_message] does when nothing raises and the relay answers:
    the row it inserts carries the Base64 text of the box of the UTF-8
    message under the manager's identity key, the recipient's key and the
    next 24 bytes of entropy. *)
Lemma send_message_sealed self recipient pk_str message w pk box plaintext
    encrypted :
  decode_public_key pk_str = Ok pk →
  Box (cm_identity_private_key self) pk = Some box →
  utf8_encode message = Some plaintext →
  Box_encrypt box plaintext (w_rng w <$> seq 0 24) = Some encrypted →
  reachable (w_db w) = true →
  let r := send_message self recipient pk_str message w in
  r.1 = Ok true
  ∧ message_log (w_db r.2)
    = message_log (w_db w)
      ++ [{| sender_username := cm_username self;
             recipient_username := recipient;
             ciphertext := b64encode encrypted;
             timestamp := w_now w |}].
Proof.
  intros Hpk Hbox Hpt Henc Hup. simpl.
  unfold send_message, db_send_message. M_simpl.
  rewrite Hpk. M_simpl. rewrite Hbox. M_simpl. rewrite Hpt. M_simpl.
  change (w_rng w <$> seq 0 24)
    with [w_rng w 0; w_rng w 1; w_rng w 2; w_rng w 3; w_rng w 4; w_rng w 5;
          w_rng w 6; w_rng w 7; w_rng w 8; w_rng w 9; w_rng w 10; w_rng w 11;
          w_rng w 12; w_rng w 13; w_rng w 14; w_rng w 15; w_rng w 16;
          w_rng w 17; w_rng w 18; w_rng w 19; w_rng w 20; w_rng w 21;
          w_rng w 22; w_rng w 23] in Henc.
  rewrite Henc. M_simpl. rewrite Hup. M_simpl. done.
Qed.

Section SealLaws.
Context `{!CodecOk, !NaClOk}.

Lemma b64encode_truthy b : b ≠ [] → truthy (b64encode b) = true.
Proof.
  intros Hb. destruct (b64encode b) eqn:E; [|done].
  pose proof (b64decode_encode b) as Hdec.
  rewrite E, b64decode_empty in Hdec. by simplify_eq.
Qed.

Lemma decode_public_key_encode pk :
  length pk = 32 → decode_public_key (b64encode pk) = Ok pk.
Proof.
  intros Hpk. unfold decode_public_key, PublicKey.
  rewrite b64decode_encode. simpl. by rewrite bool_decide_eq_true_2.
Qed.

(** C6. Round trip of a sealed message. For identity keypairs A and B (any
    32-byte private keys, which is what [PrivateKey.generate()] returns) and
    a message that has a UTF-8 encoding, [send_message] run by A towards B's
    public key stores a sealed text; B's manager opens that text with B's
    private key and A's public key to exactly the message, and
    [receive_messages]' loop body turns the row into the entry carrying the
    message. *)
Theorem seal_open_round_trip A_sk B_sk a b message plaintext wA :
  length A_sk = 32 →
  length B_sk = 32 →
  utf8_encode message = Some plaintext →
  reachable (w_db wA) = true →
  let A_pub := crypto_scalarmult_base A_sk in
  let B_pub := crypto_scalarmult_base B_sk in
  let A := {| cm_username := a; cm_identity_private_key := A_sk;
              cm_identity_public_key := A_pub |} in
  let B := {| cm_username := b; cm_identity_private_key := B_sk;
              cm_identity_public_key := B_pub |} in
  ∃ sealed,
    let r := send_message A b (b64encode B_pub) message wA in
    r.1 = Ok true
    ∧ message_log (w_db r.2)
      = message_log (w_db wA)
        ++ [{| sender_username := a; recipient_username := b;
               ciphertext := sealed; timestamp := w_now wA |}]
    ∧ open_with_current B (b64encode A_pub) sealed = Ok message
    ∧ ∀ wB msg,
        sender_username msg = a →
        ciphertext msg = sealed →
        get_user_public_key (w_db wB) a = Some (b64encode A_pub) →
        receive_one B wB msg = [decrypted_entry msg message].
Proof.
  intros HA HB Hpt Hup A_pub B_pub A B.
  assert (HApub : length A_pub = 32) by by apply crypto_scalarmult_base_length.
  assert (HBpub : length B_pub = 32) by by apply crypto_scalarmult_base_length.
  set (nonce := w_rng wA <$> seq 0 24).
  destruct (Box_decrypt_encrypt A_sk B_sk HA HB)
    as (box_ab & box_ba & Hab & Hba & Hboxes).
  destruct (Hboxes plaintext nonce) as (encrypted & Henc & Hdec).
  { unfold nonce. by rewrite length_fmap, length_seq. }
  exists (b64encode encrypted).
  destruct (send_message_sealed A b (b64encode B_pub) message wA B_pub box_ab
              plaintext encrypted)
    as [Hret Hlog]; [by apply decode_public_key_encode|done..|].
  assert (Hopen : open_with_current B (b64encode A_pub) (b64encode encrypted)
                  = Ok message).
  { unfold open_with_current. rewrite decode_public_key_encode by done.
    rewrite bind_Ok. unfold box_open, B, A_pub. simpl.
    rewrite Hba, bind_or_raise_Some.
    rewrite b64decode_encode, bind_or_raise_Some.
    rewrite Hdec, bind_or_raise_Some.
    by rewrite (utf8_decode_encode message plaintext). }
  split; [done|]. split; [done|]. split; [done|].
  intros wB msg Hsender Hct Hdir. unfold receive_one.
  rewrite Hsender, Hdir, Hct.
  rewrite b64encode_truthy by (intros ->; simpl in HApub; lia).
  simpl. by rewrite Hopen.
Qed.

End SealLaws.

(** A [try] whose handler returns cannot raise. *)
Lemma try_except_ret {A} (m : M A) (a : A) w :
  ∃ a' w', try_except m (λ _, ret a) w = (Ok a', w').
Proof. unfold try_except, ret. destruct (m w) as [[x|e] w']; eauto. Qed.

Lemma _initialize_chat_keypair_ok w :
  ∃ w', _initialize_chat_keypair w = (Ok (), w').
Proof.
  unfold _initialize_chat_keypair.
  destruct (try_except_ret (A:=unit)
    (supabase_url <- gets w_env_url;;
     ud <- gets w_user_data;;
     match db_profiles ud !! supabase_url with
     | Some db_profile =>
         match current_keypair db_profile with
         | None =>
             kp <- fresh_keypair;;
             set_db_profile supabase_url
               {| current_keypair := Some kp; old_keys := old_keys db_profile |}
         | Some _ => ret ()
         end
     | None =>
         kp <- fresh_keypair;;
         set_db_profile supabase_url
           {| current_keypair := Some kp; old_keys := Some [] |}
     end)%M () w) as ([] & w' & ->).
  by exists w'.
Qed.

(** The key objects a manager holds come from the username and the two
    identity key strings of the record alone. *)
Lemma ChatManager_init_manager w :
  (ChatManager_init w).1
  = (sk ← decode_private_key (identity_private_key (w_user_data w));
     pk ← decode_public_key (identity_public_key (w_user_data w));
     Ok {| cm_username := username (w_user_data w);
           cm_identity_private_key := sk;
           cm_identity_public_key := pk |}).
Proof.
  unfold ChatManager_init. M_simpl.
  destruct (decode_private_key _) as [sk|]; M_simpl; [|done].
  destruct (decode_public_key _) as [pk|]; M_simpl; [|done].
  by destruct (_initialize_chat_keypair_ok w) as (w' & ->).
Qed.

(** C10. Sending does not depend on the table of database profiles. Two
    records with the same username and identity keys give the same manager,
    whatever their [db_profiles]; and [send_message] run by one manager in
    two worlds with the same entropy, clock and relay (their user records,
    hence the profiles with every current and old keypair, are arbitrary
    and may differ) returns the same value, leaves the same relay (the same
    sealed row) and the same entropy, and leaves each user record as it
    was. *)
Theorem send_message_ignores_db_profiles w1 w2 :
  username (w_user_data w1) = username (w_user_data w2) →
  identity_private_key (w_user_data w1) = identity_private_key (w_user_data w2) →
  identity_public_key (w_user_data w1) = identity_public_key (w_user_data w2) →
  (ChatManager_init w1).1 = (ChatManager_init w2).1
  ∧ ∀ self recipient pk_str message w1' w2',
      w_rng w1' = w_rng w2' →
      w_now w1' = w_now w2' →
      w_db w1' = w_db w2' →
      let r1 := send_message self recipient pk_str message w1' in
      let r2 := send_message self recipient pk_str message w2' in
      r1.1 = r2.1
      ∧ w_db r1.2 = w_db r2.2
      ∧ w_rng r1.2 = w_rng r2.2
      ∧ w_user_data r1.2 = w_user_data w1'
      ∧ w_user_data r2.2 = w_user_data w2'.
Proof.
  intros Hname Hsk Hpk. split.
  - by rewrite !ChatManager_init_manager, Hname, Hsk, Hpk.
  - intros self recipient pk_str message w1' w2' Hrng Hnow Hdb. simpl.
    unfold send_message, db_send_message. M_simpl.
    destruct (decode_public_key pk_str) as [pk|]; M_simpl; [|done].
    destruct (Box _ _) as [box|]; M_simpl; [|done].
    rewrite Hrng.
    destruct (utf8_encode message) as [plaintext|]; M_simpl; [|done].
    destruct (Box_encrypt _ _ _) as [encrypted|]; M_simpl; [|done].
    rewrite Hdb. destruct (reachable (w_db w2')); M_simpl; [|done].
    by rewrite Hnow.
Qed.

End Seal.

(** ** Rotation *)

Section Rotation.
Context `{!Codec, !Argon2, !AesGcm, !NaCl, !Json}.

(** [encrypt_data] draws entropy and touches nothing else. *)
Lemma encrypt_data_frame data password w :
  let w' := (encrypt_data data password w).2 in
  w_user_data w' = w_user_data w ∧ w_db w' = w_db w
  ∧ w_env_url w' = w_env_url w ∧ w_profile_file w' = w_profile_file w.
Proof.
  simpl. unfold encrypt_data, derive_key. M_simpl.
  destruct (utf8_encode password); M_simpl; [|done].
  destruct (utf8_encode _); M_simpl; [|done].
  by destruct (to_bytes2_big _).
Qed.

(** The record after [rotate_key], whether or not the directory update and
    the save that follow succeed: Python keeps the mutations made before an
    exception or an early [return False]. *)
Lemma rotate_key_user_data self w profile :
  db_profiles (w_user_data w) !! w_env_url w = Some profile →
  let sk := w_rng w <$> seq 0 32 in
  let identity_sk := (λ i, w_rng w (32 + i)) <$> seq 0 32 in
  w_user_data (rotate_key self w).2
  = {| username := username (w_user_data w);
       identity_public_key := b64encode (crypto_scalarmult_base identity_sk);
       identity_private_key := b64encode identity_sk;
       db_profiles :=
         <[w_env_url w :=
             {| current_keypair :=
                  Some {| private_key := b64encode sk;
                          public_key := b64encode (crypto_scalarmult_base sk);
                          created_at := w_now w |};
                old_keys := retire profile |}]> (db_profiles (w_user_data w)) |}.
Proof.
  intros Hprofile. simpl.
  unfold rotate_key, set_db_profile, set_identity_keys, fresh_keypair,
    PrivateKey_generate, update_public_key.
  M_simpl. rewrite Hprofile. M_simpl.
  rewrite insert_insert_eq. fold (retire profile).
  destruct (reachable (w_db w)); M_simpl; [|done].
  destruct (utf8_encode _) as [json_data|]; M_simpl; [|done].
  match goal with
  | |- context [encrypt_data ?d ?p ?w0] =>
      pose proof (encrypt_data_frame d p w0) as (Hud & _);
      destruct (encrypt_data d p w0) as [[encrypted_data|e] w'']
  end; simpl in *; by rewrite Hud.
Qed.

(** C8 as amended. For a record whose profile of the current database has a
    current keypair, one [rotate_key] leaves as [old_keys] the previous old
    keys, in their order, followed by the previous current keypair, and as
    current keypair a new one made from the next 32 bytes of entropy and the
    clock; the other profiles are untouched. The previous current keypair
    therefore occurs once more than before among the old keys: exactly once
    when it was not among them. *)
Theorem rotate_key_retires_current self w profile current :
  db_profiles (w_user_data w) !! w_env_url w = Some profile →
  current_keypair profile = Some current →
  let retired := default [] (old_keys profile) in
  let sk := w_rng w <$> seq 0 32 in
  let fresh := {| private_key := b64encode sk;
                  public_key := b64encode (crypto_scalarmult_base sk);
                  created_at := w_now w |} in
  let w' := (rotate_key self w).2 in
  db_profiles (w_user_data w') !! w_env_url w
  = Some {| current_keypair := Some fresh;
            old_keys := Some (retired ++ [current]) |}
  ∧ (∀ i k, retired !! i = Some k → (retired ++ [current]) !! i = Some k)
  ∧ (retired ++ [current]) !! length retired = Some current
  ∧ length (retired ++ [current]) = S (length retired)
  ∧ count_occ keypair_eq_dec (retired ++ [current]) current
    = S (count_occ keypair_eq_dec retired current)
  ∧ (current ∉ retired →
     count_occ keypair_eq_dec (retired ++ [current]) current = 1)
  ∧ (∀ other, other ≠ w_env_url w →
       db_profiles (w_user_data w') !! other
       = db_profiles (w_user_data w) !! other).
Proof.
  intros Hprofile Hcurrent retired sk fresh w'.
  assert (Hcount : count_occ keypair_eq_dec (retired ++ [current]) current
                   = S (count_occ keypair_eq_dec retired current)).
  { rewrite count_occ_app. simpl.
    destruct (keypair_eq_dec current current); [lia|done]. }
  unfold w'. rewrite (rotate_key_user_data self w profile Hprofile). simpl.
  unfold retire. rewrite Hcurrent.
  split; [by rewrite lookup_insert_eq|].
  split; [intros i k Hk; by apply lookup_app_l_Some|].
  split; [by rewrite list_lookup_middle|].
  split; [rewrite length_app; simpl; lia|].
  split; [done|].
  split.
  - intros Hnotin. rewrite Hcount. f_equal.
    apply count_occ_not_In. by rewrite <- list_elem_of_In.
  - intros other Hother. by rewrite lookup_insert_ne.
Qed.

(** [split_space_0] of a timestamp ["<date> <time>"] is its date. *)
Lemma split_space_0_date date time :
  (∀ c, In c (list_ascii_of_string date) → c ≠ " "%char) →
  split_space_0 (date +:+ " " +:+ time) = date.
Proof.
  induction date as [|c date IH]; simpl; intros Hdate; [done|].
  destruct (Ascii.eqb_spec c " ") as [->|_].
  - exfalso. by apply (Hdate " "%char); [left|].
  - f_equal. apply IH. intros c' Hc'. apply Hdate. by right.
Qed.

(** C9 as amended. [check_key_rotation_needed] is true exactly when the
    record has a profile for the current database and that profile has no
    current keypair, or one whose [created_at] and the clock differ in the
    text before their first space (the date of a
    ['%Y-%m-%d %H:%M:%S'] timestamp); a record with no profile for the
    current database is reported as not due. *)
Theorem check_key_rotation_needed_iff w :
  (check_key_rotation_needed w = true ↔
   ∃ profile,
     db_profiles (w_user_data w) !! w_env_url w = Some profile
     ∧ (current_keypair profile = None
        ∨ ∃ current,
            current_keypair profile = Some current
            ∧ split_space_0 (created_at current) ≠ split_space_0 (w_now w)))
  ∧ (db_profiles (w_user_data w) !! w_env_url w = None →
     check_key_rotation_needed w = false).
Proof.
  unfold check_key_rotation_needed. split.
  - destruct (db_profiles _ !! _) as [profile|];
      [|split; [done|by intros (? & ? & _)]].
    destruct (current_keypair profile) as [current|] eqn:Hcur.
    + rewrite negb_true_iff. split.
      * intros Hne. exists profile. split; [done|]. right.
        exists current. split; [done|]. by apply String.eqb_neq.
      * intros (? & [= <-] & [?|(? & ? & Hne)]); simplify_eq.
        by apply String.eqb_neq.
    + split; [|done]. intros _. exists profile. by repeat split; left.
  - by intros ->.
Qed.

End Rotation.

Section ContainerRun.
Context `{!Codec, !Argon2, !AesGcm}.

Lemma encrypt_data_world data password w :
  (encrypt_data data password w).2 = drawn 28 w.
Proof.
  unfold encrypt_data, derive_key. M_simpl.
  destruct (utf8_encode password); M_simpl; [|done].
  destruct (utf8_encode _); M_simpl; [|done].
  by destruct (to_bytes2_big _).
Qed.

Lemma encrypt_data_run data password w secret metadata :
  utf8_encode password = Some secret →
  utf8_encode ("FlightCode v" +:+ APP_VERSION +:+ " - " +:+ w_now_iso w)
  = Some metadata →
  (N.of_nat (length metadata) < 65536)%N →
  encrypt_data data password w
  = (Ok (container_bytes (sealed_container data secret metadata (w_rng w))),
     drawn 28 w).
Proof.
  intros Hpw Hmd Hlen.
  rewrite (surjective_pairing (encrypt_data data password w)).
  by rewrite encrypt_data_world, (encrypt_data_sealed _ _ _ secret metadata).
Qed.

(** The container depends on the entropy and the clock alone. *)
Lemma encrypt_data_result_ext data password w w' :
  w_rng w = w_rng w' →
  w_now_iso w = w_now_iso w' →
  (encrypt_data data password w).1 = (encrypt_data data password w').1.
Proof.
  intros Hrng Hnow. unfold encrypt_data, derive_key. M_simpl.
  rewrite Hrng, Hnow.
  destruct (utf8_encode password); M_simpl; [|done].
  destruct (utf8_encode _); M_simpl; [|done].
  by destruct (to_bytes2_big _).
Qed.

End ContainerRun.

Section ContainerRunLaws.
Context `{!Codec, !Argon2, !AesGcm, !Argon2Ok, !AesGcmOk}.

Lemma decrypt_data_sealed data password secret metadata rng :
  utf8_encode password = Some secret →
  (N.of_nat (length metadata) < 65536)%N →
  decrypt_data (container_bytes (sealed_container data secret metadata rng))
    password = Ok data.
Proof.
  intros Hpw Hlen.
  rewrite decrypt_data_container by by apply sealed_container_well_formed.
  unfold derive_key. rewrite bool_decide_eq_true_2 by set_solver.
  rewrite Hpw, bind_or_raise_Some, bind_Ok.
  unfold sealed_container.
  cbn [c_nonce c_authentication_tag c_associated_data c_ciphertext c_salt].
  rewrite gcm_decrypt_encrypt; [done| |].
  - apply hash_secret_raw_length; [|unfold KEY_SIZE; lia].
    rewrite length_fmap, length_seq. lia.
  - by rewrite length_fmap, length_seq.
Qed.

Context `{!CodecOk}.

(** A container written at an ASCII clock reading of at most 32
    characters, as a whole run. *)
Lemma encrypt_data_ascii_clock data password w secret :
  utf8_encode password = Some secret →
  ascii_only (w_now_iso w) = true →
  String.length (w_now_iso w) ≤ 32 →
  ∃ encrypted_data,
    encrypt_data data password w = (Ok encrypted_data, drawn 28 w)
    ∧ decrypt_data encrypted_data password = Ok data.
Proof.
  intros Hpw Hascii Hnow.
  assert (Hlen : (N.of_nat (length (metadata_of (w_now_iso w))) < 65536)%N).
  { rewrite metadata_of_length. lia. }
  eexists. split.
  - apply encrypt_data_run; [done| |done]. by apply metadata_of_encode.
  - by apply decrypt_data_sealed.
Qed.

End ContainerRunLaws.

Section LoginProps.
Context `{!Codec, !Argon2, !AesGcm, !NaCl, !Json, !JsonLoads}.

(** [_save_user_profile] as a whole run when the text and the password
    encode. *)
Lemma _save_user_profile_run ud password w json_data encrypted_data w' :
  utf8_encode (json_dumps ud) = Some json_data →
  encrypt_data json_data password w = (Ok encrypted_data, w') →
  _save_user_profile ud password w
  = (Ok (), (set_profile_file encrypted_data w').2).
Proof.
  intros Hjson Henc. unfold _save_user_profile. M_simpl.
  rewrite Hjson. M_simpl. by rewrite Henc.
Qed.

(** [_save_user_profile] opens the file last: when the JSON text does not
    encode or [encrypt_data] raises, it raises with the file as it was. *)
Lemma _save_user_profile_raise ud password w :
  utf8_encode (json_dumps ud) = None
  ∨ (∃ json_data e,
       utf8_encode (json_dumps ud) = Some json_data
       ∧ (encrypt_data json_data password w).1 = Raise e) →
  ∃ e w',
    _save_user_profile ud password w = (Raise e, w')
    ∧ w_profile_file w' = w_profile_file w ∧ w_user_data w' = w_user_data w
    ∧ w_db w' = w_db w.
Proof.
  unfold _save_user_profile. intros [Hjson|(json_data & e & Hjson & Henc)];
    rewrite Hjson; M_simpl.
  - by eexists _, _.
  - pose proof (encrypt_data_world json_data password w) as Hw.
    destruct (encrypt_data json_data password w) as [[encrypted_data|e'] w''];
      simpl in *; [done|].
    exists e', w''. by rewrite Hw.
Qed.

Lemma load_user_profile_container json_data password text v encrypted_data :
  decrypt_data encrypted_data password = Ok json_data →
  utf8_decode json_data = Some text →
  json_loads text = Some v →
  load_user_profile encrypted_data password = Ok v.
Proof.
  intros Hdec Htext Hv. unfold load_user_profile.
  by rewrite Hdec, bind_Ok, Htext, bind_or_raise_Some, Hv.
Qed.

End LoginProps.

Section LoginTheorems.
Context `{!Codec, !Argon2, !AesGcm, !NaCl, !Json, !JsonLoads}.
Context `{!Argon2Ok, !AesGcmOk, !CodecOk}.

(** Saving a record and loading it back. *)
Lemma save_then_load ud password w secret json_data v :
  utf8_encode password = Some secret →
  ascii_only (w_now_iso w) = true →
  String.length (w_now_iso w) ≤ 32 →
  utf8_encode (json_dumps ud) = Some json_data →
  json_loads (json_dumps ud) = Some v →
  ∃ encrypted_data,
    _save_user_profile ud password w
    = (Ok (), (set_profile_file encrypted_data (drawn 28 w)).2)
    ∧ load_user_profile encrypted_data password = Ok v.
Proof.
  intros Hpw Hascii Hnow Hjson Hv.
  destruct (encrypt_data_ascii_clock json_data password w secret)
    as (encrypted_data & Henc & Hdec); [done..|].
  exists encrypted_data. split.
  - by apply (_save_user_profile_run ud password w json_data).
  - apply (load_user_profile_container json_data password (json_dumps ud));
      [done| |done].
    by apply utf8_decode_encode.
Qed.

(** X1. Registration followed by login. For a password that [str.encode]
    accepts, at an ASCII clock reading of at most 32 characters, when the
    JSON text of the new record encodes and [json.loads] reads it back as
    that record, [register_user] returns the record made from the next 32
    bytes of entropy (with no profile yet), and [login_user] with the same
    password returns it from the file just written; the relay and the
    record in memory are untouched. *)
Theorem register_user_login_user username password w secret json_data :
  let sk := w_rng w <$> seq 0 32 in
  let ud := {| username := username;
               identity_public_key := b64encode (crypto_scalarmult_base sk);
               identity_private_key := b64encode sk;
               db_profiles := ∅ |} in
  utf8_encode password = Some secret →
  ascii_only (w_now_iso w) = true →
  String.length (w_now_iso w) ≤ 32 →
  utf8_encode (json_dumps ud) = Some json_data →
  json_loads (json_dumps ud) = Some (UserData ud) →
  let r := register_user username password w in
  r.1 = Ok (Some ud)
  ∧ login_user password r.2 = Some (UserData ud)
  ∧ w_user_data r.2 = w_user_data w
  ∧ w_db r.2 = w_db w.
Proof.
  intros sk ud Hpw Hascii Hnow Hjson Hv. simpl.
  destruct (save_then_load ud password (drawn 32 w) secret json_data
              (UserData ud)) as (encrypted_data & Hsave & Hload); [done..|].
  unfold register_user, PrivateKey_generate. M_simpl.
  change (_save_user_profile ?u ?p ?w0)
    with (_save_user_profile ud password (drawn 32 w)).
  rewrite Hsave. simpl. unfold login_user. simpl. by rewrite Hload.
Qed.

End LoginTheorems.

Section LoginTheorems2.
Context `{!Codec, !Argon2, !AesGcm, !NaCl, !Json, !JsonLoads}.

Section Laws.
Context `{!Argon2Ok, !AesGcmOk, !CodecOk}.

(** X2. Saving and logging in. Under the hypotheses of X1 for the password
    given, or for the answer to the prompt when none is given,
    [update_user_data] returns [True], and [login_user] with that password
    then returns what [json.loads] makes of the saved record; after a save
    under the prompt's answer [get_user_data] returns the same. *)
Theorem update_user_data_login_user ud password w secret json_data v :
  let entered := default (w_password w) password in
  utf8_encode entered = Some secret →
  ascii_only (w_now_iso w) = true →
  String.length (w_now_iso w) ≤ 32 →
  utf8_encode (json_dumps ud) = Some json_data →
  json_loads (json_dumps ud) = Some v →
  let r := update_user_data ud password w in
  r.1 = Ok true
  ∧ login_user entered r.2 = Some v
  ∧ (password = None → get_user_data r.2 = Some v)
  ∧ w_user_data r.2 = w_user_data w.
Proof.
  intros entered Hpw Hascii Hnow Hjson Hv. simpl.
  destruct (save_then_load ud entered w secret json_data v)
    as (encrypted_data & Hsave & Hload); [done..|].
  unfold update_user_data.
  destruct password as [password|]; unfold entered in *;
    cbn [default from_option id] in *; M_simpl;
    rewrite Hsave; simpl; unfold login_user, get_user_data; simpl;
    rewrite Hload; by repeat split.
Qed.

End Laws.

(** X3. What a login rests on. [login_user] returns [None] when there is
    no profile file and when [decrypt_data] raises: a wrong password, a
    damaged file and a file of less than 46 bytes are not told apart. It
    returns a value only as [json.loads] of the text that [decrypt_data]
    authenticated under the password. [get_user_data] is [login_user] with
    the prompt's answer. *)
Theorem login_user_authenticated password w :
  (w_profile_file w = None → login_user password w = None)
  ∧ (∀ encrypted_data,
       w_profile_file w = Some encrypted_data →
       raises (decrypt_data encrypted_data password) →
       login_user password w = None)
  ∧ (∀ encrypted_data,
       w_profile_file w = Some encrypted_data →
       length encrypted_data < 46 →
       login_user password w = None)
  ∧ (∀ v,
       login_user password w = Some v →
       ∃ encrypted_data decrypted_data text,
         w_profile_file w = Some encrypted_data
         ∧ 46 ≤ length encrypted_data
         ∧ decrypt_data encrypted_data password = Ok decrypted_data
         ∧ utf8_decode decrypted_data = Some text
         ∧ json_loads text = Some v)
  ∧ get_user_data w = login_user (w_password w) w.
Proof.
  assert (Hraise : ∀ encrypted_data,
            w_profile_file w = Some encrypted_data →
            raises (decrypt_data encrypted_data password) →
            login_user password w = None).
  { intros encrypted_data Hfile [e He]. unfold login_user, load_user_profile.
    by rewrite Hfile, He. }
  split; [|split; [done|split; [|split]]].
  - intros Hfile. unfold login_user. by rewrite Hfile.
  - intros encrypted_data Hfile Hlen. apply (Hraise _ Hfile).
    exists ValueError. by apply decrypt_data_short.
  - unfold login_user, load_user_profile. intros v.
    destruct (w_profile_file w) as [encrypted_data|]; [|done].
    destruct (decrypt_data encrypted_data password) as [decrypted_data|e] eqn:Hdec;
      [|done].
    rewrite bind_Ok.
    destruct (utf8_decode decrypted_data) as [text|] eqn:Htext; [|done].
    rewrite bind_or_raise_Some.
    destruct (json_loads text) as [v'|] eqn:Hv; [|done].
    intros [= <-]. exists encrypted_data, decrypted_data, text.
    repeat split; try done.
    destruct (decide (length encrypted_data < 46)) as [Hshort|]; [|lia].
    by rewrite decrypt_data_short in Hdec.
  - done.
Qed.

(** X4. Registration returns a record only when it was saved.
    [register_user] never raises and returns the new record or [None]. When
    it returns the record, the profile file holds the container of its JSON
    text, written with the 28 bytes of entropy that follow the key's 32.
    When the JSON text does not encode or [encrypt_data] raises, which is
    before the file is opened, it returns [None] and the file is as it was.
    The relay and the record in memory are untouched. *)
Theorem register_user_saved username password w :
  let sk := w_rng w <$> seq 0 32 in
  let ud := {| username := username;
               identity_public_key := b64encode (crypto_scalarmult_base sk);
               identity_private_key := b64encode sk;
               db_profiles := ∅ |} in
  let r := register_user username password w in
  (r.1 = Ok None ∨ r.1 = Ok (Some ud))
  ∧ (r.1 = Ok (Some ud) →
     ∃ json_data encrypted_data,
       utf8_encode (json_dumps ud) = Some json_data
       ∧ (encrypt_data json_data password (drawn 32 w)).1 = Ok encrypted_data
       ∧ w_profile_file r.2 = Some encrypted_data)
  ∧ (utf8_encode (json_dumps ud) = None
     ∨ (∃ json_data e,
          utf8_encode (json_dumps ud) = Some json_data
          ∧ (encrypt_data json_data password (drawn 32 w)).1 = Raise e) →
     r.1 = Ok None ∧ w_profile_file r.2 = w_profile_file w)
  ∧ w_user_data r.2 = w_user_data w
  ∧ w_db r.2 = w_db w.
Proof.
  simpl. unfold register_user, PrivateKey_generate. M_simpl.
  match goal with
  | |- context [_save_user_profile ?u ?p ?w0] =>
      change w0 with (drawn 32 w);
      pose proof (_save_user_profile_raise u p (drawn 32 w)) as Hraise;
      destruct (_save_user_profile u p (drawn 32 w)) as [[[]|e] w'] eqn:Hsave
  end; simpl.
  - revert Hsave. unfold _save_user_profile. M_simpl.
    destruct (utf8_encode (json_dumps _)) as [json_data|]; M_simpl; [|done].
    pose proof (encrypt_data_world json_data password (drawn 32 w)) as Hw.
    destruct (encrypt_data json_data password (drawn 32 w))
      as [[encrypted_data|e] w''] eqn:Henc; simpl in *; [|done].
    intros [= <-]. subst w''. simpl.
    split; [by right|]. split.
    { intros _. exists json_data, encrypted_data. by rewrite Henc. }
    split; [|done].
    intros Hcause. by destruct (Hraise Hcause) as (? & ? & [=] & _).
  - split; [by left|]. split; [by intros [=]|].
    assert (Hframe : w_profile_file w' = w_profile_file w
                     ∧ w_user_data w' = w_user_data w ∧ w_db w' = w_db w).
    { revert Hsave. unfold _save_user_profile. M_simpl.
      destruct (utf8_encode (json_dumps _)) as [json_data|]; M_simpl;
        [|by intros [= _ <-]].
      pose proof (encrypt_data_world json_data password (drawn 32 w)) as Hw.
      destruct (encrypt_data json_data password (drawn 32 w))
        as [[encrypted_data|e'] w'']; simpl in *; [done|].
      intros [= _ <-]. by rewrite Hw. }
    destruct Hframe as (Hfile & Hud & Hdb). simpl in Hfile, Hud, Hdb.
    split; [done|]. done.
Qed.

End LoginTheorems2.

Section RotationRun.
Context `{!Codec, !Argon2, !AesGcm, !NaCl, !Json}.

(** [rotate_key] on a record with a profile, step by step: the record is
    rotated in memory, then the directory is updated, then the profile is
    saved. *)
Lemma rotate_key_run self w profile :
  db_profiles (w_user_data w) !! w_env_url w = Some profile →
  let w1 := (set_user_data (rotated w profile) (drawn 64 w)).2 in
  let w2 :=
    (update_public_key (krm_username self)
       (identity_public_key (rotated w profile)) w1).2 in
  rotate_key self w
  = if reachable (w_db w) then
      match utf8_encode (json_dumps (rotated w profile)) with
      | Some json_data =>
          match encrypt_data json_data (w_password w) w2 with
          | (Ok encrypted_data, w3) =>
              (Ok true, (set_profile_file encrypted_data w3).2)
          | (Raise _, w3) => (Ok false, w3)
          end
      | None => (Ok false, w2)
      end
    else (Ok false, w1).
Proof.
  intros Hprofile. simpl.
  unfold rotate_key, set_db_profile, set_identity_keys, fresh_keypair,
    PrivateKey_generate, update_public_key.
  M_simpl. rewrite Hprofile. M_simpl.
  rewrite insert_insert_eq. fold (retire profile).
  destruct (reachable (w_db w)); M_simpl; [|done].
  unfold rotated. simpl.
  destruct (utf8_encode _) as [json_data|]; M_simpl; [|done].
  match goal with
  | |- context [encrypt_data ?d ?p ?w0] =>
      destruct (encrypt_data d p w0) as [[encrypted_data|e] w'']
  end; done.
Qed.

End RotationRun.

Section RotationTheorems.
Context `{!Codec, !Argon2, !AesGcm, !NaCl, !Json}.

Lemma update_public_key_world name pk w :
  (update_public_key name pk w).2
  = if reachable (w_db w) then
      (set_db {| reachable := reachable (w_db w);
                 users_public_keys :=
                   match users_public_keys (w_db w) !! name with
                   | Some _ => <[name := (pk, w_now w)]> (users_public_keys (w_db w))
                   | None => users_public_keys (w_db w)
                   end;
                 message_log := message_log (w_db w) |} w).2
    else w.
Proof. unfold update_public_key. M_simpl. by destruct (reachable (w_db w)). Qed.

(** [rotate_key] leaves the clock, the environment and the password
    prompt's answer as they are. *)
Lemma rotate_key_frame self w :
  let w' := (rotate_key self w).2 in
  w_now w' = w_now w ∧ w_now_iso w' = w_now_iso w
  ∧ w_env_url w' = w_env_url w ∧ w_password w' = w_password w.
Proof.
  simpl.
  destruct (db_profiles (w_user_data w) !! w_env_url w) as [profile|] eqn:Hp.
  - rewrite (rotate_key_run self w profile Hp).
    destruct (reachable (w_db w)) eqn:Hup; [|done].
    destruct (utf8_encode _) as [json_data|].
    + match goal with
      | |- context [encrypt_data ?d ?p ?w0] =>
          pose proof (encrypt_data_world d p w0) as Hw;
          destruct (encrypt_data d p w0) as [[encrypted_data|e] w'']
      end; simpl in Hw; subst w''; rewrite update_public_key_world; simpl;
        by rewrite Hup.
    + rewrite update_public_key_world. simpl. by rewrite Hup.
  - unfold rotate_key. M_simpl. by rewrite Hp.
Qed.

(** X6. Rotation with the relay out of reach. [rotate_key] returns
    [False], the relay and the profile file are as they were, and yet the
    record in memory is already rotated: a new identity key from bytes
    32..63 of the entropy, a new keypair of the profile, the previous one
    retired. *)
Theorem rotate_key_unreachable self w profile :
  db_profiles (w_user_data w) !! w_env_url w = Some profile →
  reachable (w_db w) = false →
  let r := rotate_key self w in
  r.1 = Ok false
  ∧ w_user_data r.2 = rotated w profile
  ∧ identity_private_key (w_user_data r.2)
    = b64encode ((λ i, w_rng w (32 + i)) <$> seq 0 32)
  ∧ w_db r.2 = w_db w
  ∧ w_profile_file r.2 = w_profile_file w
  ∧ ∀ i, w_rng r.2 i = w_rng w (64 + i).
Proof.
  intros Hp Hdown. simpl.
  rewrite (rotate_key_run self w profile Hp), Hdown. done.
Qed.

(** What [rotate_key] leaves on a reachable relay where the user has a
    row: the in-memory record is rotated and its new identity key is in
    the directory, whether or not the save that follows succeeds. *)
Lemma rotate_key_directory self w profile row :
  db_profiles (w_user_data w) !! w_env_url w = Some profile →
  reachable (w_db w) = true →
  users_public_keys (w_db w) !! krm_username self = Some row →
  let r := rotate_key self w in
  w_user_data r.2 = rotated w profile
  ∧ get_user_public_key (w_db r.2) (krm_username self)
    = Some (identity_public_key (rotated w profile))
  ∧ (∀ other, other ≠ krm_username self →
       get_user_public_key (w_db r.2) other = get_user_public_key (w_db w) other)
  ∧ message_log (w_db r.2) = message_log (w_db w).
Proof.
  intros Hp Hup Hrow. simpl.
  rewrite (rotate_key_run self w profile Hp), Hup.
  set (w1 := (set_user_data (rotated w profile) (drawn 64 w)).2).
  set (w2 := (update_public_key _ _ w1).2).
  assert (Hw2 : w_user_data w2 = rotated w profile
                ∧ get_user_public_key (w_db w2) (krm_username self)
                  = Some (identity_public_key (rotated w profile))
                ∧ (∀ other, other ≠ krm_username self →
                    get_user_public_key (w_db w2) other
                    = get_user_public_key (w_db w) other)
                ∧ message_log (w_db w2) = message_log (w_db w)).
  { unfold w2. rewrite update_public_key_world. unfold w1. simpl.
    rewrite Hup, Hrow. simpl. unfold get_user_public_key. simpl.
    rewrite Hup, lookup_insert_eq. repeat split; try done.
    intros other Hother. by rewrite lookup_insert_ne. }
  destruct (utf8_encode _) as [json_data|] eqn:Hjson; [|done].
  pose proof (encrypt_data_world json_data (w_password w) w2) as Hw.
  by destruct (encrypt_data json_data (w_password w) w2)
    as [[encrypted_data|e] w3] eqn:Henc; cbn [fst snd] in Hw;
    subst w3; cbn [fst snd].
Qed.

(** What [rotate_key] leaves of the profile file on a reachable relay: the
    container of the rotated record when it returns [True]; and when the
    JSON text of the record does not encode or [encrypt_data] raises, which
    is before the file is opened, it returns [False] with the file as it
    was. *)
Lemma rotate_key_profile_file self w profile :
  db_profiles (w_user_data w) !! w_env_url w = Some profile →
  reachable (w_db w) = true →
  let r := rotate_key self w in
  (r.1 = Ok false ∨ r.1 = Ok true)
  ∧ (r.1 = Ok true →
     ∃ json_data encrypted_data,
       utf8_encode (json_dumps (rotated w profile)) = Some json_data
       ∧ (encrypt_data json_data (w_password w) (drawn 64 w)).1
         = Ok encrypted_data
       ∧ w_profile_file r.2 = Some encrypted_data)
  ∧ (utf8_encode (json_dumps (rotated w profile)) = None
     ∨ (∃ json_data e,
          utf8_encode (json_dumps (rotated w profile)) = Some json_data
          ∧ (encrypt_data json_data (w_password w) (drawn 64 w)).1 = Raise e) →
     r.1 = Ok false ∧ w_profile_file r.2 = w_profile_file w).
Proof.
  intros Hp Hup. simpl.
  rewrite (rotate_key_run self w profile Hp), Hup.
  set (w1 := (set_user_data (rotated w profile) (drawn 64 w)).2).
  set (w2 := (update_public_key _ _ w1).2).
  assert (Hw2 : w_profile_file w2 = w_profile_file w
                ∧ w_rng w2 = w_rng (drawn 64 w)
                ∧ w_now_iso w2 = w_now_iso (drawn 64 w)).
  { unfold w2. rewrite update_public_key_world. unfold w1. simpl.
    by rewrite Hup. }
  destruct Hw2 as (Hfile & Hrng & Hiso).
  destruct (utf8_encode _) as [json_data|] eqn:Hjson;
    [|split; [by left|]; split; [by intros [=]|done]].
  pose proof (encrypt_data_result_ext json_data (w_password w) w2
                (drawn 64 w) Hrng Hiso) as Hext.
  pose proof (encrypt_data_world json_data (w_password w) w2) as Hw.
  destruct (encrypt_data json_data (w_password w) w2)
    as [[encrypted_data|e] w3] eqn:Henc; cbn [fst snd] in Hw, Hext;
    subst w3; cbn [fst snd].
  - split; [by right|]. split.
    + intros _. exists json_data, encrypted_data. by rewrite <- Hext.
    + intros [[=]|(json_data' & e & [= <-] & Hraise)].
      by rewrite <- Hext in Hraise.
  - split; [by left|]. split; [by intros [=]|done].
Qed.

(** X7. Rotation publishes before it saves. On a reachable relay where the
    user has a row, after [rotate_key] the directory holds the new identity
    public key and the record in memory is rotated, whatever [rotate_key]
    returns; the other rows and the message log are untouched. When the
    JSON text of the rotated record does not encode or [encrypt_data] raises
    (on a password that does not encode, say), which is before the file is
    opened, it returns [False] with the profile file as it was, so the file
    and the directory disagree; when it returns [True] the file holds the
    container of the rotated record. *)
Theorem rotate_key_publishes_first self w profile row :
  db_profiles (w_user_data w) !! w_env_url w = Some profile →
  reachable (w_db w) = true →
  users_public_keys (w_db w) !! krm_username self = Some row →
  let r := rotate_key self w in
  w_user_data r.2 = rotated w profile
  ∧ get_user_public_key (w_db r.2) (krm_username self)
    = Some (identity_public_key (rotated w profile))
  ∧ (∀ other, other ≠ krm_username self →
       get_user_public_key (w_db r.2) other = get_user_public_key (w_db w) other)
  ∧ message_log (w_db r.2) = message_log (w_db w)
  ∧ (r.1 = Ok false ∨ r.1 = Ok true)
  ∧ (utf8_encode (json_dumps (rotated w profile)) = None
     ∨ (∃ json_data e,
          utf8_encode (json_dumps (rotated w profile)) = Some json_data
          ∧ (encrypt_data json_data (w_password w) (drawn 64 w)).1 = Raise e) →
     r.1 = Ok false ∧ w_profile_file r.2 = w_profile_file w)
  ∧ (r.1 = Ok true →
     ∃ json_data encrypted_data,
       utf8_encode (json_dumps (rotated w profile)) = Some json_data
       ∧ (encrypt_data json_data (w_password w) (drawn 64 w)).1
         = Ok encrypted_data
       ∧ w_profile_file r.2 = Some encrypted_data).
Proof.
  intros Hp Hup Hrow r.
  destruct (rotate_key_directory self w profile row Hp Hup Hrow)
    as (Hud & Hkey & Hothers & Hlog).
  destruct (rotate_key_profile_file self w profile Hp Hup)
    as (Hcases & Htrue & Hfalse).
  by do 6 (split; [done|]).
Qed.

End RotationTheorems.

Section RotationTheorems2.
Context `{!Codec, !Argon2, !AesGcm, !NaCl, !Json, !JsonLoads}.

(** X8. After a rotation on a profile, whatever it returned,
    [check_key_rotation_needed] at the same clock is [False]: the current
    keypair was created at that clock reading. *)
Theorem rotate_key_then_not_due self w profile :
  db_profiles (w_user_data w) !! w_env_url w = Some profile →
  let w' := (rotate_key self w).2 in
  check_key_rotation_needed w' = false
  ∧ ∃ kp, (db_profiles (w_user_data w') !! w_env_url w') ≫= current_keypair
          = Some kp
          ∧ created_at kp = w_now w'.
Proof.
  intros Hp. simpl.
  destruct (rotate_key_frame self w) as (Hnow & _ & Hurl & _).
  unfold check_key_rotation_needed.
  rewrite Hurl, Hnow, (rotate_key_user_data self w profile Hp). simpl.
  rewrite lookup_insert_eq. simpl. rewrite String.eqb_refl.
  split; [done|]. by eexists.
Qed.

Context `{!Argon2Ok, !AesGcmOk, !CodecOk}.

(** X9. A successful rotation is saved. On a reachable relay, with a
    password that encodes, an ASCII clock reading of at most 32 characters
    and a rotated record whose JSON text encodes and reads back,
    [rotate_key] returns [True]; [login_user] with the password entered,
    and [get_user_data], then return the rotated record. It returns [True]
    also when the user has no row in the directory, and then the directory
    is as it was: nothing was published. *)
Theorem rotate_key_saves_rotated_record self w profile secret json_data :
  db_profiles (w_user_data w) !! w_env_url w = Some profile →
  reachable (w_db w) = true →
  utf8_encode (w_password w) = Some secret →
  ascii_only (w_now_iso w) = true →
  String.length (w_now_iso w) ≤ 32 →
  utf8_encode (json_dumps (rotated w profile)) = Some json_data →
  json_loads (json_dumps (rotated w profile)) = Some (UserData (rotated w profile)) →
  let r := rotate_key self w in
  r.1 = Ok true
  ∧ w_user_data r.2 = rotated w profile
  ∧ login_user (w_password w) r.2 = Some (UserData (rotated w profile))
  ∧ get_user_data r.2 = Some (UserData (w_user_data r.2))
  ∧ (users_public_keys (w_db w) !! krm_username self = None →
     users_public_keys (w_db r.2) = users_public_keys (w_db w)).
Proof.
  intros Hp Hup Hpw Hascii Hnow Hjson Hv. simpl.
  rewrite (rotate_key_run self w profile Hp), Hup, Hjson.
  set (w1 := (set_user_data (rotated w profile) (drawn 64 w)).2).
  set (w2 := (update_public_key _ _ w1).2).
  assert (Hw2 : w_now_iso w2 = w_now_iso w ∧ w_password w2 = w_password w
                ∧ w_user_data w2 = rotated w profile
                ∧ (users_public_keys (w_db w) !! krm_username self = None →
                   users_public_keys (w_db w2) = users_public_keys (w_db w))).
  { unfold w2. rewrite update_public_key_world. unfold w1. simpl.
    rewrite Hup. simpl. repeat split; try done. by intros ->. }
  destruct Hw2 as (Hiso & Hpass & Hud & Hnorow).
  destruct (encrypt_data_ascii_clock json_data (w_password w) w2 secret)
    as (encrypted_data & Henc & Hdec); [done|by rewrite Hiso..|].
  rewrite Henc. cbn [fst snd].
  assert (Hload : load_user_profile encrypted_data (w_password w)
                  = Ok (UserData (rotated w profile))).
  { apply (load_user_profile_container json_data _
             (json_dumps (rotated w profile))); [done| |done].
    by apply utf8_decode_encode. }
  unfold login_user, get_user_data. simpl. rewrite Hpass, Hload, Hud.
  by repeat split.
Qed.

(** X10. After [_register_user_key] on a reachable relay the user has a row
    with the identity public key of the record, the other rows being
    untouched; a rotation that follows therefore publishes the new identity
    public key, made from bytes 32..63 of the entropy, whatever it
    returns. *)
Theorem register_user_key_rotate_key dbm self w profile :
  dbm_username dbm = krm_username self →
  db_profiles (w_user_data w) !! w_env_url w = Some profile →
  reachable (w_db w) = true →
  let w1 := (_register_user_key dbm w).2 in
  let r := rotate_key self w1 in
  get_user_public_key (w_db w1) (krm_username self)
  = Some (identity_public_key (w_user_data w))
  ∧ (∀ other, other ≠ krm_username self →
       get_user_public_key (w_db w1) other = get_user_public_key (w_db w) other)
  ∧ get_user_public_key (w_db r.2) (krm_username self)
    = Some (identity_public_key (w_user_data r.2))
  ∧ identity_public_key (w_user_data r.2)
    = b64encode (crypto_scalarmult_base ((λ i, w_rng w (32 + i)) <$> seq 0 32)).
Proof.
  intros Hname Hp Hup. simpl.
  set (w1 := (_register_user_key dbm w).2).
  assert (Hw1 : w_user_data w1 = w_user_data w ∧ w_env_url w1 = w_env_url w
                ∧ w_rng w1 = w_rng w ∧ reachable (w_db w1) = true
                ∧ users_public_keys (w_db w1)
                  = <[krm_username self :=
                        (identity_public_key (w_user_data w), w_now w)]>
                      (users_public_keys (w_db w))).
  { unfold w1, _register_user_key. M_simpl. rewrite Hup, Hname.
    by destruct (users_public_keys (w_db w) !! krm_username self). }
  destruct Hw1 as (Hud & Hurl & Hrng & Hup1 & Hdir).
  assert (Hp1 : db_profiles (w_user_data w1) !! w_env_url w1 = Some profile)
    by by rewrite Hud, Hurl.
  destruct (rotate_key_directory self w1 profile
              (identity_public_key (w_user_data w), w_now w) Hp1 Hup1)
    as (Hrot & Hkey & _); [by rewrite Hdir, lookup_insert_eq|].
  unfold get_user_public_key at 1 2 3. rewrite Hup1, Hup, Hdir.
  split; [by rewrite lookup_insert_eq|].
  split; [intros other Hother; by rewrite lookup_insert_ne|].
  rewrite Hkey, Hrot. split; [done|]. unfold rotated. simpl. by rewrite Hrng.
Qed.

End RotationTheorems2.

Section Managers.
Context `{!Codec, !NaCl}.

(** X11. The keypair of the profile is minted once.
    [_initialize_chat_keypair] leaves a world whose profile has a current
    keypair as it is; where the profile has none it sets one from the next
    32 bytes of entropy and the clock and keeps the old keys; where there is
    no profile it creates one with that keypair and no old keys. Afterwards
    the profile of the current database has a current keypair; the other
    profiles, the identity keys, the relay and the profile file are
    untouched, so a keypair it minted is in memory only; and a second run
    changes nothing. *)
Theorem initialize_chat_keypair_once w :
  let w' := (_initialize_chat_keypair w).2 in
  let sk := w_rng w <$> seq 0 32 in
  let fresh := {| private_key := b64encode sk;
                  public_key := b64encode (crypto_scalarmult_base sk);
                  created_at := w_now w |} in
  (∀ profile kp,
     db_profiles (w_user_data w) !! w_env_url w = Some profile →
     current_keypair profile = Some kp →
     _initialize_chat_keypair w = (Ok (), w))
  ∧ (∀ profile,
       db_profiles (w_user_data w) !! w_env_url w = Some profile →
       current_keypair profile = None →
       db_profiles (w_user_data w') !! w_env_url w
       = Some {| current_keypair := Some fresh; old_keys := old_keys profile |})
  ∧ (db_profiles (w_user_data w) !! w_env_url w = None →
     db_profiles (w_user_data w') !! w_env_url w
     = Some {| current_keypair := Some fresh; old_keys := Some [] |})
  ∧ (∃ profile kp,
       db_profiles (w_user_data w') !! w_env_url w' = Some profile
       ∧ current_keypair profile = Some kp)
  ∧ (∀ other, other ≠ w_env_url w →
       db_profiles (w_user_data w') !! other
       = db_profiles (w_user_data w) !! other)
  ∧ identity_private_key (w_user_data w') = identity_private_key (w_user_data w)
  ∧ identity_public_key (w_user_data w') = identity_public_key (w_user_data w)
  ∧ w_db w' = w_db w
  ∧ w_profile_file w' = w_profile_file w
  ∧ _initialize_chat_keypair w' = (Ok (), w').
Proof.
  simpl.
  unfold _initialize_chat_keypair, fresh_keypair, PrivateKey_generate,
    set_db_profile.
  M_simpl.
  destruct (db_profiles (w_user_data w) !! w_env_url w) as [profile|] eqn:Hp.
  - destruct (current_keypair profile) as [kp|] eqn:Hkp; M_simpl.
    + rewrite ?Hp, ?Hkp. M_simpl.
      split; [done|]. split; [intros ? [= <-] ?; congruence|].
      split; [done|]. split; [by exists profile, kp|]. done.
    + rewrite lookup_insert_eq. M_simpl.
      split; [intros ? ? [= <-] ?; congruence|].
      split; [by intros ? [= <-]|]. split; [done|].
      split; [by eexists _, _|].
      split; [intros other Hother; by rewrite lookup_insert_ne|]. done.
  - M_simpl. rewrite lookup_insert_eq. M_simpl.
    split; [done|]. split; [done|]. split; [done|].
    split; [by eexists _, _|].
    split; [intros other Hother; by rewrite lookup_insert_ne|]. done.
Qed.

(** X12. A manager is built from well-formed identity keys or not at all.
    When [ChatManager.__init__] raises, one of the two identity key strings
    failed to decode to 32 bytes and the world is unchanged: no keypair was
    minted. When it returns, the manager holds the username and the two
    decoded keys, 32 bytes each, and the world is the one
    [_initialize_chat_keypair] leaves. *)
Theorem ChatManager_init_keys w :
  let r := ChatManager_init w in
  let ud := w_user_data w in
  (∀ e, r.1 = Raise e →
     r.2 = w
     ∧ (decode_private_key (identity_private_key ud) = Raise e
        ∨ decode_public_key (identity_public_key ud) = Raise e))
  ∧ (∀ self, r.1 = Ok self →
       r.2 = (_initialize_chat_keypair w).2
       ∧ cm_username self = username ud
       ∧ b64decode (identity_private_key ud) = Some (cm_identity_private_key self)
       ∧ b64decode (identity_public_key ud) = Some (cm_identity_public_key self)
       ∧ length (cm_identity_private_key self) = 32
       ∧ length (cm_identity_public_key self) = 32).
Proof.
  simpl. unfold ChatManager_init. M_simpl.
  destruct (decode_private_key _) as [sk|e1] eqn:Hsk; M_simpl.
  2: { split; [|done]. intros e [= <-]. split; [done|by left]. }
  destruct (decode_public_key _) as [pk|e2] eqn:Hpk; M_simpl.
  2: { split; [|done]. intros e [= <-]. split; [done|by right]. }
  destruct (_initialize_chat_keypair_ok w) as (w' & Hw'). rewrite Hw'.
  split; [done|]. intros self [= <-]. simpl.
  unfold decode_private_key, PrivateKey in Hsk.
  unfold decode_public_key, PublicKey in Hpk.
  destruct (b64decode (identity_private_key _)) as [raw_sk|]; [|done].
  destruct (b64decode (identity_public_key _)) as [raw_pk|]; [|done].
  simpl in Hsk, Hpk.
  destruct (bool_decide_reflect (length raw_sk = 32)); [|done].
  destruct (bool_decide_reflect (length raw_pk = 32)); [|done].
  by simplify_eq.
Qed.

(** X13. What a send leaves. [send_message] never raises. When it returns
    [False] the relay is as it was. When it returns [True] the relay was
    reachable, the recipient's key decoded, the message encoded, and exactly
    one row was appended: from the manager's user to the recipient, stamped
    with the clock, carrying the Base64 text of the box under the next 24
    bytes of entropy. The directory, the user record and the profile file
    are never touched. *)
Theorem send_message_outcome self recipient pk_str message w :
  let r := send_message self recipient pk_str message w in
  (r.1 = Ok false ∨ r.1 = Ok true)
  ∧ (r.1 = Ok false → w_db r.2 = w_db w)
  ∧ (r.1 = Ok true →
     reachable (w_db w) = true
     ∧ ∃ pk box plaintext encrypted,
         decode_public_key pk_str = Ok pk
         ∧ Box (cm_identity_private_key self) pk = Some box
         ∧ utf8_encode message = Some plaintext
         ∧ Box_encrypt box plaintext (w_rng w <$> seq 0 24) = Some encrypted
         ∧ message_log (w_db r.2)
           = message_log (w_db w)
             ++ [{| sender_username := cm_username self;
                    recipient_username := recipient;
                    ciphertext := b64encode encrypted;
                    timestamp := w_now w |}])
  ∧ users_public_keys (w_db r.2) = users_public_keys (w_db w)
  ∧ reachable (w_db r.2) = reachable (w_db w)
  ∧ w_user_data r.2 = w_user_data w
  ∧ w_profile_file r.2 = w_profile_file w.
Proof.
  simpl. unfold send_message, db_send_message. M_simpl.
  destruct (decode_public_key pk_str) as [pk|]; M_simpl;
    [|split; [by left|]; split; [done|]; split; [by intros [=]|done]].
  destruct (Box _ _) as [box|] eqn:Hbox; M_simpl;
    [|split; [by left|]; split; [done|]; split; [by intros [=]|done]].
  destruct (utf8_encode message) as [plaintext|]; M_simpl;
    [|split; [by left|]; split; [done|]; split; [by intros [=]|done]].
  destruct (Box_encrypt _ _ _) as [encrypted|] eqn:Henc; M_simpl;
    [|split; [by left|]; split; [done|]; split; [by intros [=]|done]].
  destruct (reachable (w_db w)) eqn:Hup; M_simpl;
    [|split; [by left|]; split; [done|]; split; [by intros [=]|done]].
  split; [by right|]. split; [by intros [=]|]. split; [|done].
  intros _. split; [done|]. by exists pk, box, plaintext, encrypted.
Qed.

End Managers.

Section ReceiveMore.
Context `{!Codec, !NaCl}.

Lemma elem_of_concat {A} (x : A) (ls : list (list A)) :
  x ∈ concat ls → ∃ l, x ∈ l ∧ l ∈ ls.
Proof.
  induction ls as [|l ls IH]; simpl; [by intros ?%elem_of_nil|].
  intros [Hx|Hx]%elem_of_app.
  - exists l. split; [done|]. by left.
  - destruct (IH Hx) as (l' & Hl' & Hin). exists l'. split; [done|]. by right.
Qed.

(** Where an entry of [receive_one] comes from. *)
Lemma receive_one_origin self w msg entry :
  entry ∈ receive_one self w msg →
  ∃ pk_str s,
    get_user_public_key (w_db w) (sender_username msg) = Some pk_str
    ∧ entry = decrypted_entry msg s
    ∧ (open_with_current self pk_str (ciphertext msg) = Ok s
       ∨ raises (open_with_current self pk_str (ciphertext msg))
         ∧ s ≠ ""
         ∧ ∃ profile pk k,
             db_profiles (w_user_data w) !! w_env_url w = Some profile
             ∧ decode_public_key pk_str = Ok pk
             ∧ k ∈ default [] (old_keys profile)
             ∧ open_with_old_key k pk (ciphertext msg) = Ok s).
Proof.
  unfold receive_one, _try_decrypt_with_old_keys.
  destruct (get_user_public_key _ _) as [pk_str|]; [|by intros ?%elem_of_nil].
  destruct (negb (truthy pk_str)); [by intros ?%elem_of_nil|].
  destruct (open_with_current _ _ _) as [s|e] eqn:Hopen.
  { intros ->%list_elem_of_singleton. exists pk_str, s. by repeat split; left. }
  destruct (db_profiles _ !! _) as [profile|]; [|by intros ?%elem_of_nil].
  destruct (decode_public_key pk_str) as [pk|] eqn:Hpk;
    [|by intros ?%elem_of_nil].
  destruct (try_each_old_key _ _ _) as [s|] eqn:Hold; [|by intros ?%elem_of_nil].
  destruct s as [|c s]; simpl; [by intros ?%elem_of_nil|].
  intros ->%list_elem_of_singleton.
  apply try_each_old_key_Some in Hold as (older & k & newer & Hkeys & _ & Hk).
  exists pk_str, (String c s). split; [done|]. split; [done|]. right.
  split; [by exists e|]. split; [done|].
  exists profile, pk, k. split; [done|]. split; [done|]. split; [|done].
  rewrite Hkeys. set_solver.
Qed.

(** [receive_one] looks at the directory, the record and the environment,
    not at the message log. *)
Lemma receive_one_ext self w w' msg :
  (∀ name, get_user_public_key (w_db w') name = get_user_public_key (w_db w) name) →
  w_user_data w' = w_user_data w →
  w_env_url w' = w_env_url w →
  receive_one self w' msg = receive_one self w msg.
Proof.
  intros Hdir Hud Hurl. unfold receive_one, _try_decrypt_with_old_keys.
  by rewrite Hdir, Hud, Hurl.
Qed.

Lemma receive_one_sublist self w msg :
  (λ e, (dm_sender_username e, dm_timestamp e)) <$> receive_one self w msg
  `sublist_of` [(sender_username msg, timestamp msg)].
Proof.
  unfold receive_one.
  destruct (get_user_public_key _ _) as [pk_str|]; [|apply sublist_nil_l].
  destruct (negb (truthy pk_str)); [apply sublist_nil_l|].
  destruct (open_with_current _ _ _) as [s|e]; [done|].
  destruct (_try_decrypt_with_old_keys _ _ _) as [s|]; [|apply sublist_nil_l].
  destruct (truthy s); [done|apply sublist_nil_l].
Qed.

(** X14. Every entry [receive_messages] returns stems from a row of the
    message log that is addressed to the manager's user and not sent by
    [system], and whose sender has a key in the directory; its content is
    what the manager's identity key opened or, when that raised, a non-empty
    text that one of the old keys of the current profile opened. The entries
    follow the order of the log, there are at most as many as rows, and with
    the relay out of reach there are none. *)
Theorem receive_messages_sound self w :
  (∀ entry, entry ∈ receive_messages self w →
     ∃ msg pk_str s,
       msg ∈ message_log (w_db w)
       ∧ recipient_username msg = cm_username self
       ∧ sender_username msg ≠ "system"
       ∧ get_user_public_key (w_db w) (sender_username msg) = Some pk_str
       ∧ entry = decrypted_entry msg s
       ∧ (open_with_current self pk_str (ciphertext msg) = Ok s
          ∨ raises (open_with_current self pk_str (ciphertext msg))
            ∧ s ≠ ""
            ∧ ∃ profile pk k,
                db_profiles (w_user_data w) !! w_env_url w = Some profile
                ∧ decode_public_key pk_str = Ok pk
                ∧ k ∈ default [] (old_keys profile)
                ∧ open_with_old_key k pk (ciphertext msg) = Ok s))
  ∧ (λ e, (dm_sender_username e, dm_timestamp e)) <$> receive_messages self w
    `sublist_of` (λ m, (sender_username m, timestamp m)) <$> message_log (w_db w)
  ∧ length (receive_messages self w) ≤ length (message_log (w_db w))
  ∧ (reachable (w_db w) = false → receive_messages self w = []).
Proof.
  assert (Hsub :
    (λ e, (dm_sender_username e, dm_timestamp e)) <$> receive_messages self w
    `sublist_of` (λ m, (sender_username m, timestamp m)) <$> message_log (w_db w)).
  { unfold receive_messages. rewrite receive_loop_concat. simpl.
    transitivity ((λ m, (sender_username m, timestamp m))
                    <$> get_messages (w_db w) (cm_username self)).
    - induction (get_messages _ _) as [|msg batch IH]; simpl; [done|].
      rewrite fmap_app.
      apply (sublist_app _ [_] _ _); [apply receive_one_sublist|done].
    - apply fmap_sublist. unfold get_messages.
      destruct (reachable (w_db w)); [|apply sublist_nil_l].
      etransitivity; apply sublist_filter. }
  split; [|split; [done|split]].
  - intros entry. unfold receive_messages. rewrite receive_loop_concat. simpl.
    intros (entries & Hentry & (msg & -> & Hmsg)%list_elem_of_fmap)%elem_of_concat.
    apply receive_one_origin in Hentry as (pk_str & s & Hdir & -> & Hopen).
    unfold get_messages in Hmsg.
    destruct (reachable (w_db w)); [|by apply elem_of_nil in Hmsg].
    apply list_elem_of_filter in Hmsg as [Hsys Hmsg].
    apply list_elem_of_filter in Hmsg as [Hto Hmsg].
    by exists msg, pk_str, s.
  - apply sublist_length in Hsub. by rewrite !length_fmap in Hsub.
  - intros Hdown. unfold receive_messages, get_messages. by rewrite Hdown.
Qed.

End ReceiveMore.

Section Delivery.
Context `{!Codec, !NaCl}.

(** The relay after a row was appended gives each user the rows it gave
    before, and the recipient the new row as well unless [system] sent
    it. *)
Lemma get_messages_app d row name :
  get_messages
    {| reachable := reachable d; users_public_keys := users_public_keys d;
       message_log := message_log d ++ [row] |} name
  = get_messages d name
    ++ (if reachable d then
          if bool_decide (recipient_username row = name
                          ∧ sender_username row ≠ "system")
          then [row] else []
        else []).
Proof.
  unfold get_messages. simpl.
  destruct (reachable d); [|done].
  rewrite !filter_app. f_equal.
  rewrite !filter_cons, !filter_nil.
  destruct (decide (recipient_username row = name)) as [Hto|Hto].
  - rewrite filter_cons, filter_nil.
    destruct (decide (sender_username row ≠ "system")) as [Hsys|Hsys].
    + by rewrite bool_decide_eq_true_2.
    + rewrite bool_decide_eq_false_2; [done|]. by intros [_ ?].
  - rewrite filter_nil. rewrite bool_decide_eq_false_2; [done|]. by intros [? _].
Qed.

Lemma receive_messages_ext self w w' :
  get_messages (w_db w') (cm_username self)
  = get_messages (w_db w) (cm_username self) →
  (∀ name, get_user_public_key (w_db w') name = get_user_public_key (w_db w) name) →
  w_user_data w' = w_user_data w →
  w_env_url w' = w_env_url w →
  receive_messages self w' = receive_messages self w.
Proof.
  intros Hmsgs Hdir Hud Hurl. unfold receive_messages.
  rewrite !receive_loop_concat, Hmsgs. simpl. f_equal.
  apply list_fmap_ext. intros _ msg _. by apply receive_one_ext.
Qed.

(** What [send_message] leaves of the relay: one more row when it returns
    [True], nothing changed otherwise. *)
Lemma send_message_relay self recipient pk_str message w :
  let r := send_message self recipient pk_str message w in
  (r.1 = Ok true
   ∧ ∃ sealed,
       w_db r.2
       = {| reachable := reachable (w_db w);
            users_public_keys := users_public_keys (w_db w);
            message_log := message_log (w_db w)
              ++ [{| sender_username := cm_username self;
                     recipient_username := recipient;
                     ciphertext := sealed;
                     timestamp := w_now w |}] |})
  ∨ (r.1 = Ok false ∧ w_db r.2 = w_db w).
Proof.
  simpl. unfold send_message, db_send_message. M_simpl.
  destruct (decode_public_key pk_str) as [pk|]; M_simpl; [|by right].
  destruct (Box _ _) as [box|]; M_simpl; [|by right].
  destruct (utf8_encode message) as [plaintext|]; M_simpl; [|by right].
  destruct (Box_encrypt _ _ _) as [encrypted|]; M_simpl; [|by right].
  destruct (reachable (w_db w)); M_simpl; [|by right].
  left. split; [done|]. by eexists.
Qed.

(** X15. What a user named [system] sends is never delivered:
    [send_message] may return [True] and append its row, but [get_messages]
    gives every user what it gave before, so no [receive_messages]
    changes. *)
Theorem send_message_from_system_hidden self recipient pk_str message w :
  cm_username self = "system" →
  let r := send_message self recipient pk_str message w in
  (∀ name, get_messages (w_db r.2) name = get_messages (w_db w) name)
  ∧ (∀ other wB wB',
       w_db wB = w_db w → w_db wB' = w_db r.2 →
       w_user_data wB' = w_user_data wB → w_env_url wB' = w_env_url wB →
       receive_messages other wB' = receive_messages other wB)
  ∧ (r.1 = Ok true →
     length (message_log (w_db r.2)) = S (length (message_log (w_db w)))).
Proof.
  intros Hsys. simpl.
  set (r := send_message self recipient pk_str message w).
  pose proof (send_message_relay self recipient pk_str message w) as Hdb.
  fold r in Hdb. cbn zeta in Hdb.
  assert (Hmsgs : ∀ name, get_messages (w_db r.2) name = get_messages (w_db w) name).
  { intros name. destruct Hdb as [[_ [sealed ->]]|[_ ->]]; [|done].
    rewrite get_messages_app. simpl.
    rewrite bool_decide_eq_false_2 by (rewrite Hsys; by intros [_ ?]).
    destruct (reachable (w_db w)); by rewrite app_nil_r. }
  assert (Hdir : ∀ name, get_user_public_key (w_db r.2) name
                         = get_user_public_key (w_db w) name).
  { intros name. by destruct Hdb as [[_ [sealed ->]]|[_ ->]]. }
  split; [done|]. split.
  - intros other wB wB' HwB HwB' Hud Hurl.
    apply receive_messages_ext; [|intros name|done..]; by rewrite HwB, HwB'.
  - intros Hr. destruct Hdb as [[_ [sealed ->]]|[Hr' _]]; [|congruence].
    simpl. rewrite length_app. simpl. lia.
Qed.

Section DeliveryLaws.
Context `{!CodecOk, !NaClOk}.

(** A sealed message and its opening, for two 32-byte identity keys. *)
Lemma seal_then_open A_sk B_sk a b message plaintext wA :
  length A_sk = 32 →
  length B_sk = 32 →
  utf8_encode message = Some plaintext →
  reachable (w_db wA) = true →
  let A_pub := crypto_scalarmult_base A_sk in
  let B_pub := crypto_scalarmult_base B_sk in
  let A := {| cm_username := a; cm_identity_private_key := A_sk;
              cm_identity_public_key := A_pub |} in
  let B := {| cm_username := b; cm_identity_private_key := B_sk;
              cm_identity_public_key := B_pub |} in
  ∃ sealed,
    let r := send_message A b (b64encode B_pub) message wA in
    r.1 = Ok true
    ∧ w_db r.2
      = {| reachable := reachable (w_db wA);
           users_public_keys := users_public_keys (w_db wA);
           message_log := message_log (w_db wA)
             ++ [{| sender_username := a; recipient_username := b;
                    ciphertext := sealed; timestamp := w_now wA |}] |}
    ∧ open_with_current B (b64encode A_pub) sealed = Ok message
    ∧ truthy (b64encode A_pub) = true.
Proof.
  intros HA HB Hpt Hup A_pub B_pub A B.
  assert (HApub : length A_pub = 32) by by apply crypto_scalarmult_base_length.
  assert (HBpub : length B_pub = 32) by by apply crypto_scalarmult_base_length.
  set (nonce := w_rng wA <$> seq 0 24).
  destruct (Box_decrypt_encrypt A_sk B_sk HA HB)
    as (box_ab & box_ba & Hab & Hba & Hboxes).
  destruct (Hboxes plaintext nonce) as (encrypted & Henc & Hdec).
  { unfold nonce. by rewrite length_fmap, length_seq. }
  exists (b64encode encrypted).
  destruct (send_message_sealed A b (b64encode B_pub) message wA B_pub box_ab
              plaintext encrypted)
    as [Hret Hlog]; [by apply decode_public_key_encode|done..|].
  cbn zeta. split; [done|].
  destruct (send_message_relay A b (b64encode B_pub) message wA)
    as [[_ (sealed & Hdb)]|[Hret' _]]; [|congruence].
  split.
  { rewrite Hdb in Hlog |- *. simpl in Hlog.
    apply app_inv_head in Hlog. by simplify_eq. }
  split.
  - unfold open_with_current. rewrite decode_public_key_encode by done.
    rewrite bind_Ok. unfold box_open, B, A_pub. simpl.
    rewrite Hba, bind_or_raise_Some.
    rewrite b64decode_encode, bind_or_raise_Some.
    rewrite Hdec, bind_or_raise_Some.
    by rewrite (utf8_decode_encode message plaintext).
  - apply b64encode_truthy. intros Hnil. rewrite Hnil in HApub. simpl in HApub. lia.
Qed.

(** X16. Delivery. When A, not named [system] and with its public key in
    the directory, sends a message that encodes to B's public key over a
    reachable relay, [send_message] returns [True]; B's next
    [receive_messages] returns what it returned before followed by one entry
    carrying A's name, the clock reading of the send and exactly the
    message; and the [receive_messages] of every other user is
    unchanged. *)
Theorem send_message_delivered A_sk B_sk a b message plaintext wA :
  length A_sk = 32 →
  length B_sk = 32 →
  utf8_encode message = Some plaintext →
  reachable (w_db wA) = true →
  a ≠ "system" →
  get_user_public_key (w_db wA) a
  = Some (b64encode (crypto_scalarmult_base A_sk)) →
  let A_pub := crypto_scalarmult_base A_sk in
  let B_pub := crypto_scalarmult_base B_sk in
  let A := {| cm_username := a; cm_identity_private_key := A_sk;
              cm_identity_public_key := A_pub |} in
  let B := {| cm_username := b; cm_identity_private_key := B_sk;
              cm_identity_public_key := B_pub |} in
  let r := send_message A b (b64encode B_pub) message wA in
  r.1 = Ok true
  ∧ ∀ wB wB',
      w_db wB = w_db wA → w_db wB' = w_db r.2 →
      w_user_data wB' = w_user_data wB → w_env_url wB' = w_env_url wB →
      receive_messages B wB'
      = receive_messages B wB
        ++ [{| dm_sender_username := a; dm_timestamp := w_now wA;
               dm_decrypted_content := message |}]
      ∧ ∀ other, cm_username other ≠ b →
          receive_messages other wB' = receive_messages other wB.
Proof.
  intros HA HB Hpt Hup Hsys Hdir A_pub B_pub A B r.
  destruct (seal_then_open A_sk B_sk a b message plaintext wA HA HB Hpt Hup)
    as (sealed & Hret & Hdb & Hopen & Htruthy).
  split; [done|].
  intros wB wB' HwB HwB' Hud Hurl.
  fold A_pub B_pub A B r in Hdb, Hopen.
  assert (Hdir' : ∀ name, get_user_public_key (w_db wB') name
                          = get_user_public_key (w_db wB) name).
  { intros name. by rewrite HwB, HwB', Hdb. }
  split.
  - unfold receive_messages. rewrite !receive_loop_concat. simpl.
    rewrite HwB' at 1. rewrite Hdb, get_messages_app, Hup. simpl.
    rewrite bool_decide_eq_true_2 by done.
    rewrite fmap_app, concat_app. simpl. rewrite app_nil_r. f_equal.
    + rewrite HwB. f_equal. apply list_fmap_ext. intros _ msg _.
      by apply receive_one_ext.
    + unfold receive_one. simpl.
      rewrite HwB', Hdb. unfold get_user_public_key in Hdir |- *. simpl.
      rewrite Hdir, Htruthy. simpl. fold A_pub. by rewrite Hopen.
  - intros other Hother. apply receive_messages_ext; [|done..].
    rewrite HwB, HwB', Hdb, get_messages_app. simpl.
    rewrite bool_decide_eq_false_2 by (by intros [? _]).
    destruct (reachable (w_db wA)); by rewrite app_nil_r.
Qed.

End DeliveryLaws.
End Delivery.

(** ** Sorting by a string key *)

Lemma String_compare_refl s : String.compare s s = Eq.
Proof.
  pose proof (String.compare_antisym s s) as H.
  by destruct (String.compare s s).
Qed.

Lemma String_ltb_irrefl s : String.ltb s s = false.
Proof. unfold String.ltb. by rewrite String_compare_refl. Qed.

Lemma String_leb_ltb a b : String.leb a b = negb (String.ltb b a).
Proof.
  unfold String.leb, String.ltb. rewrite (String.compare_antisym a b).
  by destruct (String.compare b a).
Qed.

Lemma String_ltb_leb a b : String.ltb a b = true → String.leb a b = true.
Proof. unfold String.leb, String.ltb. by destruct (String.compare a b). Qed.

Section SortByKey.
Context {A : Type} (key : A → string).

Lemma insert_by_key_Permutation x l : insert_by_key key x l ≡ₚ x :: l.
Proof.
  induction l as [|y l IH]; simpl; [done|].
  destruct (String.ltb (key y) (key x)); [|done].
  by rewrite IH, Permutation_swap.
Qed.

Lemma sort_by_key_Permutation l : sort_by_key key l ≡ₚ l.
Proof.
  induction l as [|x l IH]; simpl; [done|].
  by rewrite insert_by_key_Permutation, IH.
Qed.

Lemma insert_by_key_HdRel a x l :
  key_le key a x → HdRel (key_le key) a l → HdRel (key_le key) a (insert_by_key key x l).
Proof.
  intros Hax [|y l' Hay]; simpl; [by constructor|].
  destruct (String.ltb (key y) (key x)); by constructor.
Qed.

Lemma insert_by_key_Sorted x l :
  Sorted (key_le key) l → Sorted (key_le key) (insert_by_key key x l).
Proof.
  induction 1 as [|y l Hl IH Hy]; simpl; [by repeat constructor|].
  destruct (String.ltb (key y) (key x)) eqn:Hlt.
  - constructor; [done|]. apply insert_by_key_HdRel; [|done].
    by apply String_ltb_leb.
  - constructor; [by constructor|]. constructor.
    unfold key_le. by rewrite String_leb_ltb, Hlt.
Qed.

Lemma sort_by_key_Sorted l : Sorted (key_le key) (sort_by_key key l).
Proof.
  induction l as [|x l IH]; simpl; [constructor|].
  by apply insert_by_key_Sorted.
Qed.

(** Stability: the elements of one key keep their order. *)
Lemma insert_by_key_filter t x l :
  filter (λ y, key y = t) (insert_by_key key x l)
  = filter (λ y, key y = t) (x :: l).
Proof.
  induction l as [|y l IH]; simpl; [done|].
  destruct (String.ltb (key y) (key x)) eqn:Hlt; [|done].
  rewrite filter_cons, IH, !filter_cons.
  destruct (decide (key y = t)) as [Hy|Hy]; [|done].
  destruct (decide (key x = t)) as [Hx|Hx]; [|done].
  rewrite Hy, Hx, String_ltb_irrefl in Hlt. done.
Qed.

Lemma sort_by_key_filter t l :
  filter (λ y, key y = t) (sort_by_key key l) = filter (λ y, key y = t) l.
Proof.
  induction l as [|x l IH]; simpl; [done|].
  by rewrite insert_by_key_filter, !filter_cons, IH.
Qed.

Lemma Sorted_drop (R : A → A → Prop) n l : Sorted R l → Sorted R (drop n l).
Proof.
  revert l. induction n as [|n IH]; intros l Hl; [by rewrite drop_0|].
  destruct Hl as [|x l Hl _]; simpl; [constructor|]. by apply IH.
Qed.

End SortByKey.

(** ** The last [limit] elements *)

Lemma last_limit_0 {A} (l : list A) : last_limit 0 l = l.
Proof.
  unfold last_limit, slice_from. simpl.
  by destruct (0 <? Z.of_nat (length l))%Z.
Qed.

Lemma last_limit_pos {A} (limit : Z) (l : list A) :
  (0 < limit)%Z →
  last_limit limit l = drop (length l - Z.to_nat limit) l.
Proof.
  intros Hpos. unfold last_limit, slice_from.
  destruct (Z.ltb_spec limit (Z.of_nat (length l))) as [Hlt|Hge].
  - rewrite (proj2 (Z.ltb_lt (- limit) 0)) by lia. f_equal. lia.
  - replace (length l - Z.to_nat limit) with 0 by lia. done.
Qed.

Lemma last_limit_neg {A} (limit : Z) (l : list A) :
  (limit < 0)%Z →
  last_limit limit l = drop (Z.to_nat (- limit)) l.
Proof.
  intros Hneg. unfold last_limit, slice_from.
  rewrite (proj2 (Z.ltb_lt limit (Z.of_nat (length l)))) by lia.
  by rewrite (proj2 (Z.ltb_ge (- limit) 0)) by lia.
Qed.

Lemma last_limit_drop {A} (limit : Z) (l : list A) :
  ∃ n, last_limit limit l = drop n l.
Proof.
  destruct (Z.lt_trichotomy limit 0) as [Hneg|[->|Hpos]].
  - eexists. by apply last_limit_neg.
  - exists 0. by rewrite last_limit_0.
  - eexists. by apply last_limit_pos.
Qed.

(** ** The chat history *)

Section HistoryTheorems.
Context `{!Codec, !NaCl}.

Lemma history_loop_concat self d batch acc :
  history_loop self d batch acc = acc ++ concat (history_one self d <$> batch).
Proof.
  revert acc. induction batch as [|msg rest IH]; intros acc; simpl.
  - by rewrite app_nil_r.
  - by rewrite IH, app_assoc.
Qed.

Lemma foldl_snoc {A} (l acc : list A) :
  foldl (λ acc x, acc ++ [x]) acc l = acc ++ l.
Proof.
  revert acc. induction l as [|x l IH]; intros acc; simpl.
  - by rewrite app_nil_r.
  - by rewrite IH, <- app_assoc.
Qed.

Lemma get_chat_history_unfold self d sent received limit :
  get_chat_history self d sent received limit
  = last_limit limit
      (sort_by_key he_timestamp (concat (history_one self d <$> received))).
Proof.
  unfold get_chat_history.
  by rewrite history_loop_concat, foldl_snoc.
Qed.

Lemma history_one_origin self d msg entry :
  entry ∈ history_one self d msg →
  ∃ pk_str,
    get_user_public_key d (sender_username msg) = Some pk_str
    ∧ open_with_current self pk_str (ciphertext msg) = Ok (he_content entry)
    ∧ he_sender_username entry = sender_username msg
    ∧ he_recipient_username entry = recipient_username msg
    ∧ he_timestamp entry = timestamp msg
    ∧ he_message_type entry = "received".
Proof.
  unfold history_one.
  destruct (get_user_public_key _ _) as [pk_str|]; [|by intros ?%elem_of_nil].
  destruct (truthy pk_str); [|by intros ?%elem_of_nil].
  destruct (open_with_current _ _ _) as [s|e] eqn:Hopen;
    [|by intros ?%elem_of_nil].
  intros ->%list_elem_of_singleton. by exists pk_str.
Qed.

(** X17. The chat history. Every entry of [get_chat_history] is marked
    [received] and stems from one of the received rows, opened with the
    manager's identity key: a row that key cannot open is left out, the old
    keys are not tried. The entries are in non-decreasing order of
    timestamp, there are at most as many as received rows, the sent rows
    have no influence, and when no row opens the history is empty. *)
Theorem get_chat_history_received_sorted self d sent received limit :
  let history := get_chat_history self d sent received limit in
  (∀ entry, entry ∈ history →
     he_message_type entry = "received"
     ∧ ∃ msg pk_str,
         msg ∈ received
         ∧ get_user_public_key d (sender_username msg) = Some pk_str
         ∧ open_with_current self pk_str (ciphertext msg) = Ok (he_content entry)
         ∧ he_sender_username entry = sender_username msg
         ∧ he_recipient_username entry = recipient_username msg
         ∧ he_timestamp entry = timestamp msg)
  ∧ Sorted (key_le he_timestamp) history
  ∧ length history ≤ length received
  ∧ (∀ sent', get_chat_history self d sent' received limit = history)
  ∧ ((∀ msg pk_str,
        msg ∈ received →
        get_user_public_key d (sender_username msg) = Some pk_str →
        raises (open_with_current self pk_str (ciphertext msg))) →
     history = []).
Proof.
  simpl. rewrite get_chat_history_unfold.
  set (decrypted := concat (history_one self d <$> received)).
  destruct (last_limit_drop limit (sort_by_key he_timestamp decrypted))
    as [n Hn]. rewrite Hn.
  assert (Hin : ∀ entry, entry ∈ decrypted →
            ∃ msg, msg ∈ received ∧ entry ∈ history_one self d msg).
  { intros entry (entries & Hentry & (msg & -> & Hmsg)%list_elem_of_fmap)%elem_of_concat.
    by exists msg. }
  split; [|split; [|split; [|split]]].
  - intros entry Hentry%subseteq_drop.
    rewrite sort_by_key_Permutation in Hentry.
    destruct (Hin entry Hentry) as (msg & Hmsg & Hone).
    apply history_one_origin in Hone
      as (pk_str & Hdir & Hopen & Hfrom & Hto & Hts & Htype).
    split; [done|]. by exists msg, pk_str.
  - apply Sorted_drop, sort_by_key_Sorted.
  - rewrite length_drop.
    rewrite (Permutation_length (sort_by_key_Permutation he_timestamp decrypted)).
    assert (length decrypted ≤ length received); [|lia].
    unfold decrypted. clear. induction received as [|msg l IH]; [done|].
    rewrite fmap_cons. cbn [concat length]. rewrite length_app.
    assert (length (history_one self d msg) ≤ 1); [|lia].
    unfold history_one.
    destruct (get_user_public_key _ _) as [pk_str|]; simpl; [|lia].
    destruct (truthy pk_str); simpl; [|lia].
    destruct (open_with_current _ _ _); simpl; lia.
  - intros sent'. by rewrite get_chat_history_unfold.
  - intros Hraise. clear Hn.
    assert (Hnil : decrypted = []); [|rewrite Hnil; simpl; apply drop_nil].
    destruct decrypted as [|entry rest] eqn:Hdec; [done|].
    destruct (Hin entry) as (msg & Hmsg & Hone); [left|].
    apply history_one_origin in Hone as (pk_str & Hdir & Hopen & _).
    destruct (Hraise msg pk_str Hmsg Hdir) as [e He]. congruence.
Qed.

(** X18. The limit of the chat history. A limit of zero gives the whole
    sorted history, not an empty one; a positive limit gives its last
    [limit] entries, all of them when there are fewer; a negative limit
    drops the first [-limit] entries. The result is always an end piece of
    the whole history. *)
Theorem get_chat_history_limit self d sent received :
  let whole := get_chat_history self d sent received 0 in
  whole = sort_by_key he_timestamp (concat (history_one self d <$> received))
  ∧ (∀ limit, (0 < limit)%Z →
       get_chat_history self d sent received limit
       = drop (length whole - Z.to_nat limit) whole
       ∧ length (get_chat_history self d sent received limit)
         = Z.to_nat limit `min` length whole)
  ∧ (∀ limit, (limit < 0)%Z →
       get_chat_history self d sent received limit
       = drop (Z.to_nat (- limit)) whole)
  ∧ (∀ limit, get_chat_history self d sent received limit `suffix_of` whole).
Proof.
  simpl. rewrite !get_chat_history_unfold, last_limit_0.
  set (whole := sort_by_key _ _).
  split; [done|]. split; [|split].
  - intros limit Hpos. rewrite get_chat_history_unfold. fold whole.
    rewrite last_limit_pos by done. split; [done|]. rewrite length_drop. lia.
  - intros limit Hneg. rewrite get_chat_history_unfold. fold whole.
    by rewrite last_limit_neg.
  - intros limit. rewrite get_chat_history_unfold. fold whole.
    destruct (last_limit_drop limit whole) as [n ->]. apply suffix_drop.
Qed.

End HistoryTheorems.

(** ** The local message store *)

Section StorageTheorems.
Context `{!Codec, !Argon2, !AesGcm, !JsonMessages}.

(** X19. A conversation read from the store. [get_chat_messages] returns
    stored messages between the user and the partner only, in non-decreasing
    order of timestamp. With limit zero it returns all of them, messages of
    equal timestamp in the order they were stored; a positive limit keeps
    the last [limit] of these and a negative one drops the first
    [-limit]. *)
Theorem get_chat_messages_conversation self partner_username limit :
  let between msg :=
    (sm_sender msg = ms_username self ∧ sm_recipient msg = partner_username)
    ∨ (sm_sender msg = partner_username ∧ sm_recipient msg = ms_username self) in
  let whole := get_chat_messages self partner_username 0 in
  (∀ msg, msg ∈ get_chat_messages self partner_username limit →
     msg ∈ ms_messages self ∧ between msg)
  ∧ Sorted (key_le sm_timestamp) (get_chat_messages self partner_username limit)
  ∧ whole ≡ₚ filter between (ms_messages self)
  ∧ (∀ t, filter (λ msg, sm_timestamp msg = t) whole
          = filter (λ msg, sm_timestamp msg = t)
              (filter between (ms_messages self)))
  ∧ (∀ limit', (0 < limit')%Z →
       get_chat_messages self partner_username limit'
       = drop (length whole - Z.to_nat limit') whole)
  ∧ (∀ limit', (limit' < 0)%Z →
       get_chat_messages self partner_username limit'
       = drop (Z.to_nat (- limit')) whole).
Proof.
  simpl. unfold get_chat_messages. rewrite last_limit_0.
  set (conversation := filter _ (ms_messages self)).
  split; [|split; [|split; [|split; [|split]]]].
  - destruct (last_limit_drop limit (sort_by_key sm_timestamp conversation))
      as [n ->].
    intros msg Hmsg%subseteq_drop.
    rewrite sort_by_key_Permutation in Hmsg.
    by apply list_elem_of_filter in Hmsg as [? ?].
  - destruct (last_limit_drop limit (sort_by_key sm_timestamp conversation))
      as [n ->].
    apply Sorted_drop, sort_by_key_Sorted.
  - apply sort_by_key_Permutation.
  - intros t. apply sort_by_key_filter.
  - intros limit' Hpos. by apply last_limit_pos.
  - intros limit' Hneg. by apply last_limit_neg.
Qed.

(** [_save_messages] as a whole run. *)
Lemma _save_messages_run self w json_data encrypted_data w' :
  utf8_encode (json_dumps_messages (ms_messages self)) = Some json_data →
  encrypt_data json_data (ms_password self) w = (Ok encrypted_data, w') →
  _save_messages self w
  = (Ok (true, {| ms_username := ms_username self;
                  ms_password := ms_password self;
                  ms_messages := ms_messages self;
                  ms_stored := Some encrypted_data |}), w').
Proof.
  intros Hjson Henc. unfold _save_messages. M_simpl.
  rewrite Hjson. M_simpl. by rewrite Henc.
Qed.

(** X20. A message is kept in memory whether or not it could be saved. On
    a store whose messages are a list of message dicts, [add_message] never
    raises, and the message, stamped with the clock, is appended to the
    messages in memory whatever it returns. When it returns [True] the file
    holds the container of the JSON text of all messages. When that text
    does not encode or [encrypt_data] raises, which is before the file is
    opened, it returns [False] with the file as it was: memory then holds a
    message the file does not. *)
Theorem add_message_kept self sender recipient content message_type id w :
  let message := {| sm_sender := sender; sm_recipient := recipient;
                    sm_content := content; sm_type := message_type;
                    sm_timestamp := w_now w; sm_id := id;
                    sm_encrypted_with := "FlightCode_V2" |} in
  let r := add_message self sender recipient content message_type id w in
  ∃ success self',
    r.1 = Ok (success, self')
    ∧ ms_messages self' = ms_messages self ++ [message]
    ∧ ms_username self' = ms_username self
    ∧ ms_password self' = ms_password self
    ∧ (success = true →
       ∃ json_data encrypted_data,
         utf8_encode (json_dumps_messages (ms_messages self ++ [message]))
         = Some json_data
         ∧ (encrypt_data json_data (ms_password self) w).1 = Ok encrypted_data
         ∧ ms_stored self' = Some encrypted_data)
    ∧ (utf8_encode (json_dumps_messages (ms_messages self ++ [message])) = None
       ∨ (∃ json_data e,
            utf8_encode (json_dumps_messages (ms_messages self ++ [message]))
            = Some json_data
            ∧ (encrypt_data json_data (ms_password self) w).1 = Raise e) →
       success = false ∧ ms_stored self' = ms_stored self).
Proof.
  simpl. unfold add_message, _save_messages. M_simpl.
  destruct (utf8_encode _) as [json_data|] eqn:Hjson; M_simpl.
  - destruct (encrypt_data json_data (ms_password self) w)
      as [[encrypted_data|e] w'] eqn:Henc; simpl.
    + eexists true, _. split; [done|]. simpl. do 3 (split; [done|]).
      split.
      * intros _. exists json_data, encrypted_data. by rewrite Henc.
      * intros [[=]|(json_data' & e & [= <-] & Hraise)].
        by rewrite Henc in Hraise.
    + eexists false, _. split; [done|]. simpl. do 3 (split; [done|]).
      split; [by intros [=]|done].
  - eexists false, _. split; [done|]. simpl. do 3 (split; [done|]).
    split; [by intros [=]|done].
Qed.

Context `{!Argon2Ok, !AesGcmOk, !CodecOk}.

(** X21. A saved message is there when the store is opened again. With a
    password that encodes, an ASCII clock reading of at most 32 characters
    and a message list whose JSON text encodes and reads back,
    [add_message] returns [True], and [MessageStorage(username, password)]
    on the file it left is the store it left: the same messages, the new one
    last. *)
Theorem add_message_MessageStorage_init self sender recipient content
    message_type id w secret json_data :
  let message := {| sm_sender := sender; sm_recipient := recipient;
                    sm_content := content; sm_type := message_type;
                    sm_timestamp := w_now w; sm_id := id;
                    sm_encrypted_with := "FlightCode_V2" |} in
  let messages := ms_messages self ++ [message] in
  utf8_encode (ms_password self) = Some secret →
  ascii_only (w_now_iso w) = true →
  String.length (w_now_iso w) ≤ 32 →
  utf8_encode (json_dumps_messages messages) = Some json_data →
  json_loads_messages (json_dumps_messages messages)
  = Some (MessageList messages) →
  let r := add_message self sender recipient content message_type id w in
  ∃ self',
    r.1 = Ok (true, self')
    ∧ ms_messages self' = messages
    ∧ MessageStorage_init (ms_username self) (ms_password self) (ms_stored self')
      = Some self'.
Proof.
  intros message messages Hpw Hascii Hnow Hjson Hloads. simpl.
  destruct (encrypt_data_ascii_clock json_data (ms_password self) w secret)
    as (encrypted_data & Henc & Hdec); [done..|].
  unfold add_message. M_simpl.
  erewrite _save_messages_run by done. simpl.
  eexists. split; [done|]. split; [done|].
  unfold MessageStorage_init, _load_messages. simpl.
  rewrite Hdec, bind_Ok.
  rewrite (utf8_decode_encode _ _ Hjson), bind_or_raise_Some.
  fold message messages. by rewrite Hloads.
Qed.

End StorageTheorems.

Section Entropy.
Context `{!Codec, !Argon2, !AesGcm}.

(** X22. Each container takes the next 28 bytes of entropy. Whether it
    returns or raises, [encrypt_data] advances the entropy by exactly 28
    bytes and changes nothing else. A container it returns starts with these
    28 bytes (salt, then nonce), and a container written next starts with
    the 28 bytes after them. *)
Theorem encrypt_data_entropy data password w :
  let r := encrypt_data data password w in
  (∀ i, w_rng r.2 i = w_rng w (28 + i))
  ∧ w_now r.2 = w_now w ∧ w_now_iso r.2 = w_now_iso w
  ∧ w_env_url r.2 = w_env_url w ∧ w_password r.2 = w_password w
  ∧ w_user_data r.2 = w_user_data w ∧ w_db r.2 = w_db w
  ∧ w_profile_file r.2 = w_profile_file w
  ∧ (∀ c, r.1 = Ok c → take 28 c = w_rng w <$> seq 0 28)
  ∧ (∀ data' password' c',
       (encrypt_data data' password' r.2).1 = Ok c' →
       take 28 c' = (λ i, w_rng w (28 + i)) <$> seq 0 28).
Proof.
  assert (Htake : ∀ d p w0 c,
            (encrypt_data d p w0).1 = Ok c → take 28 c = w_rng w0 <$> seq 0 28).
  { intros d p w0 c. unfold encrypt_data, derive_key. M_simpl.
    destruct (utf8_encode p); M_simpl; [|done].
    destruct (utf8_encode _); M_simpl; [|done].
    destruct (to_bytes2_big _); M_simpl; [|done].
    by intros [= <-]. }
  simpl. rewrite encrypt_data_world. simpl.
  do 8 (split; [done|]). split; [apply Htake|].
  intros data' password' c' Hc'. by rewrite (Htake _ _ _ _ Hc').
Qed.

End Entropy.

(** ** Output paths *)

Lemma substring_0_app a b : substring 0 (String.length a) (a +:+ b) = a.
Proof. induction a as [|c a IH]; simpl; [by destruct b|]. by rewrite IH. Qed.

Lemma substring_0_length s : substring 0 (String.length s) s = s.
Proof. induction s as [|c s IH]; simpl; [done|]. by rewrite IH. Qed.

Lemma substring_skip_app a b :
  substring (String.length a) (String.length b) (a +:+ b) = b.
Proof.
  induction a as [|c a IH]; simpl; [apply substring_0_length|done].
Qed.

Lemma endswith_app a b : endswith (a +:+ b) b = true.
Proof.
  unfold endswith. apply bool_decide_eq_true_2.
  rewrite String_length_app. split; [lia|].
  replace (String.length a + String.length b - String.length b)
    with (String.length a) by lia.
  apply substring_skip_app.
Qed.

Lemma length_substring_0 n s : String.length (substring 0 n s) = n `min` String.length s.
Proof.
  revert s. induction n as [|n IH]; intros [|c s]; simpl; try done.
  by rewrite IH.
Qed.

(** What [strip] returns neither starts nor ends with whitespace, so
    stripping it again changes nothing. *)
Lemma lstrip_head s c rest : lstrip s = String c rest → isspace c = false.
Proof.
  induction s as [|c' s IH]; simpl; [done|].
  destruct (isspace c') eqn:Hc'; [done|]. by intros [= <- _].
Qed.

Lemma rstrip_head c s : isspace c = false → ∃ kept, rstrip (String c s) = String c kept.
Proof.
  intros Hc. simpl. rewrite Hc. destruct (rstrip s); by eexists.
Qed.

Lemma rstrip_idemp s : rstrip (rstrip s) = rstrip s.
Proof.
  induction s as [|c s IH]; simpl; [done|].
  destruct (rstrip s) as [|c' kept] eqn:Hs.
  - destruct (isspace c) eqn:Hc; simpl; [done|]. by rewrite Hc.
  - change (rstrip (String c (String c' kept))) with
      (match rstrip (String c' kept) with
       | EmptyString => if isspace c then EmptyString else String c EmptyString
       | kept' => String c kept'
       end).
    by rewrite IH.
Qed.

Lemma strip_head s c rest : strip s = String c rest → isspace c = false.
Proof.
  unfold strip. destruct (lstrip s) as [|c' s'] eqn:Hs; [done|].
  pose proof (lstrip_head s c' s' Hs) as Hc'.
  destruct (rstrip_head c' s' Hc') as [kept Hkept]. rewrite Hkept.
  by intros [= <- _].
Qed.

Lemma strip_idemp s : strip (strip s) = strip s.
Proof.
  destruct (strip s) as [|c rest] eqn:Hs; [done|].
  pose proof (strip_head s c rest Hs) as Hc.
  unfold strip. simpl lstrip. rewrite Hc.
  rewrite <- Hs. unfold strip. apply rstrip_idemp.
Qed.

(** A line of whitespace only strips to the empty text. *)
Lemma strip_blank s :
  forallb isspace (list_ascii_of_string s) = true → strip s = "".
Proof.
  unfold strip. induction s as [|c s IH]; simpl; [done|].
  intros [Hc Hs]%andb_prop. rewrite Hc. by apply IH.
Qed.

(** X23. The output paths. In [main], the default output of [decrypt] on
    the default output of [encrypt] for a path is that path; neither default
    is the input path; the default decryption output is the empty path
    exactly for the input [.hee]; and a non-empty [args.output] is used as
    it is. [encrypt_file] and [decrypt_file] strip the line entered at the
    prompt first: a line of whitespace only gives the same defaults, with
    the same round trip, and any other line gives its stripped text, which
    does not start with whitespace and which stripping again leaves as it
    is. So [ out.bin ] entered at the prompt writes to [out.bin], while
    [main] keeps it with its spaces. *)
Theorem default_output_paths file_path :
  decrypt_output_path (encrypt_output_path file_path "") "" = file_path
  ∧ encrypt_output_path file_path "" ≠ file_path
  ∧ decrypt_output_path file_path "" ≠ file_path
  ∧ (decrypt_output_path file_path "" = "" ↔ file_path = FILE_EXTENSION)
  ∧ (∀ output_path, output_path ≠ "" →
       encrypt_output_path file_path output_path = output_path
       ∧ decrypt_output_path file_path output_path = output_path)
  ∧ (∀ entered,
       forallb isspace (list_ascii_of_string entered) = true →
       encrypt_file_output_path file_path entered
       = encrypt_output_path file_path ""
       ∧ decrypt_file_output_path file_path entered
         = decrypt_output_path file_path "")
  ∧ (∀ entered entered',
       forallb isspace (list_ascii_of_string entered) = true →
       forallb isspace (list_ascii_of_string entered') = true →
       decrypt_file_output_path (encrypt_file_output_path file_path entered)
         entered' = file_path)
  ∧ (∀ entered, strip entered ≠ "" →
       encrypt_file_output_path file_path entered = strip entered
       ∧ decrypt_file_output_path file_path entered = strip entered)
  ∧ (∀ entered c rest, strip entered = String c rest → isspace c = false)
  ∧ (∀ entered, strip (strip entered) = strip entered)
  ∧ encrypt_file_output_path file_path " out.bin " = "out.bin"
  ∧ encrypt_output_path file_path " out.bin " = " out.bin ".
Proof.
  assert (Hlen : ∀ a b : string, a = b → String.length a = String.length b)
    by by intros a b ->.
  assert (Hround :
    decrypt_output_path (encrypt_output_path file_path "") "" = file_path).
  { unfold decrypt_output_path, encrypt_output_path. simpl.
    rewrite endswith_app, String_length_app.
    replace (String.length file_path + String.length FILE_EXTENSION - 4)
      with (String.length file_path) by (simpl; lia).
    apply substring_0_app. }
  split; [done|].
  split; [|split; [|split; [|split; [|split; [|split; [|split; [|split; [|split]]]]]]]].
  - unfold encrypt_output_path. simpl.
    intros H%Hlen. rewrite String_length_app in H. simpl in H. lia.
  - unfold decrypt_output_path. simpl.
    destruct (endswith file_path FILE_EXTENSION) eqn:Hends.
    + intros H%Hlen. rewrite length_substring_0 in H.
      apply bool_decide_eq_true in Hends as [Hle _]. simpl in *. lia.
    + intros H%Hlen. rewrite String_length_app in H. simpl in H. lia.
  - unfold decrypt_output_path. simpl.
    destruct (endswith file_path FILE_EXTENSION) eqn:Hends.
    + apply bool_decide_eq_true in Hends as [Hle Hsuffix]. split.
      * intros H%Hlen. rewrite length_substring_0 in H. simpl in *.
        rewrite <- Hsuffix.
        replace (String.length file_path - 4) with 0 by lia.
        replace 4 with (String.length file_path) by lia.
        by rewrite substring_0_length.
      * by intros ->.
    + split.
      * intros H%Hlen. rewrite String_length_app in H. simpl in H. lia.
      * intros ->. by vm_compute in Hends.
  - intros output_path Hne.
    unfold decrypt_output_path, encrypt_output_path. by destruct output_path.
  - intros entered Hblank.
    unfold encrypt_file_output_path, decrypt_file_output_path.
    by rewrite (strip_blank entered Hblank).
  - intros entered entered' Hblank Hblank'.
    unfold encrypt_file_output_path, decrypt_file_output_path.
    by rewrite (strip_blank entered Hblank), (strip_blank entered' Hblank').
  - intros entered Hne.
    unfold encrypt_file_output_path, decrypt_file_output_path,
      decrypt_output_path, encrypt_output_path.
    by destruct (strip entered).
  - apply strip_head.
  - apply strip_idemp.
  - done.
Qed.

(** ** What the old-key fallback opens *)

Section Fallback.
Context `{!Codec, !Argon2, !AesGcm, !NaCl, !Json, !CodecOk, !NaClOk}.

Lemma try_each_old_key_last older k pk ct s :
  open_with_old_key k pk ct = Ok s →
  ∃ s', try_each_old_key (older ++ [k]) pk ct = Some s'.
Proof.
  intros Hk. induction older as [|k' older IH]; simpl.
  - rewrite Hk. by eexists.
  - destruct (open_with_old_key k' pk ct); [by eexists|done].
Qed.

(** X24. The old-key fallback opens what was sealed for the retired
    keypair of the profile. Let the current keypair of the profile hold the
    32-byte private key [sk], and let S seal a message for the public key of
    [sk]. After [rotate_key] that keypair is the last of the old keys and
    opens the sealed text to exactly the message;
    [_try_decrypt_with_old_keys] returns a text, and it returns the message
    when none of the earlier old keys opens the sealed text. *)
Theorem rotate_key_fallback_opens_retired self w profile kp sk S_sk s message
    plaintext wS :
  db_profiles (w_user_data w) !! w_env_url w = Some profile →
  current_keypair profile = Some kp →
  private_key kp = b64encode sk →
  length sk = 32 →
  length S_sk = 32 →
  utf8_encode message = Some plaintext →
  reachable (w_db wS) = true →
  let S_pub := crypto_scalarmult_base S_sk in
  let S := {| cm_username := s; cm_identity_private_key := S_sk;
              cm_identity_public_key := S_pub |} in
  let r := send_message S (krm_username self)
             (b64encode (crypto_scalarmult_base sk)) message wS in
  let w' := (rotate_key self w).2 in
  ∃ sealed,
    r.1 = Ok true
    ∧ message_log (w_db r.2)
      = message_log (w_db wS)
        ++ [{| sender_username := s; recipient_username := krm_username self;
               ciphertext := sealed; timestamp := w_now wS |}]
    ∧ (db_profiles (w_user_data w') !! w_env_url w') ≫= old_keys
      = Some (default [] (old_keys profile) ++ [kp])
    ∧ open_with_old_key kp S_pub sealed = Ok message
    ∧ (∃ s', _try_decrypt_with_old_keys w' sealed (b64encode S_pub) = Some s')
    ∧ (Forall (λ k, raises (open_with_old_key k S_pub sealed))
         (default [] (old_keys profile)) →
       _try_decrypt_with_old_keys w' sealed (b64encode S_pub) = Some message).
Proof.
  intros Hp Hkp Hsk Hlen HS Hpt Hup S_pub S r w'.
  destruct (seal_then_open S_sk sk s (krm_username self) message plaintext wS
              HS Hlen Hpt Hup) as (sealed & Hret & Hdb & Hopen & _).
  fold S_pub S r in Hret, Hdb, Hopen.
  assert (HSpub : length S_pub = 32) by by apply crypto_scalarmult_base_length.
  assert (Hk : open_with_old_key kp S_pub sealed = Ok message).
  { unfold open_with_old_key, decode_private_key, PrivateKey.
    rewrite Hsk, b64decode_encode. simpl.
    rewrite bool_decide_eq_true_2 by done. simpl.
    unfold open_with_current in Hopen.
    by rewrite decode_public_key_encode in Hopen. }
  destruct (rotate_key_frame self w) as (_ & _ & Hurl & _).
  assert (Hold : db_profiles (w_user_data w') !! w_env_url w'
                 = Some {| current_keypair :=
                             Some {| private_key := b64encode (w_rng w <$> seq 0 32);
                                     public_key := b64encode (crypto_scalarmult_base (w_rng w <$> seq 0 32));
                                     created_at := w_now w |};
                           old_keys := Some (default [] (old_keys profile) ++ [kp]) |}).
  { unfold w'. rewrite Hurl, (rotate_key_user_data self w profile Hp). simpl.
    rewrite lookup_insert_eq. unfold retire. by rewrite Hkp. }
  exists sealed. split; [done|]. split; [by rewrite Hdb|].
  split; [by rewrite Hold|]. split; [done|].
  unfold _try_decrypt_with_old_keys. rewrite Hold. simpl.
  rewrite decode_public_key_encode by done. split.
  - by apply try_each_old_key_last with message.
  - intros Holder. by apply try_each_old_key_first.
Qed.

End Fallback.

(** ** The outcomes of [decrypt_file] *)

Section DecryptFile.
Context `{!Codec, !Argon2, !AesGcm}.


End DecryptFile.

(** ** The records the code makes build a manager *)

Section FreshRecords.
Context `{!Codec, !Argon2, !AesGcm, !NaCl, !Json, !CodecOk, !NaClOk}.

Lemma decode_private_key_encode sk :
  length sk = 32 → decode_private_key (b64encode sk) = Ok sk.
Proof.
  intros Hsk. unfold decode_private_key, PrivateKey.
  rewrite b64decode_encode. simpl. by rewrite bool_decide_eq_true_2.
Qed.

Lemma register_user_record name password w ud :
  (register_user name password w).1 = Ok (Some ud) →
  ud = {| username := name;
          identity_public_key :=
            b64encode (crypto_scalarmult_base (w_rng w <$> seq 0 32));
          identity_private_key := b64encode (w_rng w <$> seq 0 32);
          db_profiles := ∅ |}.
Proof.
  unfold register_user, PrivateKey_generate. M_simpl.
  match goal with
  | |- context [_save_user_profile ?u ?p ?w1] =>
      destruct (_save_user_profile u p w1) as [[[]|e] w']
  end; simpl; [|done]. by intros [= <-].
Qed.

(** X26. The records the code makes build a manager. On the record that
    [register_user] returned, [ChatManager.__init__] returns the manager of
    the registered name with the 32 bytes of entropy of the registration as
    private key and their public key. On the record in memory after
    [rotate_key] on a profile, whatever it returned, it returns the manager
    with bytes 32..63 of the entropy of the rotation as private key. *)
Theorem ChatManager_init_fresh_record w :
  (∀ name password ud,
     (register_user name password w).1 = Ok (Some ud) →
     ∀ w0, w_user_data w0 = ud →
       (ChatManager_init w0).1
       = Ok {| cm_username := name;
               cm_identity_private_key := w_rng w <$> seq 0 32;
               cm_identity_public_key :=
                 crypto_scalarmult_base (w_rng w <$> seq 0 32) |})
  ∧ (∀ self profile,
       db_profiles (w_user_data w) !! w_env_url w = Some profile →
       ∀ w0, w_user_data w0 = w_user_data (rotate_key self w).2 →
         (ChatManager_init w0).1
         = Ok {| cm_username := username (w_user_data w);
                 cm_identity_private_key := (λ i, w_rng w (32 + i)) <$> seq 0 32;
                 cm_identity_public_key :=
                   crypto_scalarmult_base ((λ i, w_rng w (32 + i)) <$> seq 0 32) |}).
Proof.
  assert (Hinit : ∀ w0 name sk,
            length sk = 32 →
            username (w_user_data w0) = name →
            identity_private_key (w_user_data w0) = b64encode sk →
            identity_public_key (w_user_data w0)
            = b64encode (crypto_scalarmult_base sk) →
            (ChatManager_init w0).1
            = Ok {| cm_username := name; cm_identity_private_key := sk;
                    cm_identity_public_key := crypto_scalarmult_base sk |}).
  { intros w0 name sk Hsk Hname Hpriv Hpub.
    rewrite ChatManager_init_manager, Hname, Hpriv, Hpub.
    rewrite decode_private_key_encode by done.
    by rewrite decode_public_key_encode
      by by apply crypto_scalarmult_base_length. }
  split.
  - intros name password ud Hreg%register_user_record w0 Hud.
    apply Hinit; [by rewrite length_fmap, length_seq|by rewrite Hud, Hreg..].
  - intros self profile Hp w0 Hud.
    rewrite (rotate_key_user_data self w profile Hp) in Hud.
    apply Hinit; [by rewrite length_fmap, length_seq|by rewrite Hud..].
Qed.

End FreshRecords.

(** ** Polling for new messages *)

Lemma unseen_sublist displayed batch : unseen displayed batch `sublist_of` batch.
Proof.
  revert displayed. induction batch as [|msg rest IH]; intros displayed; simpl.
  - done.
  - destruct (bool_decide _); [by apply sublist_cons|by apply sublist_skip].
Qed.

Lemma unseen_not_displayed displayed batch msg :
  msg ∈ unseen displayed batch → message_id msg ∉ displayed.
Proof.
  revert displayed. induction batch as [|msg' rest IH]; intros displayed; simpl.
  - by intros ?%elem_of_nil.
  - destruct (bool_decide_reflect (message_id msg' ∈ displayed)) as [Hin|Hin].
    + apply IH.
    + intros [->|Hmsg]%elem_of_cons; [done|].
      apply IH in Hmsg. intros Hd. apply Hmsg. by apply elem_of_union_r.
Qed.

Lemma unseen_NoDup displayed batch :
  NoDup (message_id <$> unseen displayed batch).
Proof.
  revert displayed. induction batch as [|msg rest IH]; intros displayed; simpl.
  - constructor.
  - destruct (bool_decide_reflect (message_id msg ∈ displayed)) as [Hin|Hin];
      [apply IH|].
    rewrite fmap_cons. constructor; [|apply IH].
    rewrite list_elem_of_fmap. intros (msg' & Hid & Hmsg').
    apply unseen_not_displayed in Hmsg'. apply Hmsg'.
    rewrite <- Hid. by apply elem_of_union_l, elem_of_singleton.
Qed.

Lemma unseen_displayed displayed batch :
  (∀ msg, msg ∈ batch → message_id msg ∈ displayed) →
  unseen displayed batch = [].
Proof.
  induction batch as [|msg rest IH]; intros Hall; simpl; [done|].
  rewrite bool_decide_eq_true_2 by (apply Hall; by left).
  apply IH. intros msg' Hmsg'. apply Hall. by right.
Qed.

Section Polling.
Context `{!Codec, !Argon2, !AesGcm, !NaCl, !JsonMessages}.

(** [add_message] as a whole run: it returns, with the message appended in
    memory, and leaves the relay, the record and the clock alone. *)
Lemma add_message_run self sender recipient content message_type id w :
  ∃ success self' w',
    add_message self sender recipient content message_type id w
    = (Ok (success, self'), w')
    ∧ ms_messages self'
      = ms_messages self
        ++ [{| sm_sender := sender; sm_recipient := recipient;
               sm_content := content; sm_type := message_type;
               sm_timestamp := w_now w; sm_id := id;
               sm_encrypted_with := "FlightCode_V2" |}]
    ∧ ms_username self' = ms_username self
    ∧ ms_password self' = ms_password self
    ∧ w_db w' = w_db w ∧ w_user_data w' = w_user_data w
    ∧ w_env_url w' = w_env_url w ∧ w_now w' = w_now w.
Proof.
  unfold add_message, _save_messages. M_simpl.
  destruct (utf8_encode _) as [json_data|]; M_simpl.
  - pose proof (encrypt_data_world json_data (ms_password self) w) as Hw.
    destruct (encrypt_data json_data (ms_password self) w)
      as [[encrypted_data|e] w'] eqn:Henc; cbn [fst snd] in Hw; subst w';
      by eexists _, _, _.
  - by eexists _, _, _.
Qed.

(** The loop as a whole run. *)
Lemma new_messages_loop_run batch st acc w :
  ∃ st' w',
    new_messages_loop batch st acc w
    = (Ok (st', acc ++ (shown <$> unseen (displayed_message_ids st) batch)), w')
    ∧ displayed_message_ids st'
      = displayed_message_ids st ∪ list_to_set (message_id <$> batch)
    ∧ w_db w' = w_db w ∧ w_user_data w' = w_user_data w
    ∧ w_env_url w' = w_env_url w ∧ w_now w' = w_now w
    ∧ match message_storage st with
      | None => message_storage st' = None
      | Some storage =>
          ∃ storage',
            message_storage st' = Some storage'
            ∧ ms_username storage' = ms_username storage
            ∧ ms_password storage' = ms_password storage
            ∧ stored_fields <$> ms_messages storage'
              = (stored_fields <$> ms_messages storage)
                ++ ((λ msg, (dm_sender_username msg, username (w_user_data w),
                             dm_decrypted_content msg, "received", w_now w,
                             "FlightCode_V2"))
                      <$> unseen (displayed_message_ids st) batch)
      end.
Proof.
  revert st acc w. induction batch as [|msg rest IH]; intros st acc w.
  { exists st, w. simpl. rewrite !app_nil_r.
    split; [done|]. split; [by rewrite (right_id_L ∅ (∪))|].
    do 4 (split; [done|]).
    destruct (message_storage st) as [storage|]; [|done].
    exists storage. by rewrite app_nil_r. }
  cbn [new_messages_loop unseen].
  destruct (bool_decide_reflect (message_id msg ∈ displayed_message_ids st))
    as [Hin|Hin].
  { destruct (IH st acc w) as (st' & w' & Hrun & Hdisp & Hrest).
    exists st', w'. split; [done|]. split; [|done].
    rewrite Hdisp, fmap_cons. cbn [list_to_set foldr].
    rewrite (assoc_L (∪)). f_equal.
    apply (anti_symm (⊆)); [apply union_subseteq_l|].
    apply union_least; [done|]. by apply singleton_subseteq_l. }
  destruct (message_storage st) as [storage|] eqn:Hstorage.
  - destruct (add_message_run storage (dm_sender_username msg)
                (username (w_user_data w)) (dm_decrypted_content msg)
                "received" (time_time st 0) w)
      as (success & saved & w1 & Hadd & Hmsgs & Hname & Hpass
          & Hdb & Hud & Hurl & Hnow).
    set (st1 := {| displayed_message_ids :=
                     {[message_id msg]} ∪ displayed_message_ids st;
                   message_storage := Some saved;
                   time_time := λ i, time_time st (S i) |}).
    destruct (IH st1 (acc ++ [shown msg]) w1)
      as (st' & w' & Hrun & Hdisp & Hdb' & Hud' & Hurl' & Hnow' & Hstore).
    exists st', w'. split.
    { unfold bind, gets, ret. rewrite Hadd.
      rewrite <- app_assoc in Hrun. exact Hrun. }
    split.
    { rewrite Hdisp, fmap_cons. cbn [list_to_set foldr displayed_message_ids st1].
      by rewrite (comm_L (∪) {[message_id msg]}), (assoc_L (∪)). }
    split; [congruence|]. split; [congruence|]. split; [congruence|].
    split; [congruence|].
    simpl in Hstore. destruct Hstore as (storage' & Hst' & Hname' & Hpass' & Hfields).
    exists storage'. split; [done|]. split; [congruence|]. split; [congruence|].
    rewrite Hfields, Hmsgs, fmap_app, Hud, Hnow, fmap_cons, <- app_assoc. done.
  - set (st1 := {| displayed_message_ids :=
                     {[message_id msg]} ∪ displayed_message_ids st;
                   message_storage := None;
                   time_time := time_time st |}).
    destruct (IH st1 (acc ++ [shown msg]) w)
      as (st' & w' & Hrun & Hdisp & Hdb' & Hud' & Hurl' & Hnow' & Hstore).
    exists st', w'. split.
    { unfold bind, ret. rewrite Hstorage.
      rewrite <- app_assoc in Hrun. exact Hrun. }
    split; [|done].
    rewrite Hdisp, fmap_cons. cbn [list_to_set foldr displayed_message_ids st1].
    by rewrite (comm_L (∪) {[message_id msg]}), (assoc_L (∪)).
Qed.

(** A batch that was displayed is passed over. *)
Lemma new_messages_loop_displayed batch st acc w :
  (∀ msg, msg ∈ batch → message_id msg ∈ displayed_message_ids st) →
  new_messages_loop batch st acc w = (Ok (st, acc), w).
Proof.
  induction batch as [|msg rest IH]; intros Hall; simpl; [done|].
  rewrite bool_decide_eq_true_2 by (apply Hall; by left).
  apply IH. intros msg' Hmsg'. apply Hall. by right.
Qed.

End Polling.

Section PollingTheorems.
Context `{!Codec, !Argon2, !AesGcm, !NaCl, !JsonMessages}.

(** [get_new_messages] as a whole run on the partner's entries. *)
Lemma get_new_messages_run self partner_username st w :
  let batch := filter (λ msg, dm_sender_username msg = partner_username)
                 (receive_messages self w) in
  ∃ st' w',
    get_new_messages self partner_username st w
    = (Ok (st', shown <$> unseen (displayed_message_ids st) batch), w')
    ∧ displayed_message_ids st'
      = displayed_message_ids st ∪ list_to_set (message_id <$> batch)
    ∧ w_db w' = w_db w ∧ w_user_data w' = w_user_data w
    ∧ w_env_url w' = w_env_url w ∧ w_now w' = w_now w
    ∧ match message_storage st with
      | None => message_storage st' = None
      | Some storage =>
          ∃ storage',
            message_storage st' = Some storage'
            ∧ ms_username storage' = ms_username storage
            ∧ ms_password storage' = ms_password storage
            ∧ stored_fields <$> ms_messages storage'
              = (stored_fields <$> ms_messages storage)
                ++ ((λ msg, (dm_sender_username msg, username (w_user_data w),
                             dm_decrypted_content msg, "received", w_now w,
                             "FlightCode_V2"))
                      <$> unseen (displayed_message_ids st) batch)
      end.
Proof.
  intros batch.
  destruct (new_messages_loop_run batch st [] w) as (st' & w' & Hrun & Hrest).
  exists st', w'. split; [|done]. unfold get_new_messages.
  unfold bind at 1. unfold gets at 1. exact Hrun.
Qed.

Lemma receive_messages_same self w w' :
  w_db w' = w_db w → w_user_data w' = w_user_data w →
  w_env_url w' = w_env_url w →
  receive_messages self w' = receive_messages self w.
Proof.
  intros Hdb Hud Hurl. apply receive_messages_ext; [|intros name|done..];
    by rewrite Hdb.
Qed.


(** X28. Opening the chat again stores again what it shows. With a store
    and no identifier displayed yet, [get_new_messages] appends one stored
    message per message shown, stamped with the local clock and not with the
    message's timestamp. Opening the chat once more on the same relay, at
    any clock, shows the same messages and appends each of them to the store
    a second time. *)
Theorem get_new_messages_stores_again self partner_username storage clock w :
  let opened storage clock :=
    {| displayed_message_ids := ∅; message_storage := Some storage;
       time_time := clock |} in
  let saved (w : World) (m : shown_message) :=
    (shown_sender m, username (w_user_data w), shown_content m, "received",
     w_now w, "FlightCode_V2") in
  ∃ st1 new_messages storage1 w1,
    get_new_messages self partner_username (opened storage clock) w
    = (Ok (st1, new_messages), w1)
    ∧ message_storage st1 = Some storage1
    ∧ stored_fields <$> ms_messages storage1
      = (stored_fields <$> ms_messages storage) ++ (saved w <$> new_messages)
    ∧ ∀ clock' w', w_db w' = w_db w → w_user_data w' = w_user_data w →
        w_env_url w' = w_env_url w →
        ∃ st2 storage2 w2,
          get_new_messages self partner_username (opened storage1 clock') w'
          = (Ok (st2, new_messages), w2)
          ∧ message_storage st2 = Some storage2
          ∧ stored_fields <$> ms_messages storage2
            = (stored_fields <$> ms_messages storage)
              ++ (saved w <$> new_messages) ++ (saved w' <$> new_messages).
Proof.
  intros opened saved.
  destruct (get_new_messages_run self partner_username (opened storage clock) w)
    as (st1 & w1 & Hrun & _ & _ & _ & _ & _ & storage1 & Hst1 & _ & _ & Hfields).
  cbn [opened displayed_message_ids] in Hrun, Hfields.
  set (batch := filter (λ msg, dm_sender_username msg = partner_username)
                  (receive_messages self w)) in *.
  exists st1, (shown <$> unseen ∅ batch), storage1, w1.
  split; [done|]. split; [done|].
  split; [by rewrite Hfields, <- list_fmap_compose|].
  intros clock' w' Hdb Hud Hurl.
  destruct (get_new_messages_run self partner_username (opened storage1 clock') w')
    as (st2 & w2 & Hrun2 & _ & _ & _ & _ & _ & storage2 & Hst2 & _ & _ & Hfields2).
  cbn [opened displayed_message_ids] in Hrun2, Hfields2.
  rewrite (receive_messages_same self w w') in Hrun2, Hfields2 by done.
  fold batch in Hrun2, Hfields2.
  exists st2, storage2, w2. split; [done|]. split; [done|].
  by rewrite Hfields2, Hfields, <- !list_fmap_compose, <- app_assoc.
Qed.

End PollingTheorems.

(** ** The concrete run *)

Module Runs.
Import Toy Scenario.
#[local] Existing Instances codec argon2 aes_gcm nacl json
  codec_ok argon2_ok aes_gcm_ok nacl_ok.

Example container0_round_trip :
  length container0 = 96
  ∧ decrypt_data container0 "hunter2" = Ok (list_byte_of_string "secret").
Proof. by vm_compute. Qed.

(** Another password, or one flipped bit in the ciphertext, the tag or the
    associated data: [InvalidTag], and [decrypt_file] writes nothing. *)
Example container0_wrong_password_or_tampered :
  decrypt_data container0 "hunter3" = Raise InvalidTag
  ∧ (∀ write, decrypt_file container0 "hunter3" write = AuthenticationFailed)
  ∧ decrypt_data (<[95 := x00]> container0) "hunter2" = Raise InvalidTag
  ∧ decrypt_data (<[30 := x00]> container0) "hunter2" = Raise InvalidTag
  ∧ decrypt_data (<[50 := x00]> container0) "hunter2" = Raise InvalidTag.
Proof. by vm_compute. Qed.

(** With the right password the plaintext goes to the write, and a write
    that raises ends in the error report, not in a written file. *)
Example container0_write_raises :
  decrypt_file container0 "hunter2" (λ _, Ok ())
  = FileWritten (list_byte_of_string "secret")
  ∧ decrypt_file container0 "hunter2" (λ _, Raise OSError)
    = ErrorDuringDecryption OSError.
Proof. by vm_compute. Qed.

(** The reference key derivation reads the first 32 bytes of the password:
    two passwords that agree on them derive one key, and the container
    sealed under one opens under the other. *)
Example container_opens_under_another_password :
  let w1 := "correct horse battery staple 0001" in
  let w2 := "correct horse battery staple 0002" in
  w1 ≠ w2
  ∧ match (encrypt_data (list_byte_of_string "secret") w1 alice0).1 with
    | Ok encrypted_data =>
        decrypt_data encrypted_data w2 = Ok (list_byte_of_string "secret")
    | Raise _ => False
    end.
Proof. by vm_compute. Qed.

(** A container whose length field was raised to 65535, far beyond the
    buffer, is not refused as malformed: the slices are clamped and, the
    ciphertext being empty here, the tag still verifies. *)
Example overrun_length_accepted :
  let tampered := take 44 empty_container ++ [xff; xff] ++ drop 46 empty_container in
  decrypt_data empty_container "hunter2" = Ok []
  ∧ length tampered = 90
  ∧ from_bytes_big (slice 44 46 tampered) = 65535%N
  ∧ decrypt_data tampered "hunter2" = Ok [].
Proof. by vm_compute. Qed.

Lemma decrypt_encrypt_round_trip_witness :
  utf8_encode "hunter2" = Some (list_byte_of_string "hunter2")
  ∧ ascii_only (w_now_iso alice0) = true
  ∧ String.length (w_now_iso alice0) = 26
  ∧ ∃ encrypted_data,
      (encrypt_data (list_byte_of_string "secret") "hunter2" alice0).1
      = Ok encrypted_data
      ∧ decrypt_data encrypted_data "hunter2"
        = Ok (list_byte_of_string "secret").
Proof.
  do 3 (split; [reflexivity|]).
  apply (decrypt_encrypt_round_trip (list_byte_of_string "secret") "hunter2"
           alice0 (list_byte_of_string "hunter2"));
    [reflexivity | reflexivity | simpl; lia].
Defined.


Lemma encrypt_data_layout_witness :
  utf8_encode "hunter2" = Some (list_byte_of_string "hunter2")
  ∧ ascii_only (w_now_iso alice0) = true
  ∧ String.length (w_now_iso alice0) = 26
  ∧ (encrypt_data (list_byte_of_string "secret") "hunter2" alice0).1
    = Ok (container_bytes
            (sealed_container (list_byte_of_string "secret")
               (list_byte_of_string "hunter2")
               (metadata_of "2026-11-02T10:00:00.000001") (tape 7))).
Proof.
  do 3 (split; [reflexivity|]).
  apply (encrypt_data_layout (list_byte_of_string "secret") "hunter2"
           alice0 (list_byte_of_string "hunter2"));
    [reflexivity | reflexivity | simpl; lia].
Defined.

Lemma seal_open_round_trip_witness :
  length alice_sk = 32 ∧ length bob_sk = 32
  ∧ open_with_current
      {| cm_username := "alice"; cm_identity_private_key := alice_sk;
         cm_identity_public_key := alice_pub |}
      (b64encode bob_pub) (ciphertext hello_row) = Ok "hello".
Proof.
  split; [reflexivity|]. split; [reflexivity|].
  destruct (seal_open_round_trip bob_sk alice_sk "bob" "alice" "hello"
              (list_byte_of_string "hello") bob1)
    as (sealed & _ & Hlog & Hopen & _); [reflexivity..|].
  apply app_inj_1 in Hlog as [_ [= <-]]; [|reflexivity].
  exact Hopen.
Defined.

Lemma send_message_ignores_db_profiles_witness :
  db_profiles (w_user_data alice1) ≠ db_profiles (w_user_data alice_no_profile)
  ∧ (send_message alice_cm "bob" (b64encode bob_pub) "hi" alice1).1
    = (send_message alice_cm "bob" (b64encode bob_pub) "hi"
         (session (w_user_data alice_no_profile) 39 "2026-11-02 10:00:00" relay0)).1.
Proof.
  split; [by vm_compute|].
  apply (send_message_ignores_db_profiles alice1 alice_no_profile);
    reflexivity.
Defined.

Lemma rotate_key_retires_current_witness :
  db_profiles (w_user_data alice2) !! w_env_url alice2 = Some alice_profile
  ∧ db_profiles (w_user_data alice3) !! w_env_url alice2
    = Some {| current_keypair :=
                Some {| private_key := b64encode (tape 60 <$> seq 0 32);
                        public_key :=
                          b64encode (crypto_scalarmult_base (tape 60 <$> seq 0 32));
                        created_at := "2026-11-02 10:06:00" |};
              old_keys := Some [alice_k1] |}.
Proof.
  split; [by vm_compute|].
  apply (rotate_key_retires_current alice_krm alice2 alice_profile alice_k1);
    by vm_compute.
Defined.

(** C8 as stated fails on a record whose current keypair is already among
    its old keys (here the record the code itself leaves when the entropy
    source repeats): the rotation appends it once more, and it appears
    twice. *)
Lemma rotate_key_repeats_retired_key :
  db_profiles (w_user_data alice_repeated) !! url
  = Some {| current_keypair := Some repeated; old_keys := Some [repeated] |}
  ∧ db_profiles (w_user_data (rotate_key alice_krm alice_repeated).2) !! url
    = Some {| current_keypair := Some repeated;
              old_keys := Some [repeated; repeated] |}
  ∧ count_occ keypair_eq_dec [repeated; repeated] repeated = 2
  ∧ count_occ keypair_eq_dec [repeated; repeated] repeated ≠ 1.
Proof. by vm_compute. Qed.

(** C9 as stated fails on a record with no profile for the current database:
    it has no current keypair, and is reported as not due. *)
Lemma check_key_rotation_needed_no_profile :
  db_profiles (w_user_data alice_no_profile) !! w_env_url alice_no_profile = None
  ∧ check_key_rotation_needed alice_no_profile = false.
Proof. by vm_compute. Qed.

(** C2 fails on the code. Bob's "hello", sealed for the identity key alice
    published, opens before the rotation. [rotate_key] replaces the identity
    key and keeps only the keypair of the profile among the old keys, so in
    alice's next session neither the new identity key nor any old key opens
    the message, and it is dropped. (In the session that rotated, the
    manager still holds the key object it built at login, and the message
    opens with it, not through the old keys.) *)
Theorem rotation_loses_sealed_message :
  message_log (w_db alice2) = [hello_row]
  ∧ receive_messages alice_cm alice2 = [decrypted_entry hello_row "hello"]
  ∧ (rotate_key alice_krm alice2).1 = Ok true
  ∧ identity_private_key (w_user_data alice3)
    ≠ identity_private_key (w_user_data alice2)
  ∧ db_profiles (w_user_data alice5) !! url ≫= old_keys = Some [alice_k1]
  ∧ message_log (w_db alice5) = [hello_row]
  ∧ open_with_current alice_cm' (b64encode bob_pub) (ciphertext hello_row)
    = Raise CryptoError
  ∧ _try_decrypt_with_old_keys alice5 (ciphertext hello_row) (b64encode bob_pub)
    = None
  ∧ receive_messages alice_cm' alice5 = []
  ∧ receive_messages alice_cm alice3 = [decrypted_entry hello_row "hello"].
Proof. by vm_compute. Qed.

(** C7 fails on the code. The empty message that bob sealed for the public
    key of alice's retired keypair does not open with her identity key; the
    loop over the old keys stops at the retired key, which opens it, and
    [_try_decrypt_with_old_keys] returns the empty text. [receive_messages]
    tests that result for truth, takes the empty text for a failure and
    drops the message. The same retired key delivers "again", and the empty
    message sealed for the identity key is delivered by the first path,
    which appends without a test. *)
Theorem fallback_drops_empty_message :
  message_log (w_db alice7) = [hello_row; row 1; row 2; row 3]
  ∧ (send_message bob_cm "alice" (public_key alice_k1) "" bob3).1 = Ok true
  ∧ get_user_public_key (w_db alice7) "bob" = Some (b64encode bob_pub)
  ∧ db_profiles (w_user_data alice7) !! url ≫= old_keys = Some [alice_k1]
  ∧ open_with_current alice_cm2 (b64encode bob_pub) (ciphertext (row 1))
    = Raise CryptoError
  ∧ open_with_old_key alice_k1 bob_pub (ciphertext (row 1)) = Ok ""
  ∧ _try_decrypt_with_old_keys alice7 (ciphertext (row 1)) (b64encode bob_pub)
    = Some ""
  ∧ receive_one alice_cm2 alice7 (row 1) = []
  ∧ open_with_current alice_cm2 (b64encode bob_pub) (ciphertext (row 2))
    = Raise CryptoError
  ∧ _try_decrypt_with_old_keys alice7 (ciphertext (row 2)) (b64encode bob_pub)
    = Some "again"
  ∧ receive_one alice_cm2 alice7 (row 2) = [decrypted_entry (row 2) "again"]
  ∧ open_with_current alice_cm2 (b64encode bob_pub) (ciphertext (row 3))
    = Ok ""
  ∧ receive_one alice_cm2 alice7 (row 3) = [decrypted_entry (row 3) ""]
  ∧ receive_messages alice_cm2 alice7
    = [decrypted_entry (row 2) "again"; decrypted_entry (row 3) ""].
Proof. by vm_compute. Qed.

End Runs.

(** ** More concrete runs *)

Module MoreRuns.
Import Toy Scenario Cases.
#[local] Existing Instances codec argon2 aes_gcm nacl
  codec_ok argon2_ok aes_gcm_ok nacl_ok
  Serial.json Serial.loader Serial.json_messages.

Lemma register_user_login_user_witness :
  utf8_encode "hunter2" = Some (list_byte_of_string "hunter2")
  ∧ ascii_only (w_now_iso alice0) = true
  ∧ String.length (w_now_iso alice0) = 26
  ∧ json_loads (json_dumps carol) = Some (UserData carol)
  ∧ (register_user "carol" "hunter2" alice0).1 = Ok (Some carol)
  ∧ login_user "hunter2" (register_user "carol" "hunter2" alice0).2
    = Some (UserData carol).
Proof.
  do 3 (split; [reflexivity|]). split; [by vm_compute|].
  destruct (register_user_login_user "carol" "hunter2" alice0
              (list_byte_of_string "hunter2")
              (list_byte_of_string (json_dumps carol)))
    as (Hret & Hlogin & _);
    [reflexivity | reflexivity | vm_compute; lia | reflexivity | by vm_compute|].
  split; [exact Hret|exact Hlogin].
Defined.

Lemma update_user_data_login_user_witness :
  utf8_encode (w_password alice1) = Some (list_byte_of_string "hunter2")
  ∧ json_loads (json_dumps (w_user_data alice1))
    = Some (UserData (w_user_data alice1))
  ∧ (update_user_data (w_user_data alice1) None alice1).1 = Ok true
  ∧ get_user_data (update_user_data (w_user_data alice1) None alice1).2
    = Some (UserData (w_user_data alice1)).
Proof.
  split; [reflexivity|]. split; [by vm_compute|].
  destruct (update_user_data_login_user (w_user_data alice1) None alice1
              (list_byte_of_string "hunter2")
              (list_byte_of_string (json_dumps (w_user_data alice1)))
              (UserData (w_user_data alice1)))
    as (Hret & _ & Hget & _);
    [reflexivity | reflexivity | vm_compute; lia | reflexivity | by vm_compute|].
  split; [exact Hret|exact (Hget eq_refl)].
Defined.

Lemma rotate_key_unreachable_witness :
  db_profiles (w_user_data alice_offline) !! w_env_url alice_offline
  = Some alice_profile
  ∧ reachable (w_db alice_offline) = false
  ∧ (rotate_key alice_krm alice_offline).1 = Ok false
  ∧ identity_private_key (w_user_data (rotate_key alice_krm alice_offline).2)
    = b64encode (tape 92 <$> seq 0 32)
  ∧ w_profile_file (rotate_key alice_krm alice_offline).2 = None.
Proof.
  split; [by vm_compute|]. split; [reflexivity|].
  destruct (rotate_key_unreachable alice_krm alice_offline alice_profile)
    as (Hret & _ & Hsk & _ & Hfile & _); [by vm_compute|reflexivity|].
  split; [exact Hret|]. split; [exact Hsk|exact Hfile].
Defined.

Lemma rotate_key_then_not_due_witness :
  db_profiles (w_user_data alice2) !! w_env_url alice2 = Some alice_profile
  ∧ check_key_rotation_needed (rotate_key alice_krm alice2).2 = false.
Proof.
  split; [by vm_compute|].
  destruct (rotate_key_then_not_due alice_krm alice2 alice_profile)
    as [Hdue _]; [by vm_compute|].
  exact Hdue.
Defined.

Lemma rotate_key_saves_rotated_record_witness :
  db_profiles (w_user_data alice2) !! w_env_url alice2 = Some alice_profile
  ∧ reachable (w_db alice2) = true
  ∧ json_loads (json_dumps (rotated alice2 alice_profile))
    = Some (UserData (rotated alice2 alice_profile))
  ∧ (rotate_key alice_krm alice2).1 = Ok true
  ∧ login_user "hunter2" (rotate_key alice_krm alice2).2
    = Some (UserData (rotated alice2 alice_profile)).
Proof.
  split; [by vm_compute|]. split; [reflexivity|]. split; [by vm_compute|].
  destruct (rotate_key_saves_rotated_record alice_krm alice2 alice_profile
              (list_byte_of_string "hunter2")
              (list_byte_of_string (json_dumps (rotated alice2 alice_profile))))
    as (Hret & _ & Hlogin & _);
    [by vm_compute | reflexivity | reflexivity | reflexivity | vm_compute; lia
    | reflexivity | by vm_compute|].
  split; [exact Hret|exact Hlogin].
Defined.

Lemma register_user_key_rotate_key_witness :
  db_profiles (w_user_data alice2) !! w_env_url alice2 = Some alice_profile
  ∧ reachable (w_db alice2) = true
  ∧ get_user_public_key
      (w_db (rotate_key alice_krm (_register_user_key alice_dbm alice2).2).2)
      "alice"
    = Some (b64encode (crypto_scalarmult_base (tape 92 <$> seq 0 32))).
Proof.
  split; [by vm_compute|]. split; [reflexivity|].
  destruct (register_user_key_rotate_key alice_dbm alice_krm alice2
              alice_profile)
    as (_ & _ & Hkey & Hpub); [reflexivity|by vm_compute|reflexivity|].
  exact (eq_trans Hkey (f_equal Some Hpub)).
Defined.

Lemma send_message_from_system_hidden_witness :
  cm_username system_cm = "system"
  ∧ (send_message system_cm "alice" (b64encode alice_pub) "hello" bob1).1
    = Ok true
  ∧ get_messages
      (w_db (send_message system_cm "alice" (b64encode alice_pub) "hello" bob1).2)
      "alice"
    = [].
Proof.
  split; [reflexivity|]. split; [by vm_compute|].
  destruct (send_message_from_system_hidden system_cm "alice"
              (b64encode alice_pub) "hello" bob1) as (Hmsgs & _);
    [reflexivity|].
  exact (Hmsgs "alice").
Defined.

Lemma send_message_delivered_witness :
  length bob_sk = 32 ∧ length alice_sk = 32
  ∧ get_user_public_key (w_db bob1) "bob" = Some (b64encode bob_pub)
  ∧ receive_messages
      {| cm_username := "alice"; cm_identity_private_key := alice_sk;
         cm_identity_public_key := alice_pub |} alice2
    = [{| dm_sender_username := "bob"; dm_timestamp := "2026-11-02 10:05:00";
          dm_decrypted_content := "hello" |}].
Proof.
  split; [reflexivity|]. split; [reflexivity|]. split; [by vm_compute|].
  destruct (send_message_delivered bob_sk alice_sk "bob" "alice" "hello"
              (list_byte_of_string "hello") bob1)
    as (_ & Hrecv);
    [reflexivity | reflexivity | reflexivity | reflexivity | discriminate
    | by vm_compute|].
  destruct (Hrecv (session (w_user_data alice1) 60 "2026-11-02 10:06:00" relay0)
              alice2) as (Hlast & _); [reflexivity..|].
  exact Hlast.
Defined.

Lemma add_message_MessageStorage_init_witness :
  utf8_encode (ms_password alice_store) = Some (list_byte_of_string "hunter2")
  ∧ ∃ self',
      (add_message alice_store "bob" "alice" "hello" "received" 7 alice0).1
      = Ok (true, self')
      ∧ ms_messages self'
        = [{| sm_sender := "bob"; sm_recipient := "alice";
              sm_content := "hello"; sm_type := "received";
              sm_timestamp := "2026-11-02 10:00:00"; sm_id := 7;
              sm_encrypted_with := "FlightCode_V2" |}]
      ∧ MessageStorage_init "alice" "hunter2" (ms_stored self') = Some self'.
Proof.
  split; [reflexivity|].
  apply (add_message_MessageStorage_init alice_store "bob" "alice" "hello"
           "received" 7 alice0 (list_byte_of_string "hunter2")
           (list_byte_of_string
              (json_dumps_messages
                 [{| sm_sender := "bob"; sm_recipient := "alice";
                     sm_content := "hello"; sm_type := "received";
                     sm_timestamp := "2026-11-02 10:00:00"; sm_id := 7;
                     sm_encrypted_with := "FlightCode_V2" |}])));
    [reflexivity | reflexivity | vm_compute; lia | reflexivity | by vm_compute].
Defined.

Lemma rotate_key_fallback_opens_retired_witness :
  db_profiles (w_user_data alice2) !! w_env_url alice2 = Some alice_profile
  ∧ private_key alice_k1 = b64encode (tape 7 <$> seq 0 32)
  ∧ ∃ sealed,
      (send_message bob_cm "alice"
         (b64encode (crypto_scalarmult_base (tape 7 <$> seq 0 32))) "hello"
         bob1).1 = Ok true
      ∧ _try_decrypt_with_old_keys (rotate_key alice_krm alice2).2 sealed
          (b64encode bob_pub) = Some "hello".
Proof.
  split; [by vm_compute|]. split; [reflexivity|].
  destruct (rotate_key_fallback_opens_retired alice_krm alice2 alice_profile
              alice_k1 (tape 7 <$> seq 0 32) bob_sk "bob" "hello"
              (list_byte_of_string "hello") bob1)
    as (sealed & Hret & _ & _ & _ & _ & Hopen);
    [by vm_compute | reflexivity | reflexivity | reflexivity | reflexivity
    | reflexivity | reflexivity |].
  exists sealed. split; [exact Hret|]. apply Hopen. constructor.
Defined.

Lemma ChatManager_init_fresh_record_witness :
  (register_user "carol" "hunter2" alice0).1 = Ok (Some carol)
  ∧ (ChatManager_init (session carol 40 "2026-11-02 10:00:00" relay0)).1
    = Ok {| cm_username := "carol";
            cm_identity_private_key := tape 7 <$> seq 0 32;
            cm_identity_public_key :=
              crypto_scalarmult_base (tape 7 <$> seq 0 32) |}.
Proof.
  assert ((register_user "carol" "hunter2" alice0).1 = Ok (Some carol)) as Hreg
    by by vm_compute.
  split; [exact Hreg|].
  destruct (ChatManager_init_fresh_record alice0) as [Hfresh _].
  exact (Hfresh "carol" "hunter2" carol Hreg
           (session carol 40 "2026-11-02 10:00:00" relay0) eq_refl).
Defined.

End MoreRuns.

Module StrictRuns.
Import Toy Scenario Cases.
#[local] Existing Instances Serial.strict_codec argon2 aes_gcm nacl Serial.json.

Lemma rotate_key_publishes_first_witness :
  db_profiles (w_user_data alice_bad_password) !! w_env_url alice_bad_password
  = Some alice_profile
  ∧ reachable (w_db alice_bad_password) = true
  ∧ utf8_encode (w_password alice_bad_password) = None
  ∧ (rotate_key alice_krm alice_bad_password).1 = Ok false
  ∧ get_user_public_key (w_db (rotate_key alice_krm alice_bad_password).2) "alice"
    = Some (identity_public_key (rotated alice_bad_password alice_profile))
  ∧ w_profile_file (rotate_key alice_krm alice_bad_password).2 = None.
Proof.
  split; [by vm_compute|]. split; [reflexivity|]. split; [reflexivity|].
  destruct (rotate_key_publishes_first alice_krm alice_bad_password
              alice_profile (b64encode alice_pub, "2026-11-01 08:00:00"))
    as (_ & Hkey & _ & _ & _ & Hfalse & _);
    [by vm_compute | reflexivity | by vm_compute|].
  destruct Hfalse as [Hret Hfile].
  { right. eexists _, UnicodeEncodeError. split; by vm_compute. }
  split; [exact Hret|]. split; [exact Hkey|exact Hfile].
Defined.

End StrictRuns.
